(** * Versioned file store, pending commits and pull requests

    A shallow embedding of the service layer of the version-control web
    application: [s3Service] (files, versions, history, pending commits,
    copies), [repositoryService] (repositories, forks, access requests),
    [notificationService] and [pullRequestService] (opening, status and
    merge of pull requests).

    The services talk to two backing stores and to the platform:

    - the blob bucket is a finite map from keys to objects; [PutObject]
      overwrites, [GetObject] fails with [NoSuchKey] on an absent key and
      [ListObjectsV2], sent once and without [MaxKeys], returns one page:
      the first 1000 keys below the prefix in key order, a common prefix
      counting as one key when a delimiter is given;
    - the document collections [repositories], [pullRequests] and
      [accessRequests] are finite maps from document ids to typed records,
      [notifications] is an append-only list; a function that adds a
      document takes the id the store generates for it as an argument, and
      a query without an order returns the matching documents by id;
    - JavaScript strings and byte sequences are both values of [string];
      the UTF-8 codec between them, [TextEncoder.encode] and
      [TextDecoder.decode], is a parameter of the development, of which
      only one fact is used: the empty byte sequence decodes to the empty
      string; a JSON blob is stored as the document it encodes, and
      [JSON.parse] of what [JSON.stringify] wrote gives the document back;
    - the wall clock, date parsing and formatting, lower-casing, signed
      URLs and the JSON (de)serialisation of free text are parameters of
      the development as well.

    Every service function takes the world and returns its result together
    with the world it leaves behind; read-only functions return the result
    alone. *)

From Stdlib Require Import ZArith Ascii String.
From stdpp Require Import gmap strings list fin_maps sorting pretty.

Open Scope string_scope.

(** ** Results *)

(** The services never raise: they return [{ success: true, ... }] or
    [{ success: false, error }]. *)
Inductive Result (A : Type) : Type :=
| Success (a : A)
| Failure (error : string).
Arguments Success {A} a.
Arguments Failure {A} error.

Definition succeeded {A} (r : Result A) : bool :=
  match r with Success _ => true | Failure _ => false end.

(** ** JavaScript values held in metadata documents *)

Inductive jsval : Type :=
| JUndefined
| JNull
| JBool (b : bool)
| JStr (s : string).

#[global] Instance jsval_eq_dec : EqDecision jsval.
Proof. solve_decision. Defined.

(** A flat object: property name to value.  Spreading [{...o, k: v}] is
    [<[k:=v]> o]. *)
Abbreviation jobj := (gmap string jsval).

(** [o.k]: an absent property reads as [undefined]. *)
Definition prop (o : jobj) (k : string) : jsval := default JUndefined (o !! k).

(** [String(v)], as a template literal applies it. *)
Definition js_toString (v : jsval) : string :=
  match v with
  | JUndefined => "undefined"
  | JNull => "null"
  | JBool true => "true"
  | JBool false => "false"
  | JStr s => s
  end.

(** [a || b] on strings: the empty string is falsy. *)
Definition or_str (a b : string) : string := if String.eqb a "" then b else a.

(** [a || b] where [a] may be [null]/[undefined]. *)
Definition or_opt (a : option string) (b : string) : string :=
  match a with Some s => or_str s b | None => b end.

(** ** String helpers used by the key scheme *)

Definition slash : ascii := "/"%char.

(** [s.split('/')] *)
Fixpoint split_slash_go (acc : string) (s : string) : list string :=
  match s with
  | EmptyString => [String.rev acc]
  | String c s' =>
      if Ascii.eqb c slash then String.rev acc :: split_slash_go "" s'
      else split_slash_go (String c acc) s'
  end.
Definition split_slash (s : string) : list string := split_slash_go "" s.

(** [s.split('/').pop()]: the split of a string is never empty. *)
Definition last_segment (s : string) : string := List.last (split_slash s) "".

(** [parts[parts.length - 2]] *)
Definition second_to_last (parts : list string) : jsval :=
  match rev parts with
  | _ :: p :: _ => JStr p
  | _ => JUndefined
  end.

(** [s.includes(pat)] *)
Definition includes (pat s : string) : bool :=
  match String.index 0 pat s with Some _ => true | None => false end.

(** [s.replace(pat, rep)] with a string pattern: first occurrence only. *)
Definition replace_first (pat rep s : string) : string :=
  match String.index 0 pat s with
  | Some i =>
      String.substring 0 i s ++ rep ++
      String.substring (i + String.length pat)
                       (String.length s - (i + String.length pat)) s
  | None => s
  end.

(** [s.endsWith(ext)] *)
Definition endsWith (ext s : string) : bool :=
  String.prefix (String.rev ext) (String.rev s).

(** [s.substring(0, n)] *)
Definition substring0 (n : nat) (s : string) : string := String.substring 0 n s.

(** Does the string hold a [/]? *)
Fixpoint has_slash (s : string) : bool :=
  match s with
  | EmptyString => false
  | String c s' => Ascii.eqb c slash || has_slash s'
  end.

(** ** Data model *)

(** The authenticated caller as the auth provider supplies it. *)
Record User := {
  uid : string;
  email : option string;
  displayName : option string
}.

(** The body of a stored blob: raw bytes, or a JSON document. *)
Inductive body : Type :=
| Raw (bytes : string)
| Json (doc : jobj).

Record S3Object := {
  Body : body;
  ContentType : string;
  Metadata : list (string * string);
  LastModified : string
}.

(** [interface Repository]; [r_id] is the optional [id] property of the
    stored data, which the document id fills in when absent. *)
Record Repository := {
  r_id : option string;
  r_name : string;
  r_description : string;
  r_ownerId : string;
  r_createdAt : string;
  r_updatedAt : string;
  r_isPublic : bool;
  r_collaborators : option (list string);
  r_forkedFrom : option string
}.

Inductive PRStatus : Type := open | merged | rejected | closed.

#[global] Instance PRStatus_eq_dec : EqDecision PRStatus.
Proof. solve_decision. Defined.

Definition status_name (s : PRStatus) : string :=
  match s with
  | open => "open" | merged => "merged"
  | rejected => "rejected" | closed => "closed"
  end.

Record Creator := {
  cb_id : string;
  cb_name : string;
  cb_email : string
}.

(** [interface PullRequest] *)
Record PullRequest := {
  pr_id : option string;
  pr_title : string;
  pr_description : string;
  pr_sourceRepoId : string;
  pr_sourceRepoName : string;
  pr_targetRepoId : string;
  pr_targetRepoName : string;
  pr_targetOwnerId : string;
  pr_status : PRStatus;
  pr_createdAt : string;
  pr_updatedAt : string;
  pr_createdBy : Creator;
  pr_changedFiles : option (list string)
}.

Record Notification := {
  n_userId : jsval;
  n_type : string;
  n_message : string;
  n_details : jobj;
  n_read : bool;
  n_createdAt : string;
  n_createdBy : option string
}.

(** The state the services act on. *)
Record World := {
  initialized : bool;
  currentUser : option User;
  bucket : gmap string S3Object;
  repositories : gmap string Repository;
  pullRequests : gmap string PullRequest;
  notifications : list Notification;
  ticks : nat
}.

Definition set_bucket (b : gmap string S3Object) (n : nat) (w : World) : World :=
  {| initialized := initialized w; currentUser := currentUser w;
     bucket := b; repositories := repositories w;
     pullRequests := pullRequests w; notifications := notifications w;
     ticks := n |}.

Definition set_ticks (n : nat) (w : World) : World :=
  set_bucket (bucket w) n w.

Definition set_pullRequests (p : gmap string PullRequest) (w : World) : World :=
  {| initialized := initialized w; currentUser := currentUser w;
     bucket := bucket w; repositories := repositories w;
     pullRequests := p; notifications := notifications w;
     ticks := ticks w |}.

Definition add_notification (n : Notification) (w : World) : World :=
  {| initialized := initialized w; currentUser := currentUser w;
     bucket := bucket w; repositories := repositories w;
     pullRequests := pullRequests w;
     notifications := notifications w ++ [n];
     ticks := ticks w |}.

(** ** Blob key scheme *)

Definition fileKeyOf (repoId fileName : string) : string :=
  "repositories/" ++ repoId ++ "/files/" ++ fileName.

Definition versionKeyOf (folder repoId fileName timestamp ext : string) : string :=
  "repositories/" ++ repoId ++ "/" ++ folder ++ "/" ++ fileName ++ "/" ++
  timestamp ++ ext.

Definition historyKeyOf (repoId fileName timestamp : string) : string :=
  versionKeyOf "history" repoId fileName timestamp ".txt".

Definition commitKeyOf (repoId fileName timestamp : string) : string :=
  versionKeyOf "commits" repoId fileName timestamp ".json".

Definition pendingKeyOf (repoId fileName timestamp : string) : string :=
  versionKeyOf "pending" repoId fileName timestamp ".txt".

Definition pendingMetaKeyOf (repoId fileName timestamp : string) : string :=
  versionKeyOf "pending-meta" repoId fileName timestamp ".json".

Definition commitsPrefix (repoId fileName : string) : string :=
  "repositories/" ++ repoId ++ "/commits/" ++ fileName ++ "/".

Definition filesPrefix (repoId : string) : string :=
  "repositories/" ++ repoId ++ "/files/".

Definition pendingMetaPrefix (repoId : string) : string :=
  "repositories/" ++ repoId ++ "/pending-meta/".

(** ** Listings *)

(** Order of the keys in a listing. *)
Definition key_le (a b : string * S3Object) : Prop := String.leb a.1 b.1 = true.

#[global] Instance key_le_dec : RelDecision key_le.
Proof. intros a b. unfold key_le. apply _. Defined.

(** The number of keys [ListObjectsV2] returns when the request gives no
    [MaxKeys]. *)
Definition MaxKeys : nat := 1000.

(** What is left of a key behind the prefix of the listing. *)
Definition rest_of_key (pfx key : string) : string :=
  String.substring (String.length pfx) (String.length key - String.length pfx)
                   key.

(** The start of a string up to and including its first slash: behind the
    prefix of a listing, the common prefix the key is rolled up into. *)
Fixpoint up_to_slash (s : string) : option string :=
  match s with
  | EmptyString => None
  | String c s' =>
      if Ascii.eqb c slash then Some (String c EmptyString)
      else String c <$> up_to_slash s'
  end.

(** One page of a listing with [Delimiter: '/'] over the keys in key
    order: a key without a further slash is returned in [Contents]; keys
    with one are rolled up into their common prefix; every returned key
    and every common prefix takes one place of the page. *)
Fixpoint page_delim (pfx : string) (room : nat) (rolled : option string)
    (keys : list (string * S3Object)) : list (string * S3Object) :=
  match keys with
  | [] => []
  | kv :: keys' =>
      match up_to_slash (rest_of_key pfx kv.1) with
      | None =>
          match room with
          | 0 => []
          | S room' => kv :: page_delim pfx room' rolled keys'
          end
      | Some cp =>
          if bool_decide (rolled = Some cp)
          then page_delim pfx room rolled keys'
          else match room with
               | 0 => []
               | S room' => page_delim pfx room' (Some cp) keys'
               end
      end
  end.

(** ** Array.prototype.sort *)

(** A stable sort driven by a comparator whose result may be [NaN]
    ([None]); an element moves behind another one only when the comparator
    is positive. *)
Section Sort.
Context {A : Type} (cmp : A → A → option Z).

Definition goes_after (x y : A) : bool :=
  match cmp x y with Some v => (0 <? v)%Z | None => false end.

Fixpoint sort_insert (x : A) (l : list A) : list A :=
  match l with
  | [] => [x]
  | y :: l' => if goes_after x y then y :: sort_insert x l' else x :: l
  end.

Fixpoint Array_sort (l : list A) : list A :=
  match l with
  | [] => []
  | x :: l' => sort_insert x (Array_sort l')
  end.
End Sort.

(** ** Platform parameters *)

Class Platform := {
  (** [clock n] is what [new Date().toISOString()] returns at the [n]-th
      observation of the wall clock; the bucket stamps [LastModified] from
      the same sequence of instants. *)
  clock : nat → string;
  (** [new Date(s).getTime()], [None] for an invalid date ([NaN]). *)
  Date_parse : string → option Z;
  (** [new Date(s).toLocaleString()] *)
  toLocaleString : string → string;
  (** [s.toLowerCase()] *)
  toLowerCase : string → string;
  (** [getSignedUrl(client, new GetObjectCommand({Key}), {expiresIn})] *)
  getSignedUrl : string → nat → string;
  (** [JSON.stringify] of a document and [JSON.parse] of free text
      ([None] when it throws). *)
  JSON_stringify : jobj → string;
  JSON_parse : string → option jobj;
  (** [new TextEncoder().encode(s)]: the UTF-8 bytes of a string. *)
  TextEncoder_encode : string → string;
  (** [new TextDecoder().decode(b)]: the string the bytes decode to. *)
  TextDecoder_decode : string → string;
  (** Nothing decodes to nothing. *)
  TextDecoder_decode_empty : TextDecoder_decode "" = ""
}.

Section Services.
Context `{!Platform}.

(** *** The bucket *)

Definition body_bytes (b : body) : string :=
  match b with
  | Raw bytes => bytes
  | Json doc => TextEncoder_encode (JSON_stringify doc)
  end.

(** [JSON.parse(new TextDecoder().decode(bytes))] *)
Definition parse_body (b : body) : option jobj :=
  match b with
  | Raw bytes => JSON_parse (TextDecoder_decode bytes)
  | Json doc => Some doc
  end.

(** [PutObjectCommand] *)
Definition s3_put (key : string) (b : body) (contentType : string)
    (metadata : list (string * string)) (w : World) : World :=
  set_bucket
    (<[key := {| Body := b; ContentType := contentType;
                 Metadata := metadata;
                 LastModified := clock (ticks w) |}]> (bucket w))
    (S (ticks w)) w.

(** [GetObjectCommand] / [HeadObjectCommand]; [None] is [NoSuchKey]. *)
Definition s3_get (key : string) (w : World) : option S3Object :=
  bucket w !! key.

Definition NoSuchKey_message : string := "The specified key does not exist.".

(** The keys of the bucket below a prefix, in key order. *)
Definition keys_below (pfx : string) (w : World) : list (string * S3Object) :=
  merge_sort key_le
    (filter (λ kv, String.prefix pfx kv.1 = true) (map_to_list (bucket w))).

(** [ListObjectsV2Command] with a [Prefix], sent once: the [Contents] of
    the first page. *)
Definition s3_list (pfx : string) (w : World) : list (string * S3Object) :=
  take MaxKeys (keys_below pfx w).

(** With [Delimiter: '/']: keys with a further slash are rolled up into
    [CommonPrefixes] and do not show in [Contents]. *)
Definition s3_list_delim (pfx : string) (w : World) : list (string * S3Object) :=
  page_delim pfx MaxKeys None (keys_below pfx w).

(** [new Date().toISOString()] *)
Definition Date_now (w : World) : string * World :=
  (clock (ticks w), set_ticks (S (ticks w)) w).

(** [new Date(v).getTime()] for a property value. *)
Definition getTime (v : jsval) : option Z :=
  match v with
  | JUndefined => None
  | JNull => Some 0%Z
  | JBool true => Some 1%Z
  | JBool false => Some 0%Z
  | JStr s => Date_parse s
  end.

(** [(a, b) => new Date(b.timestamp).getTime() - new Date(a.timestamp).getTime()] *)
Definition by_date_desc (a b : jobj) : option Z :=
  tb ← getTime (prop b "timestamp");
  ta ← getTime (prop a "timestamp");
  Some (tb - ta)%Z.

(** *** s3Service *)

Definition not_configured : string := "AWS S3 is not properly configured".
Definition not_authenticated : string := "User not authenticated".

Definition textExtensions : list string :=
  [".txt"; ".md"; ".json"; ".js"; ".jsx"; ".ts"; ".tsx"; ".html"; ".css";
   ".scss"; ".xml"; ".yaml"; ".yml"; ".csv"; ".log"; ".sh"; ".bat"; ".ps1";
   ".py"; ".rb"; ".php"; ".java"; ".c"; ".cpp"; ".h"; ".cs"; ".go"; ".rs";
   ".swift"; ".kt"; ".sql"; ".gitignore"; ".env"; ".config"; ".toml"].

Definition isTextFile (fileName : string) : bool :=
  let lowerFileName := toLowerCase fileName in
  existsb (λ ext, endsWith ext lowerFileName) textExtensions.

(** [author: currentUser.email || currentUser.uid] *)
Definition author_of (u : User) : string := or_opt (email u) (uid u).

(** The commit-metadata document; [JSON.stringify] drops an undefined
    [previousVersion]. *)
Definition commitData (commitMessage timestamp : string) (u : User)
    (previousVersion : option string) : jobj :=
  let d : jobj :=
    <["author" := JStr (author_of u)]>
      (<["timestamp" := JStr timestamp]>
        (<["message" := JStr commitMessage]> ∅)) in
  match previousVersion with
  | Some p => <["previousVersion" := JStr p]> d
  | None => d
  end.

Definition commitFileVersion (repoId fileName fileContent commitMessage : string)
    (previousVersionTimestamp : option string) (w : World)
    : Result string * World :=
  if negb (initialized w) then (Failure not_configured, w) else
  match currentUser w with
  | None => (Failure not_authenticated, w)
  | Some currentUser =>
      let '(timestamp, w) := Date_now w in
      (* 1. the current content *)
      let w := s3_put (fileKeyOf repoId fileName)
                 (Raw (TextEncoder_encode fileContent)) "text/plain"
                 [("user-id", uid currentUser);
                  ("user-email", or_opt (email currentUser) "");
                  ("uploaded-at", timestamp);
                  ("original-filename", fileName)] w in
      (* 2. the history snapshot *)
      let w := s3_put (historyKeyOf repoId fileName timestamp)
                 (Raw (TextEncoder_encode fileContent)) "text/plain"
                 [("user-id", uid currentUser);
                  ("user-email", or_opt (email currentUser) "");
                  ("commit-message", commitMessage);
                  ("timestamp", timestamp);
                  ("previous-version", or_opt previousVersionTimestamp "")] w in
      (* 3. the commit metadata *)
      let w := s3_put (commitKeyOf repoId fileName timestamp)
                 (Json (commitData commitMessage timestamp currentUser
                          previousVersionTimestamp))
                 "application/json" [] w in
      (Success timestamp, w)
  end.

(** One element of the [map] in [getFileCommitHistory]; [None] is the
    [null] that [filter(Boolean)] drops. *)
Definition commit_entry (item : string * S3Object) : option jobj :=
  d ← parse_body (Body item.2);
  Some (<["id" := JStr (or_str (replace_first ".json" "" (last_segment item.1)) "")]> d).

Definition getFileCommitHistory (repoId fileName : string) (w : World)
    : Result (list jobj) :=
  if negb (initialized w) then Failure not_configured else
  let contents := s3_list (commitsPrefix repoId fileName) w in
  match contents with
  | [] => Success []
  | _ => Success (Array_sort by_date_desc (omap commit_entry contents))
  end.

Definition getFileVersion (repoId fileName timestamp : string)
    (fromPending : bool) (w : World) : Result string :=
  if negb (initialized w) then Failure not_configured else
  let folder := if fromPending then "pending" else "history" in
  let fileKey := versionKeyOf folder repoId fileName timestamp ".txt" in
  match s3_get fileKey w with
  | Some result => Success (TextDecoder_decode (body_bytes (Body result)))
  | None => Failure "Version not found"
  end.

(** [string | Blob | ArrayBuffer]: a string, or binary content. *)
Inductive FileContent : Type :=
| CString (s : string)
| CBytes (bytes : string).

(** Truthiness: only the empty string is falsy. *)
Definition content_truthy (c : FileContent) : bool :=
  match c with
  | CString s => negb (String.eqb s "")
  | CBytes _ => true
  end.

Definition getFileSignedUrl (repoId fileName : string) (expiresIn : nat)
    (w : World) : Result string :=
  if negb (initialized w) then Failure not_configured else
  Success (getSignedUrl (fileKeyOf repoId fileName) expiresIn).

Definition uploadFileToS3 (repoId fileName : string) (fileContent : FileContent)
    (contentType : string) (w : World) : Result (option string) * World :=
  if negb (initialized w) then (Failure not_configured, w) else
  match currentUser w with
  | None => (Failure not_authenticated, w)
  | Some currentUser =>
      if negb (content_truthy fileContent)
      then (Failure "File content cannot be empty", w) else
      let finalContentType :=
        if String.eqb contentType "" || String.eqb contentType "text/plain"
        then (if isTextFile fileName then "text/plain"
              else "application/octet-stream")
        else contentType in
      let content :=
        match fileContent with
        | CString s => TextEncoder_encode s
        | CBytes b => b
        end in
      let key := fileKeyOf repoId fileName in
      let '(uploadedAt, w) := Date_now w in
      let w := s3_put key (Raw content) finalContentType
                 [("user-id", uid currentUser);
                  ("uploaded-at", uploadedAt);
                  ("original-filename", fileName)] w in
      match getFileSignedUrl repoId fileName 900 w with
      | Success url => (Success (Some url), w)
      | Failure _ => (Success None, w)
      end
  end.

Definition downloadFileFromS3 (repoId fileName : string) (w : World)
    : Result (FileContent * list (string * string)) :=
  if negb (initialized w) then Failure not_configured else
  let key := fileKeyOf repoId fileName in
  match s3_get key w with
  | None => Failure (or_str NoSuchKey_message "Failed to download file from S3")
  | Some data =>
      let bodyContents := body_bytes (Body data) in
      let content :=
        if includes "text" (ContentType data) || isTextFile fileName
        then CString (TextDecoder_decode bodyContents)
        else CBytes bodyContents in
      Success (content, Metadata data)
  end.

(** Alias kept for backward compatibility. *)
Definition getFileContent := downloadFileFromS3.

Record FileInfo := {
  fi_name : string;
  fi_path : string;
  fi_size : nat;
  fi_contentType : string;
  fi_createdAt : string;
  fi_downloadUrl : string
}.

Definition listRepositoryFiles (repoId : string) (w : World)
    : Result (list FileInfo) :=
  if negb (initialized w) then Failure not_configured else
  let contents := s3_list_delim (filesPrefix repoId) w in
  match contents with
  | [] => Success []
  | _ =>
      Success (map (λ item : string * S3Object,
                 {| fi_name := or_str (last_segment item.1) "";
                    fi_path := item.1;
                    fi_size := String.length (body_bytes (Body item.2));
                    fi_contentType :=
                      or_str (ContentType item.2) "application/octet-stream";
                    fi_createdAt := LastModified item.2;
                    fi_downloadUrl := getSignedUrl item.1 3600 |})
               contents)
  end.

(** The commit-metadata document of [uploadFileWithCommit]. *)
Definition uploadCommitData (commitMessage timestamp : string) (u : User) : jobj :=
  commitData commitMessage timestamp u None.

Definition uploadFileWithCommit (repoId fileName : string)
    (fileContent : FileContent) (commitMessage : string) (user : option User)
    (w : World) : Result string * World :=
  if negb (initialized w) then (Failure not_configured, w) else
  match (match user with Some u => Some u | None => currentUser w end) with
  | None => (Failure not_authenticated, w)
  | Some currentUser =>
      let '(timestamp, w) := Date_now w in
      (* 1. the current content *)
      let '(uploadResult, w) := uploadFileToS3 repoId fileName fileContent
                                  "text/plain" w in
      match uploadResult with
      | Failure error =>
          (Failure (or_str (or_str error "Failed to upload file content")
                           "Failed to upload file with commit"), w)
      | Success _ =>
          (* 2. the history snapshot *)
          let fileContentString :=
            match fileContent with
            | CString s => s
            | CBytes b => TextDecoder_decode b
            end in
          let w := s3_put (historyKeyOf repoId fileName timestamp)
                     (Raw (TextEncoder_encode fileContentString)) "text/plain"
                     [("user-id", uid currentUser);
                      ("user-email", or_opt (email currentUser) "");
                      ("commit-message", commitMessage);
                      ("timestamp", timestamp)] w in
          (* 3. the commit metadata *)
          let w := s3_put (commitKeyOf repoId fileName timestamp)
                     (Json (uploadCommitData commitMessage timestamp currentUser))
                     "application/json" [] w in
          (Success timestamp, w)
      end
  end.

Definition restoreFileVersion (repoId fileName timestamp : string)
    (commitMessage : option string) (w : World) : Result unit * World :=
  let commitMessage := default "Restored previous version" commitMessage in
  if negb (initialized w) then (Failure not_configured, w) else
  match currentUser w with
  | None => (Failure not_authenticated, w)
  | Some _ =>
      (* 1. the content of the version to restore *)
      match getFileVersion repoId fileName timestamp false w with
      | Failure error =>
          (Failure (or_str error "Failed to retrieve file version"), w)
      | Success content =>
          if String.eqb content ""
          then (Failure "Failed to retrieve file version", w) else
          (* 2. a new commit with the restored content *)
          let restoreCommitMessage :=
            commitMessage ++ " (from " ++ toLocaleString timestamp ++ ")" in
          match commitFileVersion repoId fileName content
                  restoreCommitMessage None w with
          | (Failure error, w) =>
              (Failure (or_str error "Failed to create restore commit"), w)
          | (Success _, w) => (Success (), w)
          end
      end
  end.

(** *** repositoryService *)

(** [{ id: doc.id, ...doc.data() }] *)
Definition repository_of_doc (id : string) (d : Repository) : Repository :=
  {| r_id := Some (default id (r_id d));
     r_name := r_name d; r_description := r_description d;
     r_ownerId := r_ownerId d; r_createdAt := r_createdAt d;
     r_updatedAt := r_updatedAt d; r_isPublic := r_isPublic d;
     r_collaborators := r_collaborators d;
     r_forkedFrom := r_forkedFrom d |}.

(** [repository.collaborators?.includes(uid)], [undefined] being falsy. *)
Definition is_collaborator (r : Repository) (u : string) : bool :=
  match r_collaborators r with
  | Some l => bool_decide (u ∈ l)
  | None => false
  end.

Definition getRepository (id : string) (w : World) : Result Repository :=
  match currentUser w with
  | None => Failure not_authenticated
  | Some currentUser =>
      match repositories w !! id with
      | None => Failure "Repository not found"
      | Some d =>
          let repository := repository_of_doc id d in
          if negb (r_isPublic repository)
             && negb (String.eqb (r_ownerId repository) (uid currentUser))
             && negb (is_collaborator repository (uid currentUser))
          then Success
                 {| r_id := r_id repository;
                    r_name := r_name repository;
                    r_ownerId := r_ownerId repository;
                    r_isPublic := false;
                    r_description := r_description repository;
                    r_createdAt := r_createdAt repository;
                    r_updatedAt := r_updatedAt repository;
                    r_collaborators := Some [];
                    r_forkedFrom := None |}
          else Success repository
      end
  end.

(** *** notificationService *)

(** Truthiness of a property value used as a user id. *)
Definition js_truthy (v : jsval) : bool :=
  match v with
  | JUndefined | JNull | JBool false => false
  | JBool true => true
  | JStr s => negb (String.eqb s "")
  end.

(** The callers below pass a string, or a property of a parsed document. *)
Definition createNotification (userId : jsval) (type message : string)
    (details : jobj) (w : World) : Result unit * World :=
  if negb (js_truthy userId) then (Failure "userId is required", w) else
  match currentUser w with
  | None => (Failure not_authenticated, w)
  | Some currentUser =>
      let '(timestamp, w) := Date_now w in
      (Success (),
       add_notification
         {| n_userId := userId; n_type := type;
            n_message := message; n_details := details; n_read := false;
            n_createdAt := timestamp;
            n_createdBy := Some (uid currentUser) |} w)
  end.

(** *** s3Service: pending commits *)

(** [email] inside a template literal or a document: [null] when absent. *)
Definition email_val (u : User) : jsval :=
  match email u with Some e => JStr e | None => JNull end.

Definition pendingCommitData (commitMessage timestamp fileName : string)
    (u : User) : jobj :=
  <["status" := JStr "pending"]>
    (<["fileName" := JStr fileName]>
      (<["authorId" := JStr (uid u)]>
        (<["author" := JStr (author_of u)]>
          (<["timestamp" := JStr timestamp]>
            (<["message" := JStr commitMessage]> ∅))))).

Definition createPendingCommit (repoId fileName fileContent commitMessage : string)
    (w : World) : Result string * World :=
  if negb (initialized w) then (Failure not_configured, w) else
  match currentUser w with
  | None => (Failure not_authenticated, w)
  | Some currentUser =>
      let '(timestamp, w) := Date_now w in
      (* 1. the pending change *)
      let w := s3_put (pendingKeyOf repoId fileName timestamp)
                 (Raw (TextEncoder_encode fileContent)) "text/plain"
                 [("user-id", uid currentUser);
                  ("user-email", or_opt (email currentUser) "");
                  ("commit-message", commitMessage);
                  ("timestamp", timestamp)] w in
      (* 2. its metadata *)
      let w := s3_put (pendingMetaKeyOf repoId fileName timestamp)
                 (Json (pendingCommitData commitMessage timestamp fileName
                          currentUser))
                 "application/json" [] w in
      (* 3. a notification for the repository owner *)
      let w :=
        match getRepository repoId w with
        | Success repository =>
            if negb (String.eqb (r_ownerId repository) (uid currentUser))
            then
              (createNotification (JStr (r_ownerId repository)) "commit_request"
                 (or_opt (email currentUser) "A collaborator" ++
                  " has submitted changes to " ++ fileName ++
                  " for your approval")
                 (<["repositoryId" := JStr repoId]>
                   (<["repositoryName" := JStr (r_name repository)]>
                     (<["fileName" := JStr fileName]>
                       (<["commitTimestamp" := JStr timestamp]>
                         (<["requesterId" := JStr (uid currentUser)]>
                           (<["requesterEmail" := email_val currentUser]> ∅))))))
                 w).2
            else w
        | Failure _ => w
        end in
      (Success timestamp, w)
  end.

(** One element of the [map] in [getPendingCommitRequests]. *)
Definition request_entry (repoId : string) (item : string * S3Object)
    : option jobj :=
  commitData ← parse_body (Body item.2);
  let pathParts := split_slash item.1 in
  let fileName := second_to_last pathParts in
  Some (<["path" := JStr ("repositories/" ++ repoId ++ "/pending/" ++
                           js_toString fileName ++ "/" ++
                           js_toString (prop commitData "timestamp") ++ ".txt")]>
         (<["fileName" := fileName]>
           (<["id" := JStr (or_str (replace_first ".json" ""
                                      (last_segment item.1)) "")]>
             commitData))).

Definition getPendingCommitRequests (repoId : string) (w : World)
    : Result (list jobj) :=
  if negb (initialized w) then Failure not_configured else
  let contents := s3_list (pendingMetaPrefix repoId) w in
  match contents with
  | [] => Success []
  | _ => Success (Array_sort by_date_desc (omap (request_entry repoId) contents))
  end.

(** [{...metadata, status, processedBy, processedAt, comment}] *)
Definition updatedMetadata (metadata : jobj) (status : string) (u : User)
    (processedAt : string) (comment : option string) : jobj :=
  <["comment" := JStr (or_opt comment "")]>
    (<["processedAt" := JStr processedAt]>
      (<["processedBy" := JStr (author_of u)]>
        (<["status" := JStr status]> metadata))).

Definition access_failed : string := "Failed to access commit request".

Definition processPendingCommit (repoId requestId fileName : string)
    (approve : bool) (comment : option string) (w : World)
    : Result unit * World :=
  if negb (initialized w) then (Failure not_configured, w) else
  match currentUser w with
  | None => (Failure not_authenticated, w)
  | Some currentUser =>
      (* 1. the repository, to verify ownership *)
      match getRepository repoId w with
      | Failure error => (Failure (or_str error "Repository not found"), w)
      | Success repository =>
          if negb (String.eqb (r_ownerId repository) (uid currentUser))
          then (Failure "Only the repository owner can approve commit requests", w)
          else
          (* 2. the request metadata *)
          let metadataKey := pendingMetaKeyOf repoId fileName requestId in
          match s3_get metadataKey w with
          | None => (Failure access_failed, w)
          | Some metadataResult =>
              match parse_body (Body metadataResult) with
              | None => (Failure access_failed, w)
              | Some metadata =>
                  let applied :=
                    if approve then
                      (* 3. apply the change *)
                      match s3_get (pendingKeyOf repoId fileName requestId) w with
                      | None => None
                      | Some fileResult =>
                          let fileContent :=
                            TextDecoder_decode (body_bytes (Body fileResult)) in
                          let w :=
                            (uploadFileWithCommit repoId fileName
                               (CString fileContent)
                               (js_toString (prop metadata "message") ++
                                " (Approved by " ++
                                js_toString (email_val currentUser) ++ ")")
                               (Some currentUser) w).2 in
                          let '(processedAt, w) := Date_now w in
                          Some (s3_put metadataKey
                                  (Json (updatedMetadata metadata "approved"
                                           currentUser processedAt comment))
                                  "application/json" [] w)
                      end
                    else
                      (* 4. rejected: only the metadata changes *)
                      let '(processedAt, w) := Date_now w in
                      Some (s3_put metadataKey
                              (Json (updatedMetadata metadata "rejected"
                                       currentUser processedAt comment))
                              "application/json" [] w) in
                  match applied with
                  | None => (Failure access_failed, w)
                  | Some w =>
                      (* 5. a notification for the requester *)
                      let w :=
                        (createNotification (prop metadata "authorId")
                           (if approve then "commit_request_approved"
                            else "commit_request_rejected")
                           (if approve
                            then "Your changes to " ++ fileName ++
                                 " have been approved and applied"
                            else "Your changes to " ++ fileName ++
                                 " have been rejected")
                           (<["repositoryId" := JStr repoId]>
                             (<["repositoryName" := JStr (r_name repository)]>
                               (<["fileName" := JStr fileName]>
                                 (<["commitTimestamp" := JStr requestId]>
                                   (<["comment" := JStr (or_opt comment "")]> ∅)))))
                           w).2 in
                      (Success (), w)
                  end
              end
          end
      end
  end.

(** *** pullRequestService *)

(** The double-quote character of the notification message. *)
Definition dquote : string := String (ascii_of_nat 34) EmptyString.

(** [{ id: doc.id, ...doc.data() }] *)
Definition pullRequest_of_doc (id : string) (d : PullRequest) : PullRequest :=
  {| pr_id := Some (default id (pr_id d));
     pr_title := pr_title d; pr_description := pr_description d;
     pr_sourceRepoId := pr_sourceRepoId d;
     pr_sourceRepoName := pr_sourceRepoName d;
     pr_targetRepoId := pr_targetRepoId d;
     pr_targetRepoName := pr_targetRepoName d;
     pr_targetOwnerId := pr_targetOwnerId d;
     pr_status := pr_status d; pr_createdAt := pr_createdAt d;
     pr_updatedAt := pr_updatedAt d; pr_createdBy := pr_createdBy d;
     pr_changedFiles := pr_changedFiles d |}.

Definition getPullRequest (pullRequestId : string) (w : World)
    : Result PullRequest :=
  match pullRequests w !! pullRequestId with
  | None => Failure "Pull request not found"
  | Some d => Success (pullRequest_of_doc pullRequestId d)
  end.

(** [updateDoc(docRef, { status, updatedAt })] on the stored document. *)
Definition with_status (status : PRStatus) (updatedAt : string)
    (d : PullRequest) : PullRequest :=
  {| pr_id := pr_id d;
     pr_title := pr_title d; pr_description := pr_description d;
     pr_sourceRepoId := pr_sourceRepoId d;
     pr_sourceRepoName := pr_sourceRepoName d;
     pr_targetRepoId := pr_targetRepoId d;
     pr_targetRepoName := pr_targetRepoName d;
     pr_targetOwnerId := pr_targetOwnerId d;
     pr_status := status; pr_createdAt := pr_createdAt d;
     pr_updatedAt := updatedAt; pr_createdBy := pr_createdBy d;
     pr_changedFiles := pr_changedFiles d |}.

Definition updateDoc_status (pullRequestId : string) (status : PRStatus)
    (updatedAt : string) (w : World) : World :=
  set_pullRequests (alter (with_status status updatedAt) pullRequestId
                          (pullRequests w)) w.

Definition updatePullRequestStatus (pullRequestId : string) (status : PRStatus)
    (comment : option string) (w : World) : Result unit * World :=
  match currentUser w with
  | None => (Failure not_authenticated, w)
  | Some currentUser =>
      (* the pull request, to check permissions *)
      match getPullRequest pullRequestId w with
      | Failure error => (Failure (or_str error "Pull request not found"), w)
      | Success pullRequest =>
          if negb (String.eqb (pr_targetOwnerId pullRequest) (uid currentUser))
             && negb (bool_decide (status = closed))
          then (Failure "Only the repository owner can update this pull request", w)
          else
          let '(updatedAt, w) := Date_now w in
          let w := updateDoc_status pullRequestId status updatedAt w in
          (* a notification for the creator *)
          let '(createdAt, w) := Date_now w in
          let w :=
            add_notification
              {| n_userId := JStr (cb_id (pr_createdBy pullRequest));
                 n_type := "pull_request_" ++ status_name status;
                 n_message := "Your pull request " ++ dquote ++
                              pr_title pullRequest ++ dquote ++ " was " ++
                              status_name status;
                 n_details :=
                   <["pullRequestId" := JStr pullRequestId]>
                     (<["comment" := JStr (or_opt comment "")]>
                       (<["targetRepoName" :=
                            JStr (pr_targetRepoName pullRequest)]> ∅));
                 n_read := false;
                 n_createdAt := createdAt;
                 n_createdBy := None |} w in
          (Success (), w)
      end
  end.

(** The listing entries carry no [lastModified] property (see
    [listRepositoryFiles]): reading it gives [undefined]. *)
Definition lastModified (f : FileInfo) : jsval := JUndefined.

(** [new Map(files.map(file => [file.name, file]))]: a later entry
    overrides an earlier one of the same name. *)
Definition fileMap (files : list FileInfo) : gmap string FileInfo :=
  foldl (λ m f, <[fi_name f := f]> m) ∅ files.

Definition getChangedFiles (sourceRepoId targetRepoId : string) (w : World)
    : Result (list string) :=
  match currentUser w with
  | None => Failure not_authenticated
  | Some _ =>
      match listRepositoryFiles sourceRepoId w with
      | Failure error =>
          Failure (or_str error "Failed to list source repository files")
      | Success sourceFiles =>
          match listRepositoryFiles targetRepoId w with
          | Failure error =>
              Failure (or_str error "Failed to list target repository files")
          | Success targetFiles =>
              let targetFileMap := fileMap targetFiles in
              Success
                (omap (λ sourceFile,
                   let fileName := fi_name sourceFile in
                   match targetFileMap !! fileName with
                   | None => Some fileName
                   | Some targetFile =>
                       if negb (bool_decide (lastModified sourceFile =
                                             lastModified targetFile))
                       then Some fileName else None
                   end) sourceFiles)
          end
      end
  end.

Definition mergeMessage (pullRequestId : string) (pr : PullRequest) : string :=
  "Merge PR #" ++ substring0 8 pullRequestId ++ ": " ++ pr_title pr.

(** One turn of the transfer loop of [mergePullRequest]: the world after
    it, and whether the file counts as merged. *)
Definition mergeFile (pullRequestId : string) (pr : PullRequest) (u : User)
    (fileName : string) (w : World) : bool * World :=
  match getFileContent (pr_sourceRepoId pr) fileName w with
  | Failure _ => (false, w)
  | Success (content, _) =>
      if negb (content_truthy content) then (false, w) else
      let '(uploadResult, w) :=
        uploadFileWithCommit (pr_targetRepoId pr) fileName content
          (mergeMessage pullRequestId pr) (Some u) w in
      (succeeded uploadResult, w)
  end.

Fixpoint mergeFiles (pullRequestId : string) (pr : PullRequest) (u : User)
    (changedFiles : list string) (filesMerged : nat) (w : World)
    : nat * World :=
  match changedFiles with
  | [] => (filesMerged, w)
  | fileName :: rest =>
      let '(ok, w) := mergeFile pullRequestId pr u fileName w in
      mergeFiles pullRequestId pr u rest
                 (if ok then S filesMerged else filesMerged) w
  end.

Definition mergePullRequest (pullRequestId : string) (comment : option string)
    (w : World) : Result unit * World :=
  match currentUser w with
  | None => (Failure not_authenticated, w)
  | Some currentUser =>
      match getPullRequest pullRequestId w with
      | Failure error => (Failure (or_str error "Pull request not found"), w)
      | Success pullRequest =>
          if negb (String.eqb (pr_targetOwnerId pullRequest) (uid currentUser))
          then (Failure "Only the repository owner can merge this pull request", w)
          else if negb (bool_decide (pr_status pullRequest = open))
          then (Failure ("This pull request is already " ++
                         status_name (pr_status pullRequest)), w)
          else
          (* the changed files: stored, or calculated now *)
          let stored := default [] (pr_changedFiles pullRequest) in
          let resolved :=
            match stored with
            | [] => getChangedFiles (pr_sourceRepoId pullRequest)
                                    (pr_targetRepoId pullRequest) w
            | _ => Success stored
            end in
          match resolved with
          | Failure error =>
              (Failure (or_str error "Failed to determine changed files"), w)
          | Success changedFiles =>
              (* transfer each changed file *)
              let '(_, w) := mergeFiles pullRequestId pullRequest currentUser
                                        changedFiles 0 w in
              (* flip the status *)
              let '(_, w) := updatePullRequestStatus pullRequestId merged
                                                     comment w in
              (Success (), w)
          end
      end
  end.

End Services.

(** ** Sessions and ordering *)

(** Another caller signs in against the same stores. *)
Definition sign_in (u : User) (w : World) : World :=
  {| initialized := initialized w; currentUser := Some u;
     bucket := bucket w; repositories := repositories w;
     pullRequests := pullRequests w; notifications := notifications w;
     ticks := ticks w |}.

(** [a] carries a timestamp at least as recent as that of [b]. *)
Definition not_older `{!Platform} (a b : jobj) : Prop :=
  ∃ ta tb, getTime (prop a "timestamp") = Some ta
           ∧ getTime (prop b "timestamp") = Some tb ∧ (tb ≤ ta)%Z.

(** ** Vocabulary of the statements *)

(** The status a decision writes. *)
Definition decision (approve : bool) : string :=
  if approve then "approved" else "rejected".

(** The commit message of an approval. *)
Definition approvalMessage (metadata : jobj) (u : User) : string :=
  js_toString (prop metadata "message") ++ " (Approved by " ++
  js_toString (email_val u) ++ ")".

(** The bytes a content value is uploaded as. *)
Definition content_bytes `{!Platform} (c : FileContent) : string :=
  match c with
  | CString s => TextEncoder_encode s
  | CBytes b => b
  end.

(** The keys below the prefix fit the one page a listing returns. *)
Definition fits_one_page `{!Platform} (pfx : string) (w : World) : Prop :=
  (length (keys_below pfx w) <=? MaxKeys)%nat = true.

(** The file downloads from the repository with content the transfer loop
    accepts. *)
Definition transferable `{!Platform} (repoId fileName : string)
    (content : FileContent) (w : World) : Prop :=
  ∃ metadata, getFileContent repoId fileName w = Success (content, metadata)
              ∧ content_truthy content = true.

(** The repository holds the bytes as the current content of the file, and
    a commit-metadata record of the file carries the message. *)
Definition transferred `{!Platform} (repoId fileName bytes message : string)
    (w : World) : Prop :=
  (∃ current, s3_get (fileKeyOf repoId fileName) w = Some current
              ∧ body_bytes (Body current) = bytes)
  ∧ ∃ k c doc, s3_get k w = Some c
               ∧ String.prefix (commitsPrefix repoId fileName) k = true
               ∧ parse_body (Body c) = Some doc
               ∧ prop doc "message" = JStr message.

(** The transfer loop has not touched the files of the source: they are
    what they were in [w0]. *)
Definition source_intact `{!Platform} (pr : PullRequest) (w0 w : World) : Prop :=
  ∀ g, s3_get (fileKeyOf (pr_sourceRepoId pr) g) w
       = s3_get (fileKeyOf (pr_sourceRepoId pr) g) w0.

(** * A concrete platform and concrete worlds *)

(** A platform to run the services on: the clock ticks one second per
    observation, dates are compared by their seconds field, lower-casing is
    that of ASCII, free text never parses as JSON, and the codec is that
    of UTF-8. *)

Definition two_digits (n : nat) : string :=
  (if (n <? 10)%nat then "0" else "") ++ pretty n.

Definition demo_clock (n : nat) : string :=
  "2024-05-01T10:00:" ++ two_digits n ++ ".000Z".

Definition digit_of (c : ascii) : option Z :=
  let n := nat_of_ascii c in
  if ((48 <=? n) && (n <=? 57))%nat then Some (Z.of_nat (n - 48)) else None.

Definition demo_Date_parse (s : string) : option Z :=
  a ← String.get 17 s; b ← String.get 18 s;
  x ← digit_of a; y ← digit_of b;
  Some (1000 * (10 * x + y))%Z.

Definition lower_ascii (c : ascii) : ascii :=
  let n := nat_of_ascii c in
  if ((65 <=? n) && (n <=? 90))%nat then ascii_of_nat (n + 32) else c.

Fixpoint demo_toLowerCase (s : string) : string :=
  match s with
  | EmptyString => EmptyString
  | String c s' => String (lower_ascii c) (demo_toLowerCase s')
  end.

(** The strings of the platform are held as their UTF-8 bytes, a lone
    surrogate as the three bytes [ED A0..BF 80..BF] of its generalised
    encoding. *)

Definition in_range (lo hi : nat) (c : ascii) : bool :=
  let n := nat_of_ascii c in ((lo <=? n) && (n <=? hi))%nat.

(** U+FFFD, the replacement character, in UTF-8: [EF BF BD]. *)
Definition replacement : string :=
  String (ascii_of_nat 239)
    (String (ascii_of_nat 191) (String (ascii_of_nat 189) EmptyString)).

(** U+FEFF, the byte-order mark, in UTF-8: [EF BB BF]. *)
Definition BOM : string :=
  String (ascii_of_nat 239)
    (String (ascii_of_nat 187) (String (ascii_of_nat 191) EmptyString)).

(** U+D800 on its own, a lone surrogate, as the platform holds it:
    [ED A0 80]. *)
Definition lone_surrogate : string :=
  String (ascii_of_nat 237)
    (String (ascii_of_nat 160) (String (ascii_of_nat 128) EmptyString)).

(** The encoder writes a lone surrogate as U+FFFD and everything else as
    it is held. *)
Fixpoint demo_encode (s : string) : string :=
  match s with
  | EmptyString => EmptyString
  | String a s1 =>
      match s1 with
      | String b (String c s3) =>
          if (nat_of_ascii a =? 237)%nat && in_range 160 191 b
             && in_range 128 191 c
          then replacement ++ demo_encode s3
          else String a (demo_encode s1)
      | _ => String a (demo_encode s1)
      end
  end.

(** The UTF-8 decoder: [needed] bytes of the open sequence are still to
    come, the next of them between [lo] and [hi]; [seen] holds the bytes
    of the open sequence, last first.  A byte that cannot continue the
    open sequence ends it with U+FFFD and is read again as the start of
    a sequence. *)
Fixpoint utf8_decode (needed lo hi : nat) (seen : string) (b : string)
    : string :=
  match b with
  | EmptyString =>
      match needed with 0 => EmptyString | S _ => replacement end
  | String c rest =>
      let start :=
        if in_range 0 127 c then String c (utf8_decode 0 128 191 "" rest)
        else if in_range 194 223 c
        then utf8_decode 1 128 191 (String c "") rest
        else if in_range 224 239 c
        then utf8_decode 2 (if (nat_of_ascii c =? 224)%nat then 160 else 128)
                         (if (nat_of_ascii c =? 237)%nat then 159 else 191)
                         (String c "") rest
        else if in_range 240 244 c
        then utf8_decode 3 (if (nat_of_ascii c =? 240)%nat then 144 else 128)
                         (if (nat_of_ascii c =? 244)%nat then 143 else 191)
                         (String c "") rest
        else replacement ++ utf8_decode 0 128 191 "" rest in
      match needed with
      | 0 => start
      | S n =>
          if in_range lo hi c then
            match n with
            | 0 => String.rev (String c seen) ++ utf8_decode 0 128 191 "" rest
            | S _ => utf8_decode n 128 191 (String c seen) rest
            end
          else replacement ++ start
      end
  end.

(** The decoder drops a leading byte-order mark. *)
Definition demo_decode (b : string) : string :=
  utf8_decode 0 128 191 ""
    (if String.prefix BOM b then String.substring 3 (String.length b - 3) b
     else b).

Definition demo_platform : Platform :=
  {| clock := demo_clock;
     Date_parse := demo_Date_parse;
     toLocaleString := λ s, s;
     toLowerCase := demo_toLowerCase;
     getSignedUrl := λ key _, "https://bucket.s3.amazonaws.com/" ++ key;
     JSON_stringify := λ _, "{}";
     JSON_parse := λ _, None;
     TextEncoder_encode := demo_encode;
     TextDecoder_decode := demo_decode;
     TextDecoder_decode_empty := eq_refl |}.

Definition alice : User :=
  {| uid := "alice"; email := Some "alice@example.com";
     displayName := Some "Alice" |}.
Definition bob : User :=
  {| uid := "bob"; email := Some "bob@example.com";
     displayName := Some "Bob" |}.
Definition carol : User :=
  {| uid := "carol"; email := Some "carol@example.com";
     displayName := Some "Carol" |}.

(** [demo], owned by alice with bob as collaborator, and bob's private fork. *)
Definition demo_repo : Repository :=
  {| r_id := None; r_name := "demo"; r_description := "a demo";
     r_ownerId := "alice"; r_createdAt := "2024-04-01T09:00:00.000Z";
     r_updatedAt := "2024-04-01T09:00:00.000Z"; r_isPublic := false;
     r_collaborators := Some ["bob"]; r_forkedFrom := None |}.

Definition fork_repo : Repository :=
  {| r_id := None; r_name := "demo-fork"; r_description := "a demo";
     r_ownerId := "bob"; r_createdAt := "2024-04-02T09:00:00.000Z";
     r_updatedAt := "2024-04-02T09:00:00.000Z"; r_isPublic := false;
     r_collaborators := Some []; r_forkedFrom := Some "repo1" |}.

(** A pull request from the fork into [demo], opened by bob. *)
Definition demo_pr (status : PRStatus) (files : list string) : PullRequest :=
  {| pr_id := None; pr_title := "Update readme"; pr_description := "";
     pr_sourceRepoId := "fork1"; pr_sourceRepoName := "demo-fork";
     pr_targetRepoId := "repo1"; pr_targetRepoName := "demo";
     pr_targetOwnerId := "alice"; pr_status := status;
     pr_createdAt := "2024-04-03T09:00:00.000Z";
     pr_updatedAt := "2024-04-03T09:00:00.000Z";
     pr_createdBy := {| cb_id := "bob"; cb_name := "Bob";
                        cb_email := "bob@example.com" |};
     pr_changedFiles := Some files |}.

Definition text_object (content lastModified : string) : S3Object :=
  {| Body := Raw content; ContentType := "text/plain"; Metadata := [];
     LastModified := lastModified |}.

Definition demo_world (user : User) (objects : gmap string S3Object)
    (prs : gmap string PullRequest) : World :=
  {| initialized := true; currentUser := Some user; bucket := objects;
     repositories := <["repo1" := demo_repo]> (<["fork1" := fork_repo]> ∅);
     pullRequests := prs; notifications := []; ticks := 0 |}.

(** ** Scenarios *)

Section Scenarios.
#[local] Existing Instance demo_platform.

(** The property of a JSON record stored under a key. *)
Definition record_prop (key field : string) (w : World) : option jsval :=
  obj ← s3_get key w; doc ← parse_body (Body obj); Some (prop doc field).

Definition record_at (key : string) (w : World) : S3Object :=
  default (text_object "" "") (s3_get key w).

Definition doc_at (key : string) (w : World) : jobj :=
  default ∅ (parse_body (Body (record_at key w))).

(** The authors of the entries of a history listing. *)
Definition authors_of (r : Result (list jobj)) : list jsval :=
  match r with
  | Success commits => map (λ e, prop e "author") commits
  | Failure _ => []
  end.

(** The names of the entries of a file listing. *)
Definition names_of (r : Result (list FileInfo)) : list string :=
  match r with
  | Success files => map fi_name files
  | Failure _ => []
  end.

(** The content of a download, if it succeeded. *)
Definition content_of (r : Result (FileContent * list (string * string)))
    : option FileContent :=
  match r with
  | Success (content, _) => Some content
  | Failure _ => None
  end.

(** The statuses of the entries of a pending-request listing. *)
Definition statuses_of (r : Result (list jobj)) : list jsval :=
  match r with
  | Success requests => map (λ e, prop e "status") requests
  | Failure _ => []
  end.

(** Alice commits [readme.txt] into the empty [demo]. *)
Definition w_empty : World := demo_world alice ∅ ∅.
Definition T_init : string := demo_clock 0.
Definition w_committed : World :=
  (commitFileVersion "repo1" "readme.txt" "hello" "init" None w_empty).2.

(** Bob, a collaborator, submits a change of [readme.txt] for approval;
    alice signs in and decides. *)
Definition T_pending : string := demo_clock 0.
Definition w_pending : World :=
  (createPendingCommit "repo1" "readme.txt" "hello world" "update"
     (demo_world bob ∅ ∅)).2.
Definition w_owner : World := sign_in alice w_pending.
Definition w_approved : World :=
  (processPendingCommit "repo1" T_pending "readme.txt" true None w_owner).2.
Definition w_rejected : World :=
  (processPendingCommit "repo1" T_pending "readme.txt" false None w_owner).2.
Definition w_reapproved : World :=
  (processPendingCommit "repo1" T_pending "readme.txt" true None w_rejected).2.

(** Bob submits a second change, of [notes.md], after alice rejected the
    first one. *)
Definition w_two_requests : World :=
  (createPendingCommit "repo1" "notes.md" "todo" "notes"
     (sign_in bob w_rejected)).2.

(** The timestamps and statuses of the entries of a pending-request
    listing. *)
Definition requests_of (r : Result (list jobj)) : list (jsval * jsval) :=
  match r with
  | Success requests =>
      map (λ e, (prop e "timestamp", prop e "status")) requests
  | Failure _ => []
  end.

(** The fork and [demo] both hold [a.txt], last modified at different
    times. *)
Definition w_diff : World :=
  demo_world alice
    (<[fileKeyOf "fork1" "a.txt" := text_object "new" "2024-04-05T09:00:00.000Z"]>
      (<[fileKeyOf "repo1" "a.txt" := text_object "old" "2024-04-04T09:00:00.000Z"]>
        ∅))
    ∅.

(** A pull request listing a text file, a file the fork does not hold and
    a binary file. *)
Definition merge_files : list string := ["readme.txt"; "missing.txt"; "logo.png"].
Definition w_merge : World :=
  demo_world alice
    (<[fileKeyOf "fork1" "readme.txt" :=
         text_object "hello from the fork" "2024-04-05T09:00:00.000Z"]>
      (<[fileKeyOf "fork1" "logo.png" :=
           {| Body := Raw "PNG"; ContentType := "image/png"; Metadata := [];
              LastModified := "2024-04-05T09:00:01.000Z" |}]>
        (<[fileKeyOf "repo1" "readme.txt" :=
             text_object "hello" "2024-04-04T09:00:00.000Z"]> ∅)))
    {["pr1" := demo_pr open merge_files]}.

(** The same pull request in a given state, seen by a given caller. *)
Definition w_pr (caller : User) (status : PRStatus) : World :=
  demo_world caller ∅ {["pr1" := demo_pr status merge_files]}.

(** Alice commits a text that starts with a byte-order mark. *)
Definition w_marked : World :=
  (commitFileVersion "repo1" "readme.txt" (BOM ++ "hello") "init" None
     w_empty).2.

(** Alice commits a text that holds a lone surrogate. *)
Definition w_surrogate : World :=
  (commitFileVersion "repo1" "readme.txt" ("a" ++ lone_surrogate ++ "b") "init"
     None w_empty).2.

(** Alice commits a text that starts with two byte-order marks, and
    restores that version. *)
Definition w_two_marks : World :=
  (commitFileVersion "repo1" "readme.txt" (BOM ++ BOM ++ "x") "init" None
     w_empty).2.
Definition w_two_marks_restored : World :=
  (restoreFileVersion "repo1" "readme.txt" T_init None w_two_marks).2.

(** Bob submits a text that starts with a byte-order mark, and alice
    approves it. *)
Definition w_marked_pending : World :=
  sign_in alice
    (createPendingCommit "repo1" "readme.txt" (BOM ++ "hi") "update"
       (demo_world bob ∅ ∅)).2.
Definition w_marked_approved : World :=
  (processPendingCommit "repo1" T_pending "readme.txt" true None
     w_marked_pending).2.

(** The fork holds two text files: [notes.txt] in Latin-1, its last byte
    [E9], and [marked.txt] in UTF-8 with a byte-order mark. *)
Definition latin1_cafe : string := "caf" ++ String (ascii_of_nat 233) "".
Definition text_files : list string := ["notes.txt"; "marked.txt"].
Definition w_text_merge : World :=
  demo_world alice
    (<[fileKeyOf "fork1" "notes.txt" :=
         text_object latin1_cafe "2024-04-05T09:00:00.000Z"]>
      (<[fileKeyOf "fork1" "marked.txt" :=
           text_object (BOM ++ "hi") "2024-04-05T09:00:01.000Z"]> ∅))
    {["pr1" := demo_pr open text_files]}.

(** The bytes stored under a key. *)
Definition bytes_at (key : string) (w : World) : option string :=
  obj ← s3_get key w; Some (body_bytes (Body obj)).

(** A thousand instants of 2023, a millisecond apart. *)
Definition three_digits (n : nat) : string :=
  String.substring 1 3 (pretty (1000 + n)).
Definition old_timestamp (n : nat) : string :=
  "2023-01-01T00:00:00." ++ three_digits n ++ "Z".

(** [readme.txt] of [demo] has [n] commit records of 2023; alice commits
    it once more. *)
Definition old_commits (n : nat) : gmap string S3Object :=
  foldr (λ i b,
           <[commitKeyOf "repo1" "readme.txt" (old_timestamp i) :=
               {| Body := Json (commitData "edit" (old_timestamp i) alice None);
                  ContentType := "application/json"; Metadata := [];
                  LastModified := old_timestamp i |}]> b)
        ∅ (seq 0 n).
Definition w_crowded : World := demo_world alice (old_commits MaxKeys) ∅.
Definition w_crowded_committed : World :=
  (commitFileVersion "repo1" "readme.txt" "hello" "latest" None w_crowded).2.

(** [demo] has [n] pending requests of 2023; bob submits one more and
    alice signs in. *)
Definition old_requests (n : nat) : gmap string S3Object :=
  foldr (λ i b,
           <[pendingMetaKeyOf "repo1" "readme.txt" (old_timestamp i) :=
               {| Body := Json (pendingCommitData "edit" (old_timestamp i)
                                  "readme.txt" bob);
                  ContentType := "application/json"; Metadata := [];
                  LastModified := old_timestamp i |}]> b)
        ∅ (seq 0 n).
Definition w_many_requests : World :=
  sign_in alice
    (createPendingCommit "repo1" "readme.txt" "hello world" "update"
       (demo_world bob (old_requests MaxKeys) ∅)).2.

(** Does a listing hold an entry with the timestamp? *)
Definition lists_timestamp (t : string) (r : Result (list jobj)) : bool :=
  match r with
  | Success entries =>
      existsb (λ e, bool_decide (prop e "timestamp" = JStr t)) entries
  | Failure _ => false
  end.

(** The number of entries of a listing. *)
Definition entries_of {A} (r : Result (list A)) : nat :=
  match r with
  | Success entries => length entries
  | Failure _ => 0
  end.

End Scenarios.

(** * The rest of the service layer *)

Definition set_repositories (r : gmap string Repository) (w : World) : World :=
  {| initialized := initialized w; currentUser := currentUser w;
     bucket := bucket w; repositories := r;
     pullRequests := pullRequests w; notifications := notifications w;
     ticks := ticks w |}.

Definition historyPrefix (repoId fileName : string) : string :=
  "repositories/" ++ repoId ++ "/history/" ++ fileName ++ "/".

(** [metadata.Metadata?.[k] || '']: an absent key reads as the empty
    string. *)
Fixpoint metadata_get (k : string) (md : list (string * string)) : string :=
  match md with
  | [] => ""
  | (k', v) :: md' => if String.eqb k' k then v else metadata_get k md'
  end.

(** One entry of the listing of [listFileCommits]. *)
Record FileCommit := {
  fc_key : string;
  fc_timestamp : string;
  fc_size : nat;
  fc_lastModified : string;
  fc_commitMessage : string;
  fc_userId : string;
  fc_userEmail : string;
  fc_previousVersion : string
}.

(** [{ success, filesCopied?, error? }] of [copyRepositoryFiles]: the
    error is a warning when [success] is [true]. *)
Record CopyResult := {
  cr_success : bool;
  cr_filesCopied : option nat;
  cr_error : option string
}.

(** Order of the documents of a query: by document id. *)
Definition doc_le {A} (a b : string * A) : Prop := String.leb a.1 b.1 = true.

#[global] Instance doc_le_dec {A} : RelDecision (@doc_le A).
Proof. intros a b. unfold doc_le. apply _. Defined.

(** [{ ...newRepository, id: docRef.id }] *)
Definition with_id (id : string) (d : Repository) : Repository :=
  {| r_id := Some id; r_name := r_name d; r_description := r_description d;
     r_ownerId := r_ownerId d; r_createdAt := r_createdAt d;
     r_updatedAt := r_updatedAt d; r_isPublic := r_isPublic d;
     r_collaborators := r_collaborators d; r_forkedFrom := r_forkedFrom d |}.

(** [Partial<Repository>]: the fields an update names. *)
Record RepositoryUpdates := {
  up_id : option string;
  up_name : option string;
  up_description : option string;
  up_ownerId : option string;
  up_createdAt : option string;
  up_updatedAt : option string;
  up_isPublic : option bool;
  up_collaborators : option (list string);
  up_forkedFrom : option string
}.

(** [ACCESS_REQUEST_STATUS] *)
Definition ACCESS_REQUEST_PENDING : string := "pending".
Definition ACCESS_REQUEST_APPROVED : string := "approved".
Definition ACCESS_REQUEST_DENIED : string := "denied".

(** A document of the [accessRequests] collection. *)
Record AccessRequest := {
  ar_repositoryId : string;
  ar_repositoryName : string;
  ar_ownerId : string;
  ar_requesterId : string;
  ar_requesterEmail : option string;
  ar_requesterName : string;
  ar_status : string;
  ar_createdAt : string;
  ar_updatedAt : string
}.

(** The world together with the [accessRequests] collection. *)
Record Store := {
  world : World;
  accessRequests : gmap string AccessRequest
}.

(** [s.split('@')[0]] *)
Fixpoint before_at (s : string) : string :=
  match s with
  | EmptyString => EmptyString
  | String c s' =>
      if Ascii.eqb c "@"%char then EmptyString else String c (before_at s')
  end.

Section MoreServices.
Context `{!Platform}.

(** *** s3Service: delete, copy, history listing *)

(** [DeleteObjectCommand]: succeeds whether or not the key is there. *)
Definition s3_delete (key : string) (w : World) : World :=
  set_bucket (delete key (bucket w)) (ticks w) w.

Definition deleteFileFromS3 (repoId fileName : string) (w : World)
    : Result unit * World :=
  if negb (initialized w) then (Failure not_configured, w) else
  let key := fileKeyOf repoId fileName in
  (Success (), s3_delete key w).

(** One turn of the loop of [copyRepositoryFiles]: the entry pushed on
    [errorFiles], if any, and the world after it. *)
Definition copyFile (sourceRepoId targetRepoId : string) (file : FileInfo)
    (w : World) : option string * World :=
  match downloadFileFromS3 sourceRepoId (fi_name file) w with
  | Failure _ => (Some (fi_name file ++ " (download failed)"), w)
  | Success (content, _) =>
      if negb (content_truthy content)
      then (Some (fi_name file ++ " (download failed)"), w) else
      let '(uploadResult, w) :=
        uploadFileToS3 targetRepoId (fi_name file) content
                       (fi_contentType file) w in
      match uploadResult with
      | Failure _ => (Some (fi_name file ++ " (upload failed)"), w)
      | Success _ => (None, w)
      end
  end.

Fixpoint copyFiles (sourceRepoId targetRepoId : string) (files : list FileInfo)
    (successCount : nat) (errorFiles : list string) (w : World)
    : nat * list string * World :=
  match files with
  | [] => (successCount, errorFiles, w)
  | file :: rest =>
      let '(failed, w) := copyFile sourceRepoId targetRepoId file w in
      match failed with
      | Some entry =>
          copyFiles sourceRepoId targetRepoId rest successCount
                    (errorFiles ++ [entry])%list w
      | None =>
          copyFiles sourceRepoId targetRepoId rest (S successCount)
                    errorFiles w
      end
  end.

(** The warning of a copy that left files behind. *)
Definition copyError (errorFiles : list string) : option string :=
  match errorFiles with
  | [] => None
  | _ =>
      Some ("Failed to copy " ++ pretty (length errorFiles) ++ " files: " ++
            String.concat ", " (take 3 errorFiles) ++
            (if (3 <? length errorFiles)%nat then "..." else ""))
  end.

Definition copyRepositoryFiles (sourceRepoId targetRepoId : string) (w : World)
    : CopyResult * World :=
  if negb (initialized w)
  then ({| cr_success := false; cr_filesCopied := None;
           cr_error := Some not_configured |}, w) else
  match currentUser w with
  | None => ({| cr_success := false; cr_filesCopied := None;
                cr_error := Some not_authenticated |}, w)
  | Some _ =>
      match listRepositoryFiles sourceRepoId w with
      | Failure error =>
          ({| cr_success := true; cr_filesCopied := Some 0;
              cr_error :=
                if String.eqb error "" then None
                else Some ("Source repository files error: " ++ error) |}, w)
      | Success [] =>
          ({| cr_success := true; cr_filesCopied := Some 0;
              cr_error := None |}, w)
      | Success files =>
          let '(successCount, errorFiles, w) :=
            copyFiles sourceRepoId targetRepoId files 0 [] w in
          ({| cr_success := true; cr_filesCopied := Some successCount;
              cr_error := copyError errorFiles |}, w)
      end
  end.

(** One element of the [map] in [listFileCommits]; the metadata is that of
    the listed object, and the bucket reports [Size] and [LastModified]
    for every object it lists. *)
Definition file_commit (item : string * S3Object) : FileCommit :=
  {| fc_key := item.1;
     fc_timestamp := or_str (replace_first ".txt" "" (last_segment item.1)) "";
     fc_size := String.length (body_bytes (Body item.2));
     fc_lastModified := LastModified item.2;
     fc_commitMessage := metadata_get "commit-message" (Metadata item.2);
     fc_userId := metadata_get "user-id" (Metadata item.2);
     fc_userEmail := metadata_get "user-email" (Metadata item.2);
     fc_previousVersion := metadata_get "previous-version" (Metadata item.2) |}.

(** [new Date(c?.timestamp || 0).getTime()] *)
Definition commit_time (c : FileCommit) : option Z :=
  if String.eqb (fc_timestamp c) "" then Some 0%Z
  else Date_parse (fc_timestamp c).

Definition by_commit_time_desc (a b : FileCommit) : option Z :=
  tb ← commit_time b;
  ta ← commit_time a;
  Some (tb - ta)%Z.

Definition listFileCommits (repoId fileName : string) (w : World)
    : Result (list FileCommit) :=
  if negb (initialized w) then Failure not_configured else
  let contents := s3_list_delim (historyPrefix repoId fileName) w in
  match contents with
  | [] => Success []
  | _ => Success (Array_sort by_commit_time_desc (map file_commit contents))
  end.

(** *** notificationService: the unread count *)

(** [where("userId", "==", uid)] and [where("read", "==", false)] *)
Definition unread_for (u : string) (n : Notification) : bool :=
  bool_decide (n_userId n = JStr u) && negb (n_read n).

Definition getUnreadNotificationsCount (w : World) : Result nat :=
  match currentUser w with
  | None => Failure not_authenticated
  | Some currentUser =>
      Success (length (filter (λ n, unread_for (uid currentUser) n = true)
                              (notifications w)))
  end.

(** *** Firestore queries *)

(** [getDocs(query(collection, where(...), ...))] without [orderBy]: the
    matching documents, in the order of their ids. *)
Definition getDocs {A} (matches : A → bool) (coll : gmap string A)
    : list (string * A) :=
  merge_sort doc_le (filter (λ kv, matches kv.2 = true) (map_to_list coll)).

(** *** repositoryService: create, list, update, delete, fork *)

(** [where("ownerId", "==", uid), where("name", "==", name)] *)
Definition owned_and_named (owner name : string) (d : Repository) : bool :=
  String.eqb (r_ownerId d) owner && String.eqb (r_name d) name.

(** [docId] is the id [addDoc] generates for the new document. *)
Definition createRepository (name description : string) (isPublic : option bool)
    (docId : string) (w : World) : Result Repository * World :=
  let isPublic := default false isPublic in
  match currentUser w with
  | None => (Failure not_authenticated, w)
  | Some currentUser =>
      (* a repository of the same name, owned by the caller *)
      match getDocs (owned_and_named (uid currentUser) name) (repositories w) with
      | _ :: _ => (Failure "A repository with this name already exists", w)
      | [] =>
          let '(timestamp, w) := Date_now w in
          let newRepository :=
            {| r_id := None; r_name := name; r_description := description;
               r_ownerId := uid currentUser; r_createdAt := timestamp;
               r_updatedAt := timestamp; r_isPublic := isPublic;
               r_collaborators := Some []; r_forkedFrom := None |} in
          let w := set_repositories (<[docId := newRepository]> (repositories w)) w in
          (Success (with_id docId newRepository), w)
      end
  end.

(** [(a, b) => new Date(b.updatedAt).getTime() - new Date(a.updatedAt).getTime()] *)
Definition by_updatedAt_desc (a b : Repository) : option Z :=
  tb ← Date_parse (r_updatedAt b);
  ta ← Date_parse (r_updatedAt a);
  Some (tb - ta)%Z.

(** The [forEach] over the collaborator query: a document is pushed unless
    an entry already carries its id. *)
Definition push_unless_listed (repositories : list Repository)
    (doc : string * Repository) : list Repository :=
  if negb (existsb (λ repo, bool_decide (r_id repo = Some doc.1)) repositories)
  then (repositories ++ [repository_of_doc doc.1 doc.2])%list
  else repositories.

Definition getUserRepositories (w : World) : Result (list Repository) :=
  match currentUser w with
  | None => Failure not_authenticated
  | Some currentUser =>
      let ownerRepos :=
        getDocs (λ d, String.eqb (r_ownerId d) (uid currentUser))
                (repositories w) in
      let collaboratorRepos :=
        getDocs (λ d, is_collaborator d (uid currentUser)) (repositories w) in
      let repositories :=
        map (λ doc, repository_of_doc doc.1 doc.2) ownerRepos in
      let repositories := foldl push_unless_listed repositories collaboratorRepos in
      Success (Array_sort by_updatedAt_desc repositories)
  end.

(** [updateDoc(docRef, { ...updates, updatedAt })] on the stored document:
    a field the update names replaces the stored one. *)
Definition apply_updates (updates : RepositoryUpdates) (updatedAt : string)
    (d : Repository) : Repository :=
  {| r_id := match up_id updates with Some i => Some i | None => r_id d end;
     r_name := default (r_name d) (up_name updates);
     r_description := default (r_description d) (up_description updates);
     r_ownerId := default (r_ownerId d) (up_ownerId updates);
     r_createdAt := default (r_createdAt d) (up_createdAt updates);
     r_updatedAt := updatedAt;
     r_isPublic := default (r_isPublic d) (up_isPublic updates);
     r_collaborators :=
       match up_collaborators updates with
       | Some l => Some l
       | None => r_collaborators d
       end;
     r_forkedFrom :=
       match up_forkedFrom updates with
       | Some f => Some f
       | None => r_forkedFrom d
       end |}.

Definition updateRepository (id : string) (updates : RepositoryUpdates)
    (w : World) : Result unit * World :=
  match currentUser w with
  | None => (Failure not_authenticated, w)
  | Some currentUser =>
      (* the repository, to check ownership *)
      match getRepository id w with
      | Failure error => (Failure (or_str error "Repository not found"), w)
      | Success repository =>
          if negb (String.eqb (r_ownerId repository) (uid currentUser))
          then (Failure "Only the owner can update this repository", w) else
          let '(updatedAt, w) := Date_now w in
          (Success (),
           set_repositories (alter (apply_updates updates updatedAt) id
                                   (repositories w)) w)
      end
  end.

Definition getAllPublicRepositories (w : World) : Result (list Repository) :=
  let publicReposDocs := getDocs r_isPublic (repositories w) in
  let repositories :=
    map (λ doc, repository_of_doc doc.1 doc.2) publicReposDocs in
  Success (Array_sort by_updatedAt_desc repositories).

Definition deleteRepository (id : string) (w : World) : Result unit * World :=
  match currentUser w with
  | None => (Failure not_authenticated, w)
  | Some currentUser =>
      (* the repository, to check ownership *)
      match getRepository id w with
      | Failure error => (Failure (or_str error "Repository not found"), w)
      | Success repository =>
          if negb (String.eqb (r_ownerId repository) (uid currentUser))
          then (Failure "Only the owner can delete this repository", w) else
          (Success (), set_repositories (delete id (repositories w)) w)
      end
  end.

(** [docId] is the id [addDoc] generates for the fork. *)
Definition forkRepository (sourceRepoId : string) (newName : option string)
    (docId : string) (w : World) : Result Repository * World :=
  match currentUser w with
  | None => (Failure not_authenticated, w)
  | Some currentUser =>
      match getRepository sourceRepoId w with
      | Failure error =>
          (Failure (or_str error "Source repository not found"), w)
      | Success sourceRepo =>
          (* public, or the caller is the owner or a collaborator *)
          if negb (r_isPublic sourceRepo)
             && negb (String.eqb (r_ownerId sourceRepo) (uid currentUser))
             && negb (is_collaborator sourceRepo (uid currentUser))
          then (Failure "You do not have permission to fork this repository", w)
          else
          let repoName := or_opt newName (r_name sourceRepo ++ "-fork") in
          match getDocs (owned_and_named (uid currentUser) repoName)
                        (repositories w) with
          | _ :: _ =>
              (Failure "A repository with this name already exists in your account",
               w)
          | [] =>
              let '(timestamp, w) := Date_now w in
              let newRepository :=
                {| r_id := None; r_name := repoName;
                   r_description :=
                     "Fork of " ++ r_name sourceRepo ++
                     (if String.eqb (r_description sourceRepo) "" then ""
                      else ": " ++ r_description sourceRepo);
                   r_ownerId := uid currentUser; r_createdAt := timestamp;
                   r_updatedAt := timestamp; r_isPublic := false;
                   r_collaborators := Some [];
                   r_forkedFrom := Some sourceRepoId |} in
              let w := set_repositories
                         (<[docId := newRepository]> (repositories w)) w in
              (Success (with_id docId newRepository), w)
          end
      end
  end.

(** *** repositoryService: access requests *)

(** [currentUser.displayName || currentUser.email?.split('@')[0] || currentUser.uid] *)
Definition requesterName (u : User) : string :=
  or_opt (displayName u) (or_opt (before_at <$> email u) (uid u)).

(** [currentUser.displayName || currentUser.email] as a property value. *)
Definition displayName_or_email (u : User) : jsval :=
  match displayName u with
  | Some d => if String.eqb d "" then email_val u else JStr d
  | None => email_val u
  end.

Definition pending_request_of (repositoryId requester : string)
    (r : AccessRequest) : bool :=
  String.eqb (ar_repositoryId r) repositoryId
  && String.eqb (ar_requesterId r) requester
  && String.eqb (ar_status r) ACCESS_REQUEST_PENDING.

(** [docId] is the id [addDoc] generates for the request; a success may
    carry a warning. *)
Definition requestRepositoryAccess (repositoryId docId : string) (s : Store)
    : Result (option string) * Store :=
  let w := world s in
  match currentUser w with
  | None => (Failure not_authenticated, s)
  | Some currentUser =>
      match getRepository repositoryId w with
      | Failure error => (Failure (or_str error "Repository not found"), s)
      | Success repository =>
          if is_collaborator repository (uid currentUser)
          then (Failure "You already have access to this repository", s)
          else if String.eqb (r_ownerId repository) (uid currentUser)
          then (Failure "You are the owner of this repository", s)
          else
          match getDocs (pending_request_of repositoryId (uid currentUser))
                        (accessRequests s) with
          | _ :: _ =>
              (Failure "You already have a pending access request for this repository",
               s)
          | [] =>
              let '(timestamp, w) := Date_now w in
              let newAccessRequest :=
                {| ar_repositoryId := repositoryId;
                   ar_repositoryName := r_name repository;
                   ar_ownerId := r_ownerId repository;
                   ar_requesterId := uid currentUser;
                   ar_requesterEmail := email currentUser;
                   ar_requesterName := requesterName currentUser;
                   ar_status := ACCESS_REQUEST_PENDING;
                   ar_createdAt := timestamp; ar_updatedAt := timestamp |} in
              let requests := <[docId := newAccessRequest]> (accessRequests s) in
              (* a notification for the owner *)
              let '(notificationResult, w) :=
                createNotification (JStr (r_ownerId repository)) "access_request"
                  (or_opt (displayName currentUser)
                          (or_opt (email currentUser) "A user") ++
                   " has requested access to your repository: " ++
                   r_name repository)
                  (<["requesterId" := JStr (uid currentUser)]>
                    (<["requesterName" := displayName_or_email currentUser]>
                      (<["repositoryId" := JStr repositoryId]>
                        (<["repositoryName" := JStr (r_name repository)]>
                          (<["requestId" := JStr docId]> ∅)))))
                  w in
              let s := {| world := w; accessRequests := requests |} in
              match notificationResult with
              | Failure _ =>
                  (Success (Some "Access request created, but notification to owner failed. Please contact the owner directly."),
                   s)
              | Success _ => (Success None, s)
              end
          end
      end
  end.

(** [updateDoc(requestRef, { status, updatedAt })] *)
Definition with_request_status (status updatedAt : string) (r : AccessRequest)
    : AccessRequest :=
  {| ar_repositoryId := ar_repositoryId r;
     ar_repositoryName := ar_repositoryName r;
     ar_ownerId := ar_ownerId r; ar_requesterId := ar_requesterId r;
     ar_requesterEmail := ar_requesterEmail r;
     ar_requesterName := ar_requesterName r;
     ar_status := status; ar_createdAt := ar_createdAt r;
     ar_updatedAt := updatedAt |}.

(** [updateDoc(repoRef, { collaborators })] *)
Definition with_collaborators (l : list string) (d : Repository) : Repository :=
  {| r_id := r_id d; r_name := r_name d; r_description := r_description d;
     r_ownerId := r_ownerId d; r_createdAt := r_createdAt d;
     r_updatedAt := r_updatedAt d; r_isPublic := r_isPublic d;
     r_collaborators := Some l; r_forkedFrom := r_forkedFrom d |}.

Definition updateAccessRequest (requestId : string) (approve : bool) (s : Store)
    : Result unit * Store :=
  let w := world s in
  match currentUser w with
  | None => (Failure not_authenticated, s)
  | Some currentUser =>
      match accessRequests s !! requestId with
      | None => (Failure "Access request not found", s)
      | Some requestData =>
          (* the request is for a repository the caller owns *)
          if negb (String.eqb (ar_ownerId requestData) (uid currentUser))
          then (Failure "You do not have permission to update this access request",
                s)
          else
          let status :=
            if approve then ACCESS_REQUEST_APPROVED else ACCESS_REQUEST_DENIED in
          let '(updatedAt, w) := Date_now w in
          let requests :=
            alter (with_request_status status updatedAt) requestId
                  (accessRequests s) in
          (* approved: the requester becomes a collaborator *)
          let granted :=
            if approve then
              match repositories w !! ar_repositoryId requestData with
              | None => None
              | Some repoData =>
                  let collaborators := default [] (r_collaborators repoData) in
                  if negb (bool_decide (ar_requesterId requestData ∈ collaborators))
                  then
                    Some (set_repositories
                            (alter (with_collaborators
                                      (collaborators ++
                                       [ar_requesterId requestData])%list)
                                   (ar_repositoryId requestData)
                                   (repositories w)) w)
                  else Some w
              end
            else Some w in
          match granted with
          | None =>
              (Failure "Repository not found",
               {| world := w; accessRequests := requests |})
          | Some w =>
              (* a notification for the requester *)
              let w :=
                (createNotification (JStr (ar_requesterId requestData))
                   (if approve then "access_request_approved"
                    else "access_request_denied")
                   ("Your request to access the repository '" ++
                    ar_repositoryName requestData ++
                    (if approve then "' has been approved"
                     else "' has been denied"))
                   (<["repositoryId" := JStr (ar_repositoryId requestData)]>
                     (<["repositoryName" :=
                          JStr (ar_repositoryName requestData)]>
                       (<["ownerId" := JStr (ar_ownerId requestData)]> ∅)))
                   w).2 in
              (Success (), {| world := w; accessRequests := requests |})
          end
      end
  end.

(** *** pullRequestService: opening a pull request *)

(** [docId] is the id [addDoc] generates for the pull request.  The
    branch names, the constant ['main'] on both sides, are read by no
    service and are not part of the record. *)
Definition createPullRequest (title description sourceRepoId sourceRepoName
    targetRepoId targetRepoName targetOwnerId : string)
    (changedFiles : list string) (docId : string) (w : World)
    : Result PullRequest * World :=
  match currentUser w with
  | None => (Failure not_authenticated, w)
  | Some currentUser =>
      (* no changed files given: calculate them *)
      let filesToChange :=
        match changedFiles with
        | [] =>
            match getChangedFiles sourceRepoId targetRepoId w with
            | Success files => files
            | Failure _ => changedFiles
            end
        | _ => changedFiles
        end in
      let '(timestamp, w) := Date_now w in
      let newPullRequest :=
        {| pr_id := None; pr_title := title; pr_description := description;
           pr_sourceRepoId := sourceRepoId;
           pr_sourceRepoName := sourceRepoName;
           pr_targetRepoId := targetRepoId;
           pr_targetRepoName := targetRepoName;
           pr_targetOwnerId := targetOwnerId; pr_status := open;
           pr_createdAt := timestamp; pr_updatedAt := timestamp;
           pr_createdBy :=
             {| cb_id := uid currentUser;
                cb_name := or_opt (displayName currentUser) "Anonymous";
                cb_email := or_opt (email currentUser) "unknown" |};
           pr_changedFiles := Some filesToChange |} in
      let w := set_pullRequests (<[docId := newPullRequest]> (pullRequests w)) w in
      (* a notification for the owner of the target *)
      let w :=
        add_notification
          {| n_userId := JStr targetOwnerId; n_type := "pull_request_created";
             n_message := "New pull request: " ++ title;
             n_details :=
               <["pullRequestId" := JStr docId]>
                 (<["sourceRepoName" := JStr sourceRepoName]>
                   (<["targetRepoName" := JStr targetRepoName]> ∅));
             n_read := false; n_createdAt := timestamp;
             n_createdBy := None |} w in
      (Success (pullRequest_of_doc docId newPullRequest), w)
  end.

End MoreServices.

(** ** Vocabulary of the further statements *)

(** The content type [uploadFileToS3] stores. *)
Definition finalContentType `{!Platform} (contentType fileName : string) : string :=
  if String.eqb contentType "" || String.eqb contentType "text/plain"
  then (if isTextFile fileName then "text/plain" else "application/octet-stream")
  else contentType.

(** The repository holds the bytes as the current content of the file. *)
Definition holds `{!Platform} (repoId fileName bytes : string) (w : World) : Prop :=
  ∃ current, s3_get (fileKeyOf repoId fileName) w = Some current
             ∧ body_bytes (Body current) = bytes.

(** What the copy loop keeps: the session, the documents, and every blob
    outside the file folder of the target. *)
Definition copy_inv `{!Platform} (tgt : string) (u : User) (w0 w : World) : Prop :=
  initialized w = true ∧ currentUser w = Some u
  ∧ repositories w = repositories w0 ∧ pullRequests w = pullRequests w0
  ∧ notifications w = notifications w0
  ∧ ∀ k, String.prefix (filesPrefix tgt) k = false → s3_get k w = s3_get k w0.

(** The JSON record stored under a key. *)
Definition record_of `{!Platform} (key : string) (w : World) : option jobj :=
  obj ← s3_get key w; parse_body (Body obj).

(** Does the transfer loop of a merge accept the file? *)
Definition transfers `{!Platform} (repoId fileName : string) (w : World) : bool :=
  match getFileContent repoId fileName w with
  | Success (content, _) => content_truthy content
  | Failure _ => false
  end.

(** ** Further scenarios *)

(** The caller signs out. *)
Definition sign_out (w : World) : World :=
  {| initialized := initialized w; currentUser := None;
     bucket := bucket w; repositories := repositories w;
     pullRequests := pullRequests w; notifications := notifications w;
     ticks := ticks w |}.

Section MoreScenarios.
#[local] Existing Instance demo_platform.

(** Alice uploads [notes.md], and [docs/guide.md], into the empty [demo]. *)
Definition w_uploaded : World :=
  (uploadFileToS3 "repo1" "notes.md" (CString "todo") "" w_empty).2.
Definition w_nested : World :=
  (uploadFileToS3 "repo1" "docs/guide.md" (CString "read me") "" w_empty).2.

(** Alice commits [docs/guide.md] into the empty [demo]. *)
Definition w_nested_commit : World :=
  (commitFileVersion "repo1" ("docs" ++ "/" ++ "guide.md") "read me" "guide"
     None w_empty).2.

(** Alice commits [readme.txt] a second time. *)
Definition T_second : string := demo_clock 4.
Definition w_recommitted : World :=
  (commitFileVersion "repo1" "readme.txt" "hello again" "more" None
     w_committed).2.

(** The files of the fork are copied into the empty [copy1]. *)
Definition w_copied : World := (copyRepositoryFiles "fork1" "copy1" w_merge).2.

(** Bob submits an empty change of [readme.txt]; alice signs in. *)
Definition w_empty_pending : World :=
  sign_in alice
    (createPendingCommit "repo1" "readme.txt" "" "nothing"
       (demo_world bob ∅ ∅)).2.

(** Carol asks for access to [demo]; alice signs in. *)
Definition s_empty : Store :=
  {| world := demo_world carol ∅ ∅; accessRequests := ∅ |}.
Definition s_requested : Store :=
  (requestRepositoryAccess "repo1" "req1" s_empty).2.
Definition s_owner : Store :=
  {| world := sign_in alice (world s_requested);
     accessRequests := accessRequests s_requested |}.
Definition demo_request : AccessRequest :=
  {| ar_repositoryId := "repo1"; ar_repositoryName := "demo";
     ar_ownerId := "alice"; ar_requesterId := "carol";
     ar_requesterEmail := Some "carol@example.com";
     ar_requesterName := "Carol"; ar_status := ACCESS_REQUEST_PENDING;
     ar_createdAt := demo_clock 0; ar_updatedAt := demo_clock 0 |}.

(** The same request once [demo] has been deleted. *)
Definition s_orphan : Store :=
  {| world := (deleteRepository "repo1" (world s_owner)).2;
     accessRequests := accessRequests s_owner |}.

(** Alice renames [demo]. *)
Definition rename_demo : RepositoryUpdates :=
  {| up_id := None; up_name := Some "demo-renamed"; up_description := None;
     up_ownerId := None; up_createdAt := None; up_updatedAt := None;
     up_isPublic := None; up_collaborators := None; up_forkedFrom := None |}.

(** Carol opens a pull request from the fork into [demo], naming herself
    as the owner of the target. *)
Definition w_taken : World :=
  (createPullRequest "Take over" "" "fork1" "demo-fork" "repo1" "demo" "carol"
     ["readme.txt"] "pr2" (sign_in carol w_merge)).2.

End MoreScenarios.

(** * Properties *)

Section Properties.
Context `{!Platform}.

(** ** Strings and keys *)

Lemma prefix_app (p s : string) : String.prefix p (p ++ s) = true.
Proof.
  induction p as [|a p IH]; simpl.
  - by destruct s.
  - destruct (ascii_dec a a); [exact IH | congruence].
Qed.

(** Two keys of one repository that differ after the repository part. *)
Lemma repo_key_ne (repoId a b : string) :
  a ≠ b → "repositories/" ++ repoId ++ a ≠ "repositories/" ++ repoId ++ b.
Proof.
  intros Hne Heq. apply Hne.
  apply (String.app_inj "repositories/") in Heq.
  by apply (String.app_inj repoId) in Heq.
Qed.

Lemma fileKey_ne_versionKey repoId fileName folder f t ext c rest :
  folder = String c rest → c ≠ "f"%char →
  fileKeyOf repoId fileName ≠ versionKeyOf folder repoId f t ext.
Proof.
  intros -> Hc. unfold fileKeyOf, versionKeyOf.
  apply repo_key_ne. simpl. intros [=]. congruence.
Qed.

Lemma historyKey_ne_commitKey repoId f t f' t' :
  historyKeyOf repoId f t ≠ commitKeyOf repoId f' t'.
Proof. apply repo_key_ne. simpl. intros [=]. Qed.

Lemma append_cons (x : ascii) (a b : string) :
  String x a ++ b = String x (a ++ b).
Proof. reflexivity. Qed.

Lemma length_append (a b : string) :
  String.length (a ++ b) = String.length a + String.length b.
Proof.
  induction a as [|x a IH]; [done |].
  rewrite append_cons. simpl. by rewrite IH.
Qed.

Lemma append_inj_r (ext t t' : string) : t ++ ext = t' ++ ext → t = t'.
Proof.
  revert t'. induction t as [|a t IH]; intros [|a' t'] Heq.
  - done.
  - apply (f_equal String.length) in Heq.
    rewrite append_cons, !length_append in Heq. simpl in Heq.
    rewrite ?length_append in Heq. lia.
  - apply (f_equal String.length) in Heq.
    rewrite append_cons, !length_append in Heq. simpl in Heq.
    rewrite ?length_append in Heq. lia.
  - rewrite !append_cons in Heq. injection Heq as -> Heq.
    f_equal. by apply IH.
Qed.

Lemma versionKey_inj_timestamp folder repoId f ext t t' :
  versionKeyOf folder repoId f t ext = versionKeyOf folder repoId f t' ext →
  t = t'.
Proof.
  unfold versionKeyOf. intros Heq.
  repeat (apply String.app_inj in Heq).
  by apply append_inj_r in Heq.
Qed.

Lemma prefix_cancel (a p s : string) :
  String.prefix (a ++ p) (a ++ s) = String.prefix p s.
Proof.
  induction a as [|x a IH]; simpl; [done |].
  destruct (ascii_dec x x); [exact IH | congruence].
Qed.

Lemma commitKey_has_prefix repoId f t :
  String.prefix (commitsPrefix repoId f) (commitKeyOf repoId f t) = true.
Proof.
  unfold commitsPrefix, commitKeyOf, versionKeyOf.
  rewrite (prefix_cancel "repositories/"), (prefix_cancel repoId).
  change ("/" ++ "commits" ++ "/" ++ f ++ "/" ++ t ++ ".json")
    with ("/commits/" ++ f ++ "/" ++ t ++ ".json").
  rewrite (prefix_cancel "/commits/"), (prefix_cancel f).
  apply prefix_app.
Qed.

(** ** The bucket *)

Lemma elem_of_keys_below pfx w k o :
  (k, o) ∈ keys_below pfx w
  ↔ bucket w !! k = Some o ∧ String.prefix pfx k = true.
Proof.
  unfold keys_below. rewrite merge_sort_Permutation.
  rewrite list_elem_of_filter, elem_of_map_to_list. simpl. tauto.
Qed.

(** What a listing returns is in the bucket, below the prefix. *)
Lemma elem_of_s3_list pfx w k o :
  (k, o) ∈ s3_list pfx w →
  bucket w !! k = Some o ∧ String.prefix pfx k = true.
Proof.
  intros Hin. apply elem_of_keys_below. revert Hin. apply subseteq_take.
Qed.

(** A listing that fits one page returns all the keys below the prefix. *)
Lemma s3_list_fits pfx w :
  fits_one_page pfx w → s3_list pfx w = keys_below pfx w.
Proof.
  unfold fits_one_page, s3_list. intros Hfits.
  apply take_ge. by apply Nat.leb_le.
Qed.

Lemma elem_of_s3_list_fits pfx w k o :
  fits_one_page pfx w →
  bucket w !! k = Some o → String.prefix pfx k = true →
  (k, o) ∈ s3_list pfx w.
Proof.
  intros Hfits Hget Hpfx. rewrite (s3_list_fits _ _ Hfits).
  by apply elem_of_keys_below.
Qed.

(** With a delimiter: what is returned has no slash behind the prefix,
    and a listing that fits one page returns all such keys. *)
Lemma up_to_slash_None s : up_to_slash s = None ↔ has_slash s = false.
Proof.
  induction s as [|c s IH]; simpl; [done |].
  destruct (Ascii.eqb c slash); simpl; [done |].
  rewrite <- IH. by destruct (up_to_slash s).
Qed.

Lemma elem_of_page_delim pfx room rolled keys kv :
  kv ∈ page_delim pfx room rolled keys →
  kv ∈ keys ∧ up_to_slash (rest_of_key pfx kv.1) = None.
Proof.
  revert room rolled.
  induction keys as [|kv' keys IH]; intros room rolled; simpl.
  { by intros ?%elem_of_nil. }
  destruct (up_to_slash (rest_of_key pfx kv'.1)) as [cp|] eqn:Hcp.
  - case_bool_decide.
    + intros [? ?]%IH. split; [by right | done].
    + destruct room as [|room]; [by intros ?%elem_of_nil |].
      intros [? ?]%IH. split; [by right | done].
  - destruct room as [|room]; [by intros ?%elem_of_nil |].
    intros [-> | [? ?]%IH]%elem_of_cons.
    + split; [by left | done].
    + split; [by right | done].
Qed.

Lemma page_delim_fits pfx room rolled keys :
  (length keys ≤ room)%nat →
  page_delim pfx room rolled keys
  = filter (λ kv, up_to_slash (rest_of_key pfx kv.1) = None) keys.
Proof.
  revert room rolled.
  induction keys as [|kv keys IH]; intros room rolled Hlen; simpl; [done |].
  simpl in Hlen. rewrite filter_cons.
  destruct (up_to_slash (rest_of_key pfx kv.1)) as [cp|] eqn:Hcp.
  - rewrite decide_False by done.
    case_bool_decide.
    + apply IH. lia.
    + destruct room as [|room]; [lia |]. apply IH. lia.
  - rewrite decide_True by done.
    destruct room as [|room]; [lia |]. f_equal. apply IH. lia.
Qed.

Lemma elem_of_s3_list_delim pfx w k o :
  (k, o) ∈ s3_list_delim pfx w →
  bucket w !! k = Some o ∧ String.prefix pfx k = true
  ∧ has_slash (rest_of_key pfx k) = false.
Proof.
  intros [Hin Hno]%elem_of_page_delim.
  apply elem_of_keys_below in Hin as [? ?].
  by apply up_to_slash_None in Hno.
Qed.

Lemma elem_of_s3_list_delim_fits pfx w k o :
  fits_one_page pfx w →
  bucket w !! k = Some o → String.prefix pfx k = true →
  has_slash (rest_of_key pfx k) = false →
  (k, o) ∈ s3_list_delim pfx w.
Proof.
  intros Hfits Hget Hpfx Hno. unfold s3_list_delim.
  rewrite page_delim_fits by (by apply Nat.leb_le).
  apply list_elem_of_filter. split.
  - by apply up_to_slash_None.
  - by apply elem_of_keys_below.
Qed.

(** Listings depend on the keys below the prefix only. *)
#[local] Instance key_le_trans : Transitive key_le.
Proof.
  intros a b c Hab Hbc. unfold key_le in *.
  pose proof (@transitivity _ String.le _ a.1 b.1 c.1) as Ht.
  unfold String.le in Ht. apply Is_true_true. apply Ht; by apply Is_true_true.
Qed.

#[local] Instance key_le_total : Total key_le.
Proof.
  intros a b. unfold key_le.
  destruct (String.leb_total a.1 b.1) as [-> | ->]; auto.
Qed.

Lemma keys_below_sorted pfx w : StronglySorted key_le (keys_below pfx w).
Proof. unfold keys_below. apply StronglySorted_merge_sort; apply _. Qed.

Lemma keys_below_NoDup pfx w : NoDup (keys_below pfx w).
Proof.
  unfold keys_below. rewrite merge_sort_Permutation.
  apply NoDup_filter, NoDup_map_to_list.
Qed.

Lemma keys_below_ext pfx w w' :
  (∀ k, String.prefix pfx k = true → s3_get k w' = s3_get k w) →
  keys_below pfx w' = keys_below pfx w.
Proof.
  intros Hext.
  apply (StronglySorted_unique_strong key_le).
  - intros [k1 o1] [k2 o2] H1 H2 Hle1 Hle2.
    apply elem_of_keys_below in H1 as [H1 Hp1].
    apply elem_of_keys_below in H2 as [H2 Hp2].
    unfold key_le in *. simpl in *.
    assert (k1 = k2) as -> by by apply String.leb_antisym.
    fold (s3_get k2 w') in H1. rewrite Hext in H1 by done.
    unfold s3_get in H1. congruence.
  - apply keys_below_sorted.
  - apply keys_below_sorted.
  - apply NoDup_Permutation; [apply keys_below_NoDup | apply keys_below_NoDup |].
    intros [k o]. rewrite !elem_of_keys_below.
    split; intros [Hk Hp]; split; try done.
    + fold (s3_get k w). by rewrite <- Hext.
    + fold (s3_get k w'). by rewrite Hext.
Qed.

Lemma s3_list_ext pfx w w' :
  (∀ k, String.prefix pfx k = true → s3_get k w' = s3_get k w) →
  s3_list pfx w' = s3_list pfx w.
Proof. intros Hext. unfold s3_list. by rewrite (keys_below_ext _ _ _ Hext). Qed.

Lemma s3_list_delim_ext pfx w w' :
  (∀ k, String.prefix pfx k = true → s3_get k w' = s3_get k w) →
  s3_list_delim pfx w' = s3_list_delim pfx w.
Proof.
  intros Hext. unfold s3_list_delim. by rewrite (keys_below_ext _ _ _ Hext).
Qed.

(** The size of the page depends on which keys there are below the
    prefix, not on what they hold. *)
Lemma keys_below_length pfx w w' :
  (∀ k, String.prefix pfx k = true →
        is_Some (s3_get k w') ↔ is_Some (s3_get k w)) →
  length (keys_below pfx w') = length (keys_below pfx w).
Proof.
  intros Hsame.
  assert (Hnodup : ∀ x, NoDup (keys_below pfx x).*1).
  { intros x. apply NoDup_fmap_fst; [| apply keys_below_NoDup].
    intros k o1 o2 [H1 _]%elem_of_keys_below [H2 _]%elem_of_keys_below.
    congruence. }
  assert (Hstep : ∀ x y,
            (∀ k, String.prefix pfx k = true →
                  is_Some (s3_get k x) → is_Some (s3_get k y)) →
            ∀ k, k ∈ (keys_below pfx x).*1 → k ∈ (keys_below pfx y).*1).
  { intros x y Hxy k ([k' o] & -> & [Hget Hp]%elem_of_keys_below)%list_elem_of_fmap.
    simpl. destruct (Hxy k' Hp) as [o' Ho']; [by exists o |].
    apply list_elem_of_fmap. exists (k', o'). split; [done |].
    by apply elem_of_keys_below. }
  rewrite <- (length_fmap fst (keys_below pfx w')),
          <- (length_fmap fst (keys_below pfx w)).
  apply Permutation_length, NoDup_Permutation; [done | done |].
  intros k. split; apply Hstep; intros k' Hp; by apply Hsame.
Qed.

Lemma fits_one_page_same_keys pfx w w' :
  (∀ k, String.prefix pfx k = true →
        is_Some (s3_get k w') ↔ is_Some (s3_get k w)) →
  fits_one_page pfx w → fits_one_page pfx w'.
Proof.
  intros Hsame. unfold fits_one_page.
  by rewrite (keys_below_length _ _ _ Hsame).
Qed.

Lemma s3_get_put_eq k b ct md w :
  s3_get k (s3_put k b ct md w)
  = Some {| Body := b; ContentType := ct; Metadata := md;
            LastModified := clock (ticks w) |}.
Proof. unfold s3_get, s3_put. simpl. apply lookup_insert_eq. Qed.

Lemma s3_get_bucket k w w' : bucket w = bucket w' → s3_get k w = s3_get k w'.
Proof. unfold s3_get. by intros ->. Qed.

Lemma s3_get_put_ne k k' b ct md w :
  k ≠ k' → s3_get k' (s3_put k b ct md w) = s3_get k' w.
Proof. intros Hne. unfold s3_get, s3_put. simpl. by apply lookup_insert_ne. Qed.

(** ** Sorting *)

Lemma sort_insert_Permutation {A} (cmp : A → A → option Z) x l :
  sort_insert cmp x l ≡ₚ x :: l.
Proof.
  induction l as [|y l IH]; simpl; [done |].
  destruct (goes_after cmp x y); [| done].
  rewrite IH. apply Permutation_swap.
Qed.

Lemma Array_sort_Permutation {A} (cmp : A → A → option Z) l :
  Array_sort cmp l ≡ₚ l.
Proof.
  induction l as [|x l IH]; simpl; [done |].
  by rewrite sort_insert_Permutation, IH.
Qed.

Lemma elem_of_Array_sort {A} (cmp : A → A → option Z) x l :
  x ∈ Array_sort cmp l ↔ x ∈ l.
Proof. by rewrite Array_sort_Permutation. Qed.

(** ** Commit, history and version *)

Lemma commitData_timestamp msg t u prev :
  prop (commitData msg t u prev) "timestamp" = JStr t.
Proof.
  unfold prop, commitData. destruct prev; by simplify_map_eq.
Qed.

Lemma commitData_message msg t u prev :
  prop (commitData msg t u prev) "message" = JStr msg.
Proof.
  unfold prop, commitData. destruct prev; by simplify_map_eq.
Qed.

Lemma commitData_author msg t u prev :
  prop (commitData msg t u prev) "author" = JStr (author_of u).
Proof.
  unfold prop, commitData. destruct prev; by simplify_map_eq.
Qed.

(** What a successful commit leaves behind. *)
Lemma commitFileVersion_success repoId fileName fileContent msg prev w T w' :
  commitFileVersion repoId fileName fileContent msg prev w = (Success T, w') →
  ∃ u, initialized w = true ∧ currentUser w = Some u ∧ T = clock (ticks w) ∧
    initialized w' = true ∧
    s3_get (historyKeyOf repoId fileName T) w'
      = Some {| Body := Raw (TextEncoder_encode fileContent);
                ContentType := "text/plain";
                Metadata := [("user-id", uid u);
                             ("user-email", or_opt (email u) "");
                             ("commit-message", msg);
                             ("timestamp", T);
                             ("previous-version", or_opt prev "")];
                LastModified := clock (S (S (ticks w))) |} ∧
    s3_get (commitKeyOf repoId fileName T) w'
      = Some {| Body := Json (commitData msg T u prev);
                ContentType := "application/json"; Metadata := [];
                LastModified := clock (S (S (S (ticks w)))) |} ∧
    s3_get (fileKeyOf repoId fileName) w'
      = Some {| Body := Raw (TextEncoder_encode fileContent);
                ContentType := "text/plain";
                Metadata := [("user-id", uid u);
                             ("user-email", or_opt (email u) "");
                             ("uploaded-at", T);
                             ("original-filename", fileName)];
                LastModified := clock (S (ticks w)) |} ∧
    ∀ k, k ≠ fileKeyOf repoId fileName →
         k ≠ historyKeyOf repoId fileName T →
         k ≠ commitKeyOf repoId fileName T →
         s3_get k w' = s3_get k w.
Proof.
  unfold commitFileVersion.
  destruct (initialized w) eqn:Hinit; [| discriminate]. simpl.
  destruct (currentUser w) as [u|] eqn:Hu; [| discriminate].
  intros [= <- <-]. exists u. repeat split; try done.
  - rewrite s3_get_put_ne by (symmetry; apply historyKey_ne_commitKey).
    by rewrite s3_get_put_eq.
  - by rewrite s3_get_put_eq.
  - rewrite s3_get_put_ne
      by (intros E; symmetry in E; revert E;
          by eapply fileKey_ne_versionKey).
    rewrite s3_get_put_ne
      by (intros E; symmetry in E; revert E;
          by eapply fileKey_ne_versionKey).
    by rewrite s3_get_put_eq.
  - intros k Hf Hh Hc.
    rewrite !s3_get_put_ne by done. done.
Qed.

(** The commit shows in the history listing, when the listing fits one
    page. *)
Lemma commitFileVersion_listed repoId fileName fileContent msg prev w T w' :
  commitFileVersion repoId fileName fileContent msg prev w = (Success T, w') →
  fits_one_page (commitsPrefix repoId fileName) w' →
  ∃ commits entry,
    getFileCommitHistory repoId fileName w' = Success commits
    ∧ entry ∈ commits
    ∧ prop entry "timestamp" = JStr T
    ∧ prop entry "message" = JStr msg.
Proof.
  intros Hc Hfits.
  destruct (commitFileVersion_success _ _ _ _ _ _ _ _ Hc)
    as (u & _ & _ & _ & Hinit & _ & Hcommit & _).
  set (obj := {| Body := Json (commitData msg T u prev);
                 ContentType := "application/json"; Metadata := [];
                 LastModified := _ |}) in Hcommit.
  set (entry := <["id" := JStr (or_str (replace_first ".json" ""
                   (last_segment (commitKeyOf repoId fileName T))) "")]>
                (commitData msg T u prev)).
  assert (Hin : (commitKeyOf repoId fileName T, obj)
                ∈ s3_list (commitsPrefix repoId fileName) w').
  { apply elem_of_s3_list_fits; [done | exact Hcommit |].
    apply commitKey_has_prefix. }
  assert (Hentry : entry ∈ omap commit_entry
                     (s3_list (commitsPrefix repoId fileName) w')).
  { apply list_elem_of_omap. eexists; split; [exact Hin |]. done. }
  unfold getFileCommitHistory. rewrite Hinit. simpl.
  destruct (s3_list (commitsPrefix repoId fileName) w') as [|item items] eqn:Hl.
  { by apply elem_of_nil in Hin. }
  eexists _, entry. split; [reflexivity |]. split.
  { by apply elem_of_Array_sort. }
  unfold entry, prop. rewrite !lookup_insert_ne by done.
  split; [apply commitData_timestamp | apply commitData_message].
Qed.

(** The committed content reads back from the history folder, encoded
    and decoded. *)
Lemma commitFileVersion_version repoId fileName fileContent msg prev w T w' :
  commitFileVersion repoId fileName fileContent msg prev w = (Success T, w') →
  getFileVersion repoId fileName T false w'
  = Success (TextDecoder_decode (TextEncoder_encode fileContent)).
Proof.
  intros Hc.
  destruct (commitFileVersion_success _ _ _ _ _ _ _ _ Hc)
    as (u & _ & _ & _ & Hinit & Hhist & _).
  unfold getFileVersion. rewrite Hinit. simpl.
  fold (historyKeyOf repoId fileName T). by rewrite Hhist.
Qed.

(** C1, as the code has it: after a successful commit returning [T] the
    bucket holds the commit record of [T], carrying the timestamp [T] and
    the commit message, below the commits prefix of the file; the history
    listing of the file holds an entry with that timestamp and message
    when the commit records of the file fit the one page a listing
    returns; and the version at [T] read from the history folder is the
    committed content encoded and decoded: the committed content itself
    whenever encoding and decoding gives it back. *)
Theorem commit_then_history_and_version
    (w w' : World) (repoId fileName fileContent commitMessage T : string)
    (previous : option string) :
  commitFileVersion repoId fileName fileContent commitMessage previous w
    = (Success T, w') →
  (∃ record doc,
      s3_get (commitKeyOf repoId fileName T) w' = Some record
      ∧ String.prefix (commitsPrefix repoId fileName)
                      (commitKeyOf repoId fileName T) = true
      ∧ parse_body (Body record) = Some doc
      ∧ prop doc "timestamp" = JStr T
      ∧ prop doc "message" = JStr commitMessage)
  ∧ (fits_one_page (commitsPrefix repoId fileName) w' →
     ∃ commits entry,
       getFileCommitHistory repoId fileName w' = Success commits
       ∧ entry ∈ commits
       ∧ prop entry "timestamp" = JStr T
       ∧ prop entry "message" = JStr commitMessage)
  ∧ getFileVersion repoId fileName T false w'
    = Success (TextDecoder_decode (TextEncoder_encode fileContent))
  ∧ (TextDecoder_decode (TextEncoder_encode fileContent) = fileContent →
     getFileVersion repoId fileName T false w' = Success fileContent).
Proof.
  intros Hc. split_and!.
  - destruct (commitFileVersion_success _ _ _ _ _ _ _ _ Hc)
      as (u & _ & _ & _ & _ & _ & Hcommit & _).
    eexists _, _. split; [exact Hcommit |].
    split; [apply commitKey_has_prefix |]. split; [reflexivity |].
    split; [apply commitData_timestamp | apply commitData_message].
  - intros Hfits. by eapply commitFileVersion_listed.
  - by eapply commitFileVersion_version.
  - intros Hround. rewrite <- Hround. by eapply commitFileVersion_version.
Qed.

(** ** Restore *)

(** A successful restore read the version at [T] and committed it. *)
Lemma restoreFileVersion_success repoId fileName T msg w w' :
  restoreFileVersion repoId fileName T msg w = (Success (), w') →
  ∃ content,
    getFileVersion repoId fileName T false w = Success content ∧
    commitFileVersion repoId fileName content
      (default "Restored previous version" msg ++ " (from " ++
       toLocaleString T ++ ")") None w
    = (Success (clock (ticks w)), w').
Proof.
  unfold restoreFileVersion.
  destruct (initialized w) eqn:Hinit; [| discriminate]. simpl.
  destruct (currentUser w) as [u|] eqn:Hu; [| discriminate].
  destruct (getFileVersion repoId fileName T false w) as [content|] eqn:Hv;
    [| discriminate].
  destruct (String.eqb content ""); [discriminate |].
  destruct (commitFileVersion _ _ _ _ _ _) as [[T'|] w1] eqn:Hc;
    [| discriminate].
  intros [= <-]. exists content. split; [done |].
  destruct (commitFileVersion_success _ _ _ _ _ _ _ _ Hc)
    as (_ & _ & _ & -> & _). done.
Qed.

(** C8, as the code has it: a successful restore of the version at [T]
    is a commit of its content under the new timestamp, the clock reading
    of the restore, which differs from [T]: the version at the new
    timestamp is the content of the version at [T] encoded and decoded once
    more, the same content whenever encoding and decoding gives it back;
    the version, the history snapshot and the commit metadata at [T] are
    what they were; and the new commit shows in the history listing when
    the commit records of the file fit the one page a listing returns. *)
Theorem restore_is_a_new_commit
    (w w' : World) (repoId fileName T : string) (commitMessage : option string) :
  restoreFileVersion repoId fileName T commitMessage w = (Success (), w') →
  clock (ticks w) ≠ T →
  ∃ content,
    getFileVersion repoId fileName T false w = Success content
    ∧ commitFileVersion repoId fileName content
        (default "Restored previous version" commitMessage ++ " (from " ++
         toLocaleString T ++ ")") None w
      = (Success (clock (ticks w)), w')
    ∧ getFileVersion repoId fileName (clock (ticks w)) false w'
      = Success (TextDecoder_decode (TextEncoder_encode content))
    ∧ (TextDecoder_decode (TextEncoder_encode content) = content →
       getFileVersion repoId fileName (clock (ticks w)) false w'
       = Success content)
    ∧ getFileVersion repoId fileName T false w' = Success content
    ∧ s3_get (historyKeyOf repoId fileName T) w'
      = s3_get (historyKeyOf repoId fileName T) w
    ∧ s3_get (commitKeyOf repoId fileName T) w'
      = s3_get (commitKeyOf repoId fileName T) w
    ∧ (fits_one_page (commitsPrefix repoId fileName) w' →
       ∃ commits entry,
         getFileCommitHistory repoId fileName w' = Success commits
         ∧ entry ∈ commits
         ∧ prop entry "timestamp" = JStr (clock (ticks w))).
Proof.
  intros Hr Hnew.
  destruct (restoreFileVersion_success _ _ _ _ _ _ Hr) as (content & Hv & Hc).
  destruct (commitFileVersion_success _ _ _ _ _ _ _ _ Hc)
    as (u & Hinit & _ & _ & Hinit' & _ & _ & _ & Hframe).
  assert (Hhist : s3_get (historyKeyOf repoId fileName T) w'
                  = s3_get (historyKeyOf repoId fileName T) w).
  { apply Hframe.
    - intros E; symmetry in E; revert E. by eapply fileKey_ne_versionKey.
    - intros E. apply versionKey_inj_timestamp in E. congruence.
    - apply historyKey_ne_commitKey. }
  assert (Hmeta : s3_get (commitKeyOf repoId fileName T) w'
                  = s3_get (commitKeyOf repoId fileName T) w).
  { apply Hframe.
    - intros E; symmetry in E; revert E. by eapply fileKey_ne_versionKey.
    - intros E; symmetry in E; revert E. apply historyKey_ne_commitKey.
    - intros E. apply versionKey_inj_timestamp in E. congruence. }
  exists content. split; [done |]. split; [done |]. split.
  { by eapply commitFileVersion_version. }
  split.
  { intros Hround. rewrite <- Hround.
    by eapply commitFileVersion_version. }
  split.
  { revert Hv. unfold getFileVersion. rewrite Hinit, Hinit'. simpl.
    fold (historyKeyOf repoId fileName T). by rewrite Hhist. }
  split; [done |]. split; [done |].
  intros Hfits.
  destruct (commitFileVersion_listed _ _ _ _ _ _ _ _ Hc Hfits)
    as (commits & entry & Hl & Hin & Ht & _).
  by exists commits, entry.
Qed.

(** ** Repository lookup *)

(** C9: for a private repository and an authenticated caller who is
    neither its owner nor one of its collaborators, [getRepository]
    succeeds with the projection holding the id, name, owner, visibility,
    description and the two timestamps, an empty collaborator list and no
    fork pointer. *)
Theorem getRepository_redacts_for_strangers
    (w : World) (id : string) (d : Repository) (u : User) :
  currentUser w = Some u →
  repositories w !! id = Some d →
  r_isPublic d = false →
  r_ownerId d ≠ uid u →
  (∀ l, r_collaborators d = Some l → uid u ∉ l) →
  getRepository id w
  = Success {| r_id := Some (default id (r_id d));
               r_name := r_name d;
               r_description := r_description d;
               r_ownerId := r_ownerId d;
               r_createdAt := r_createdAt d;
               r_updatedAt := r_updatedAt d;
               r_isPublic := false;
               r_collaborators := Some [];
               r_forkedFrom := None |}.
Proof.
  intros Hu Hd Hpriv Howner Hcollab.
  unfold getRepository. rewrite Hu, Hd. simpl. rewrite Hpriv. simpl.
  apply String.eqb_neq in Howner. rewrite Howner. simpl.
  unfold is_collaborator. simpl.
  destruct (r_collaborators d) as [l|] eqn:Hl; simpl; [| done].
  rewrite bool_decide_eq_false_2 by (by apply Hcollab). done.
Qed.

(** ** Pull-request status *)

Lemma getPullRequest_Some id d w :
  pullRequests w !! id = Some d →
  getPullRequest id w = Success (pullRequest_of_doc id d).
Proof. intros Hd. unfold getPullRequest. by rewrite Hd. Qed.

(** Whoever passes the permission check sets the status, whatever the
    status was. *)
Lemma updatePullRequestStatus_allowed id status comment w u d :
  currentUser w = Some u →
  pullRequests w !! id = Some d →
  uid u = pr_targetOwnerId d ∨ status = closed →
  ∃ w', updatePullRequestStatus id status comment w = (Success (), w')
    ∧ pullRequests w' !! id = Some (with_status status (clock (ticks w)) d)
    ∧ (∀ id', id' ≠ id → pullRequests w' !! id' = pullRequests w !! id')
    ∧ bucket w' = bucket w
    ∧ notifications w'
      = (notifications w ++
        [{| n_userId := JStr (cb_id (pr_createdBy d));
            n_type := "pull_request_" ++ status_name status;
            n_message := "Your pull request " ++ dquote ++ pr_title d ++
                         dquote ++ " was " ++ status_name status;
            n_details :=
              <["pullRequestId" := JStr id]>
                (<["comment" := JStr (or_opt comment "")]>
                  (<["targetRepoName" := JStr (pr_targetRepoName d)]> ∅));
            n_read := false;
            n_createdAt := clock (S (ticks w));
            n_createdBy := None |}])%list
    ∧ initialized w' = initialized w.
Proof.
  intros Hu Hd Hperm.
  unfold updatePullRequestStatus. rewrite Hu, (getPullRequest_Some _ _ _ Hd).
  simpl.
  assert (Hgate : negb (String.eqb (pr_targetOwnerId d) (uid u))
                  && negb (bool_decide (status = closed)) = false).
  { destruct Hperm as [Ho | ->].
    - rewrite <- Ho, String.eqb_refl. done.
    - rewrite bool_decide_eq_true_2 by done. apply andb_false_r. }
  rewrite Hgate. eexists. split; [reflexivity |]. simpl.
  split; [by rewrite lookup_alter_eq, Hd |].
  split; [| done].
  intros id' Hne. by rewrite lookup_alter_ne.
Qed.

Lemma updatePullRequestStatus_denied id status comment w u d :
  currentUser w = Some u →
  pullRequests w !! id = Some d →
  uid u ≠ pr_targetOwnerId d → status ≠ closed →
  updatePullRequestStatus id status comment w
  = (Failure "Only the repository owner can update this pull request", w).
Proof.
  intros Hu Hd Ho Hs.
  unfold updatePullRequestStatus. rewrite Hu, (getPullRequest_Some _ _ _ Hd).
  simpl.
  assert (Hneq : String.eqb (pr_targetOwnerId d) (uid u) = false).
  { apply String.eqb_neq. congruence. }
  rewrite Hneq, bool_decide_eq_false_2 by done. done.
Qed.

Lemma mergePullRequest_denied id comment w u d :
  currentUser w = Some u →
  pullRequests w !! id = Some d →
  uid u ≠ pr_targetOwnerId d →
  mergePullRequest id comment w
  = (Failure "Only the repository owner can merge this pull request", w).
Proof.
  intros Hu Hd Ho.
  unfold mergePullRequest. rewrite Hu, (getPullRequest_Some _ _ _ Hd). simpl.
  assert (Hneq : String.eqb (pr_targetOwnerId d) (uid u) = false).
  { apply String.eqb_neq. congruence. }
  by rewrite Hneq.
Qed.

Lemma mergePullRequest_not_open id comment w u d :
  currentUser w = Some u →
  pullRequests w !! id = Some d →
  uid u = pr_targetOwnerId d →
  pr_status d ≠ open →
  mergePullRequest id comment w
  = (Failure ("This pull request is already " ++ status_name (pr_status d)), w).
Proof.
  intros Hu Hd Ho Hs.
  unfold mergePullRequest. rewrite Hu, (getPullRequest_Some _ _ _ Hd). simpl.
  rewrite <- Ho, String.eqb_refl. simpl.
  by rewrite bool_decide_eq_false_2.
Qed.

(** C5, as the code has it: a caller other than the target owner is
    refused by merge and by every status update other than close, and the
    world is left as it was; close of an open pull request succeeds for
    every authenticated caller, target owner, creator or neither; and
    merge by the target owner of a pull request that is not open fails
    with the "already ..." error, the world untouched. *)
Theorem pull_request_authorization
    (w : World) (id : string) (d : PullRequest) (u : User)
    (comment : option string) :
  currentUser w = Some u →
  pullRequests w !! id = Some d →
  (uid u ≠ pr_targetOwnerId d →
     mergePullRequest id comment w
     = (Failure "Only the repository owner can merge this pull request", w)
     ∧ ∀ status, status ≠ closed →
         updatePullRequestStatus id status comment w
         = (Failure "Only the repository owner can update this pull request", w))
  ∧ (pr_status d = open →
     ∃ w', updatePullRequestStatus id closed comment w = (Success (), w')
           ∧ pr_status <$> pullRequests w' !! id = Some closed)
  ∧ (uid u = pr_targetOwnerId d →
     pr_status d ≠ open →
     mergePullRequest id comment w
     = (Failure ("This pull request is already " ++
                 status_name (pr_status d)), w)).
Proof.
  intros Hu Hd. split; [| split].
  - intros Ho. split.
    + by eapply mergePullRequest_denied.
    + intros status Hs. by eapply updatePullRequestStatus_denied.
  - intros _.
    destruct (updatePullRequestStatus_allowed id closed comment w u d Hu Hd)
      as (w' & Hr & Hl & _); [by right |].
    exists w'. split; [done |]. by rewrite Hl.
  - intros Ho Hs. by eapply mergePullRequest_not_open.
Qed.

(** ** Notifications and uploads leave the rest of the world alone *)

Lemma createNotification_frame userId type message details w :
  let w' := (createNotification userId type message details w).2 in
  bucket w' = bucket w ∧ initialized w' = initialized w
  ∧ currentUser w' = currentUser w ∧ repositories w' = repositories w
  ∧ pullRequests w' = pullRequests w.
Proof.
  unfold createNotification. cbv zeta.
  destruct (negb (js_truthy userId)); [done |].
  by destruct (currentUser w) eqn:Hu.
Qed.

Lemma pendingMetaKey_ne_fileKey repoId f t f' :
  pendingMetaKeyOf repoId f t ≠ fileKeyOf repoId f'.
Proof. apply repo_key_ne. simpl. intros [=]. Qed.

Lemma pendingMetaKey_ne_historyKey repoId f t f' t' :
  pendingMetaKeyOf repoId f t ≠ historyKeyOf repoId f' t'.
Proof. apply repo_key_ne. simpl. intros [=]. Qed.

Lemma pendingMetaKey_ne_commitKey repoId f t f' t' :
  pendingMetaKeyOf repoId f t ≠ commitKeyOf repoId f' t'.
Proof. apply repo_key_ne. simpl. intros [=]. Qed.

Lemma pendingMetaKey_has_prefix repoId f t :
  String.prefix (pendingMetaPrefix repoId) (pendingMetaKeyOf repoId f t) = true.
Proof.
  unfold pendingMetaPrefix, pendingMetaKeyOf, versionKeyOf.
  rewrite (prefix_cancel "repositories/"), (prefix_cancel repoId).
  change ("/" ++ "pending-meta" ++ "/" ++ f ++ "/" ++ t ++ ".json")
    with ("/pending-meta/" ++ f ++ "/" ++ t ++ ".json").
  apply prefix_app.
Qed.

(** What [uploadFileWithCommit] does when it is handed a user, the caller
    is signed in and the content is not empty. *)
Lemma uploadFileWithCommit_success repoId fileName content msg u cu w :
  initialized w = true →
  currentUser w = Some cu →
  content_truthy content = true →
  ∃ w' obj,
    uploadFileWithCommit repoId fileName content msg (Some u) w
      = (Success (clock (ticks w)), w')
    ∧ initialized w' = true ∧ currentUser w' = Some cu
    ∧ repositories w' = repositories w ∧ pullRequests w' = pullRequests w
    ∧ notifications w' = notifications w
    ∧ s3_get (fileKeyOf repoId fileName) w' = Some obj
    ∧ body_bytes (Body obj) = content_bytes content
    ∧ (∃ h, s3_get (historyKeyOf repoId fileName (clock (ticks w))) w' = Some h
            ∧ Body h = Raw (TextEncoder_encode
                              match content with
                              | CString s => s
                              | CBytes b => TextDecoder_decode b
                              end))
    ∧ (∃ c, s3_get (commitKeyOf repoId fileName (clock (ticks w))) w' = Some c
            ∧ Body c = Json (uploadCommitData msg (clock (ticks w)) u))
    ∧ ∀ k, k ≠ fileKeyOf repoId fileName →
           k ≠ historyKeyOf repoId fileName (clock (ticks w)) →
           k ≠ commitKeyOf repoId fileName (clock (ticks w)) →
           s3_get k w' = s3_get k w.
Proof.
  intros Hinit Hcu Htruthy.
  unfold uploadFileWithCommit, uploadFileToS3, getFileSignedUrl.
  repeat (rewrite ?Hinit, ?Hcu, ?Htruthy; simpl).
  eexists _, _. split; [reflexivity |].
  repeat split; try done.
  - rewrite !s3_get_put_ne
      by (intros E; symmetry in E; revert E; by eapply fileKey_ne_versionKey).
    apply s3_get_put_eq.
  - by destruct content.
  - eexists. split.
    + rewrite s3_get_put_ne by (symmetry; apply historyKey_ne_commitKey).
      apply s3_get_put_eq.
    + by destruct content.
  - eexists. split; [apply s3_get_put_eq | done].
  - intros k Hf Hh Hc. by rewrite !s3_get_put_ne.
Qed.

(** Whatever the outcome, [uploadFileWithCommit] writes under three keys
    at most. *)
Lemma uploadFileWithCommit_bucket repoId fileName content msg user w k :
  k ≠ fileKeyOf repoId fileName →
  k ≠ historyKeyOf repoId fileName (clock (ticks w)) →
  k ≠ commitKeyOf repoId fileName (clock (ticks w)) →
  s3_get k (uploadFileWithCommit repoId fileName content msg user w).2
  = s3_get k w.
Proof.
  intros Hf Hh Hc. unfold uploadFileWithCommit, uploadFileToS3, getFileSignedUrl.
  destruct (initialized w) eqn:Hinit; simpl; [| done].
  destruct (match user with Some u => Some u | None => currentUser w end);
    [| done].
  simpl. rewrite ?Hinit. simpl.
  destruct (currentUser w); simpl; [| done].
  destruct (content_truthy content); simpl; [| done].
  rewrite ?Hinit. simpl. by rewrite !s3_get_put_ne.
Qed.

(** With empty content nothing is written. *)
Lemma uploadFileWithCommit_empty repoId fileName msg u cu w :
  initialized w = true →
  currentUser w = Some cu →
  ∃ error,
    uploadFileWithCommit repoId fileName (CString "") msg (Some u) w
    = (Failure error, set_ticks (S (ticks w)) w).
Proof.
  intros Hinit Hcu.
  unfold uploadFileWithCommit, uploadFileToS3.
  repeat (rewrite ?Hinit, ?Hcu; simpl). by eexists.
Qed.

(** ** Pending commits *)

Lemma getRepository_owner repoId repo u w :
  currentUser w = Some u →
  repositories w !! repoId = Some repo →
  r_ownerId repo = uid u →
  getRepository repoId w = Success (repository_of_doc repoId repo).
Proof.
  intros Hu Hr Ho. unfold getRepository. rewrite Hu, Hr. simpl.
  rewrite Ho, String.eqb_refl. simpl. by rewrite andb_false_r.
Qed.

(** The owner's decision is written over the metadata record, whatever
    the record said before. *)
Lemma processPendingCommit_owner repoId requestId fileName approve comment
    w u repo obj metadata :
  initialized w = true →
  currentUser w = Some u →
  repositories w !! repoId = Some repo →
  r_ownerId repo = uid u →
  s3_get (pendingMetaKeyOf repoId fileName requestId) w = Some obj →
  parse_body (Body obj) = Some metadata →
  (approve = true →
   is_Some (s3_get (pendingKeyOf repoId fileName requestId) w)) →
  ∃ w' obj' processedAt,
    processPendingCommit repoId requestId fileName approve comment w
      = (Success (), w')
    ∧ initialized w' = true
    ∧ s3_get (pendingMetaKeyOf repoId fileName requestId) w' = Some obj'
    ∧ Body obj' = Json (updatedMetadata metadata (decision approve) u
                                        processedAt comment).
Proof.
  intros Hinit Hu Hrepo Ho Hmeta Hparse Hpending.
  unfold processPendingCommit. rewrite Hinit, Hu. simpl.
  rewrite (getRepository_owner _ _ _ _ Hu Hrepo Ho). simpl.
  rewrite Ho, String.eqb_refl. simpl. rewrite Hmeta, Hparse.
  destruct approve.
  - destruct (Hpending eq_refl) as [fileResult Hf]. rewrite Hf.
    match goal with
    | |- context [createNotification ?a ?b ?c ?d ?x] =>
        destruct (createNotification_frame a b c d x) as (Hb & Hi & _)
    end.
    eexists _, _, _. split; [reflexivity |]. cbv zeta in Hb, Hi.
    split.
    { rewrite Hi. simpl.
      destruct (uploadFileWithCommit _ _ _ _ _ _) as [r w1] eqn:Hup. simpl.
      revert Hup. unfold uploadFileWithCommit, uploadFileToS3, getFileSignedUrl.
      repeat (rewrite ?Hinit, ?Hu; simpl).
      destruct (String.eqb _ ""); repeat (rewrite ?Hinit; simpl);
        by intros [= <- <-]. }
    split.
    { unfold s3_get. rewrite Hb. apply s3_get_put_eq. }
    done.
  - match goal with
    | |- context [createNotification ?a ?b ?c ?d ?x] =>
        destruct (createNotification_frame a b c d x) as (Hb & Hi & _)
    end.
    eexists _, _, _. split; [reflexivity |]. cbv zeta in Hb, Hi.
    split; [by rewrite Hi |].
    split.
    { unfold s3_get. rewrite Hb. apply s3_get_put_eq. }
    done.
Qed.

Lemma updatedMetadata_status metadata status u t comment :
  prop (updatedMetadata metadata status u t comment) "status" = JStr status.
Proof. unfold prop, updatedMetadata. by simplify_map_eq. Qed.

Lemma updatedMetadata_processedBy metadata status u t comment :
  prop (updatedMetadata metadata status u t comment) "processedBy"
  = JStr (author_of u).
Proof. unfold prop, updatedMetadata. by simplify_map_eq. Qed.

Lemma updatedMetadata_other metadata status u t comment k :
  k ≠ "status" → k ≠ "processedBy" → k ≠ "processedAt" → k ≠ "comment" →
  prop (updatedMetadata metadata status u t comment) k = prop metadata k.
Proof. intros. unfold prop, updatedMetadata. by simplify_map_eq. Qed.

(** C7, as the code has it: the owner's decision is applied to a
    pending-metadata record whatever its stored status is.  The record is
    re-read, its status is not examined, and after the call it carries the
    status of the decision: [approved] or [rejected]. *)
Theorem processPendingCommit_overwrites_any_status
    (w : World) (repoId requestId fileName : string) (approve : bool)
    (comment : option string) (u : User) (repo : Repository)
    (obj : S3Object) (metadata : jobj) :
  initialized w = true →
  currentUser w = Some u →
  repositories w !! repoId = Some repo →
  r_ownerId repo = uid u →
  s3_get (pendingMetaKeyOf repoId fileName requestId) w = Some obj →
  parse_body (Body obj) = Some metadata →
  (approve = true →
   is_Some (s3_get (pendingKeyOf repoId fileName requestId) w)) →
  ∃ w' obj' metadata',
    processPendingCommit repoId requestId fileName approve comment w
      = (Success (), w')
    ∧ s3_get (pendingMetaKeyOf repoId fileName requestId) w' = Some obj'
    ∧ parse_body (Body obj') = Some metadata'
    ∧ prop metadata' "status" = JStr (decision approve).
Proof.
  intros Hinit Hu Hrepo Ho Hmeta Hparse Hpending.
  destruct (processPendingCommit_owner repoId requestId fileName approve
              comment w u repo obj metadata)
    as (w' & obj' & t & Hrun & _ & Hget & Hbody); try done.
  exists w', obj', (updatedMetadata metadata (decision approve) u t comment).
  split; [done |]. split; [done |]. rewrite Hbody. split; [done |].
  apply updatedMetadata_status.
Qed.

(** ** Sorting by date, newest first *)

Lemma goes_after_by_date a b ta tb :
  getTime (prop a "timestamp") = Some ta →
  getTime (prop b "timestamp") = Some tb →
  goes_after by_date_desc a b = bool_decide (ta < tb)%Z.
Proof.
  intros Ha Hb. unfold goes_after, by_date_desc. rewrite Ha, Hb. simpl.
  destruct (Z.ltb_spec 0 (tb - ta)); symmetry;
    [apply bool_decide_eq_true_2 | apply bool_decide_eq_false_2]; lia.
Qed.

Lemma not_older_trans a b c : not_older a b → not_older b c → not_older a c.
Proof.
  intros (ta & tb & Ha & Hb & Hab) (tb' & tc & Hb' & Hc & Hbc).
  exists ta, tc. repeat split; try done.
  rewrite Hb in Hb'. injection Hb' as <-. lia.
Qed.

Lemma sort_insert_by_date_sorted x l :
  is_Some (getTime (prop x "timestamp")) →
  Forall (λ e, is_Some (getTime (prop e "timestamp"))) l →
  StronglySorted not_older l →
  StronglySorted not_older (sort_insert by_date_desc x l).
Proof.
  intros [tx Hx] Hvalid Hsorted.
  induction Hsorted as [|y l Hsorted IH Hy]; simpl.
  - repeat constructor.
  - apply Forall_cons in Hvalid as [[ty Hty] Hvalid].
    rewrite (goes_after_by_date _ _ _ _ Hx Hty).
    case_bool_decide as Hlt.
    + constructor; [by apply IH |].
      rewrite sort_insert_Permutation. constructor; [| done].
      exists ty, tx. repeat split; try done. lia.
    + assert (Hxy : not_older x y).
      { exists tx, ty. repeat split; try done. lia. }
      constructor; [by constructor |].
      constructor; [done |].
      eapply Forall_impl; [exact Hy |].
      intros z Hyz. by eapply not_older_trans.
Qed.

Lemma Array_sort_by_date_sorted l :
  Forall (λ e, is_Some (getTime (prop e "timestamp"))) l →
  StronglySorted not_older (Array_sort by_date_desc l).
Proof.
  induction l as [|x l IH]; intros Hvalid; simpl; [constructor |].
  apply Forall_cons in Hvalid as [Hx Hvalid].
  apply sort_insert_by_date_sorted; [done | | by apply IH].
  by rewrite Array_sort_Permutation.
Qed.

(** ** Listing the pending requests *)

Lemma request_entry_Some repoId k obj doc :
  parse_body (Body obj) = Some doc →
  ∃ e, request_entry repoId (k, obj) = Some e
       ∧ prop e "status" = prop doc "status"
       ∧ prop e "timestamp" = prop doc "timestamp"
       ∧ prop e "author" = prop doc "author"
       ∧ prop e "id"
         = JStr (or_str (replace_first ".json" "" (last_segment k)) "").
Proof.
  intros Hdoc. unfold request_entry. simpl. rewrite Hdoc. simpl.
  eexists. split; [reflexivity |].
  unfold prop. by simplify_map_eq.
Qed.

Lemma getPendingCommitRequests_run repoId w :
  initialized w = true →
  getPendingCommitRequests repoId w
  = Success (Array_sort by_date_desc
               (omap (request_entry repoId)
                     (s3_list (pendingMetaPrefix repoId) w))).
Proof.
  intros Hinit. unfold getPendingCommitRequests. rewrite Hinit. simpl.
  by destruct (s3_list (pendingMetaPrefix repoId) w).
Qed.

Lemma elem_of_getPendingCommitRequests repoId w k obj e :
  fits_one_page (pendingMetaPrefix repoId) w →
  s3_get k w = Some obj →
  String.prefix (pendingMetaPrefix repoId) k = true →
  request_entry repoId (k, obj) = Some e →
  e ∈ Array_sort by_date_desc
        (omap (request_entry repoId) (s3_list (pendingMetaPrefix repoId) w)).
Proof.
  intros Hfits Hget Hpfx He.
  rewrite elem_of_Array_sort, list_elem_of_omap. exists (k, obj).
  split; [by apply elem_of_s3_list_fits | done].
Qed.

Lemma pendingMetaPrefix_ne_fileKey repoId k g :
  String.prefix (pendingMetaPrefix repoId) k = true → k ≠ fileKeyOf repoId g.
Proof.
  intros Hpfx ->. revert Hpfx. unfold pendingMetaPrefix, fileKeyOf.
  rewrite (prefix_cancel "repositories/"), (prefix_cancel repoId).
  vm_compute. done.
Qed.

Lemma pendingMetaPrefix_ne_historyKey repoId k g t :
  String.prefix (pendingMetaPrefix repoId) k = true →
  k ≠ historyKeyOf repoId g t.
Proof.
  intros Hpfx ->. revert Hpfx.
  unfold pendingMetaPrefix, historyKeyOf, versionKeyOf.
  rewrite (prefix_cancel "repositories/"), (prefix_cancel repoId).
  vm_compute. done.
Qed.

Lemma pendingMetaPrefix_ne_commitKey repoId k g t :
  String.prefix (pendingMetaPrefix repoId) k = true →
  k ≠ commitKeyOf repoId g t.
Proof.
  intros Hpfx ->. revert Hpfx.
  unfold pendingMetaPrefix, commitKeyOf, versionKeyOf.
  rewrite (prefix_cancel "repositories/"), (prefix_cancel repoId).
  vm_compute. done.
Qed.

(** A successful decision was taken by the owner on a record that was
    there. *)
Lemma processPendingCommit_success_inv repoId requestId fileName approve
    comment w w' :
  processPendingCommit repoId requestId fileName approve comment w
    = (Success (), w') →
  ∃ u repo obj metadata,
    initialized w = true ∧ currentUser w = Some u
    ∧ repositories w !! repoId = Some repo ∧ r_ownerId repo = uid u
    ∧ s3_get (pendingMetaKeyOf repoId fileName requestId) w = Some obj
    ∧ parse_body (Body obj) = Some metadata
    ∧ (approve = true →
       is_Some (s3_get (pendingKeyOf repoId fileName requestId) w)).
Proof.
  unfold processPendingCommit.
  destruct (initialized w) eqn:Hinit; [| discriminate]. simpl.
  destruct (currentUser w) as [u|] eqn:Hu; [| discriminate].
  unfold getRepository. rewrite Hu.
  destruct (repositories w !! repoId) as [repo|] eqn:Hrepo; [| discriminate].
  destruct (negb (r_isPublic _) && _ && _); simpl;
    (destruct (String.eqb (r_ownerId repo) (uid u)) eqn:Ho; simpl;
       [| discriminate]);
    (destruct (s3_get (pendingMetaKeyOf _ _ _) w) as [obj|] eqn:Hobj;
       [| discriminate]);
    (destruct (parse_body (Body obj)) as [metadata|] eqn:Hmeta;
       [| discriminate]);
    intros Hrun; exists u, repo, obj, metadata;
    apply String.eqb_eq in Ho; (repeat split; try done);
    intros ->; revert Hrun;
    (destruct (s3_get (pendingKeyOf _ _ _) w); [done | discriminate]).
Qed.

(** A decision writes under the key of the metadata record and, when it
    applies the change, under the three keys of the new commit. *)
Lemma processPendingCommit_bucket repoId requestId fileName approve comment
    w w' k :
  processPendingCommit repoId requestId fileName approve comment w
    = (Success (), w') →
  k ≠ pendingMetaKeyOf repoId fileName requestId →
  k ≠ fileKeyOf repoId fileName →
  k ≠ historyKeyOf repoId fileName (clock (ticks w)) →
  k ≠ commitKeyOf repoId fileName (clock (ticks w)) →
  s3_get k w' = s3_get k w.
Proof.
  intros Hrun Hm Hf Hh Hc.
  destruct (processPendingCommit_success_inv _ _ _ _ _ _ _ Hrun)
    as (u & repo & obj & metadata & Hinit & Hu & Hrepo & Ho & Hmeta & Hparse
        & Hp).
  revert Hrun. unfold processPendingCommit. rewrite Hinit, Hu. simpl.
  rewrite (getRepository_owner _ _ _ _ Hu Hrepo Ho). simpl.
  rewrite Ho, String.eqb_refl. simpl. rewrite Hmeta, Hparse.
  destruct approve.
  - destruct (Hp eq_refl) as [pending Hpending]. rewrite Hpending.
    match goal with
    | |- context [createNotification ?a ?b ?c ?d ?x] =>
        destruct (createNotification_frame a b c d x) as (Hb & _)
    end.
    cbv zeta in Hb. intros [= <-].
    rewrite (s3_get_bucket _ _ _ Hb), s3_get_put_ne by done.
    by rewrite <- (uploadFileWithCommit_bucket repoId fileName
                     (CString (TextDecoder_decode (body_bytes (Body pending))))
                     (approvalMessage metadata u) (Some u) w k).
  - match goal with
    | |- context [createNotification ?a ?b ?c ?d ?x] =>
        destruct (createNotification_frame a b c d x) as (Hb & _)
    end.
    cbv zeta in Hb. intros [= <-].
    by rewrite (s3_get_bucket _ _ _ Hb), s3_get_put_ne.
Qed.

(** A decision leaves the keys below the pending-meta prefix the keys
    they were. *)
Lemma processPendingCommit_pending_meta_keys repoId requestId fileName approve
    comment w w' k :
  processPendingCommit repoId requestId fileName approve comment w
    = (Success (), w') →
  String.prefix (pendingMetaPrefix repoId) k = true →
  is_Some (s3_get k w') ↔ is_Some (s3_get k w).
Proof.
  intros Hrun Hpfx.
  destruct (decide (k = pendingMetaKeyOf repoId fileName requestId))
    as [-> | Hne].
  - destruct (processPendingCommit_success_inv _ _ _ _ _ _ _ Hrun)
      as (u & repo & obj & metadata & Hinit & Hu & Hrepo & Ho & Hmeta & Hparse
          & Hp).
    destruct (processPendingCommit_owner repoId requestId fileName approve
                comment w u repo obj metadata)
      as (w2 & obj' & t & Hrun' & _ & Hget' & _); try done.
    rewrite Hrun in Hrun'. injection Hrun' as <-.
    by rewrite Hmeta, Hget'.
  - rewrite (processPendingCommit_bucket _ _ _ _ _ _ _ _ Hrun); try done.
    + by apply pendingMetaPrefix_ne_fileKey.
    + by apply pendingMetaPrefix_ne_historyKey.
    + by apply pendingMetaPrefix_ne_commitKey.
Qed.

(** C10, as the code has it: when the records below the repository's
    pending-meta prefix fit the one page a listing returns, the owner's
    listing returns an entry for every JSON record below the prefix, with
    the status the record carries, whatever that status is; a request the
    owner has decided stays at its key and shows in the next listing with
    the status of the decision; and the listing is ordered by timestamp,
    newest first. *)
Theorem pending_requests_listed_whatever_their_status
    (w : World) (repoId : string) :
  initialized w = true →
  fits_one_page (pendingMetaPrefix repoId) w →
  ∃ requests,
    getPendingCommitRequests repoId w = Success requests
    ∧ (∀ k obj doc,
         s3_get k w = Some obj →
         String.prefix (pendingMetaPrefix repoId) k = true →
         parse_body (Body obj) = Some doc →
         ∃ e, e ∈ requests
              ∧ request_entry repoId (k, obj) = Some e
              ∧ prop e "status" = prop doc "status"
              ∧ prop e "timestamp" = prop doc "timestamp")
    ∧ (∀ requestId fileName approve comment w',
         processPendingCommit repoId requestId fileName approve comment w
           = (Success (), w') →
         ∃ requests' obj' e,
           getPendingCommitRequests repoId w' = Success requests'
           ∧ s3_get (pendingMetaKeyOf repoId fileName requestId) w' = Some obj'
           ∧ request_entry repoId
               (pendingMetaKeyOf repoId fileName requestId, obj') = Some e
           ∧ e ∈ requests'
           ∧ prop e "status" = JStr (decision approve))
    ∧ ((∀ e, e ∈ requests → is_Some (getTime (prop e "timestamp"))) →
       StronglySorted not_older requests).
Proof.
  intros Hinit Hfits. eexists.
  split; [by apply getPendingCommitRequests_run |].
  split; [| split].
  - intros k obj doc Hget Hpfx Hdoc.
    destruct (request_entry_Some repoId k obj doc Hdoc)
      as (e & He & Hstatus & Htime & _).
    exists e. split; [| done].
    by eapply elem_of_getPendingCommitRequests.
  - intros requestId fileName approve comment w' Hrun.
    destruct (processPendingCommit_success_inv _ _ _ _ _ _ _ Hrun)
      as (u & repo & obj & metadata & _ & Hu & Hrepo & Ho & Hget & Hparse & Hp).
    destruct (processPendingCommit_owner repoId requestId fileName approve
                comment w u repo obj metadata)
      as (w2 & obj' & t & Hrun' & Hinit' & Hget' & Hbody); try done.
    rewrite Hrun in Hrun'. injection Hrun' as <-.
    destruct (request_entry_Some repoId
                (pendingMetaKeyOf repoId fileName requestId) obj'
                (updatedMetadata metadata (decision approve) u t comment))
      as (e & He & Hstatus & _); [by rewrite Hbody |].
    eexists _, obj', e.
    split; [by apply getPendingCommitRequests_run |].
    split; [done |]. split; [done |]. split.
    + eapply elem_of_getPendingCommitRequests;
        [| exact Hget' | apply pendingMetaKey_has_prefix | done].
      eapply fits_one_page_same_keys; [| exact Hfits].
      intros k Hpfx.
      by eapply processPendingCommit_pending_meta_keys.
    + rewrite Hstatus. apply updatedMetadata_status.
  - intros Hvalid. apply Array_sort_by_date_sorted.
    apply Forall_forall. intros e He. apply Hvalid.
    by apply elem_of_Array_sort.
Qed.

(** ** Approving a pending commit *)

(** The run of an approval: the upload, then the metadata record. *)
Lemma processPendingCommit_approve_run repoId requestId fileName comment
    w u repo obj metadata pending :
  initialized w = true →
  currentUser w = Some u →
  repositories w !! repoId = Some repo →
  r_ownerId repo = uid u →
  s3_get (pendingMetaKeyOf repoId fileName requestId) w = Some obj →
  parse_body (Body obj) = Some metadata →
  s3_get (pendingKeyOf repoId fileName requestId) w = Some pending →
  ∃ w' obj',
    processPendingCommit repoId requestId fileName true comment w
      = (Success (), w')
    ∧ initialized w' = true
    ∧ s3_get (pendingMetaKeyOf repoId fileName requestId) w' = Some obj'
    ∧ (∃ processedAt,
         Body obj' = Json (updatedMetadata metadata "approved" u
                                           processedAt comment))
    ∧ ∀ k, k ≠ pendingMetaKeyOf repoId fileName requestId →
        s3_get k w'
        = s3_get k (uploadFileWithCommit repoId fileName
                      (CString (TextDecoder_decode (body_bytes (Body pending))))
                      (approvalMessage metadata u) (Some u) w).2.
Proof.
  intros Hinit Hu Hrepo Ho Hmeta Hparse Hpending.
  destruct (processPendingCommit_owner repoId requestId fileName true
              comment w u repo obj metadata)
    as (w' & obj' & t & Hrun & Hinit' & Hget & Hbody); try done.
  exists w', obj'. split; [done |]. split; [done |]. split; [done |].
  split; [by exists t |].
  intros k Hk. revert Hrun. unfold processPendingCommit.
  rewrite Hinit, Hu. simpl.
  rewrite (getRepository_owner _ _ _ _ Hu Hrepo Ho). simpl.
  rewrite Ho, String.eqb_refl. simpl. rewrite Hmeta, Hparse, Hpending.
  match goal with
  | |- context [createNotification ?a ?b ?c ?d ?x] =>
      destruct (createNotification_frame a b c d x) as (Hb & _)
  end.
  cbv zeta in Hb. intros [= <-].
  rewrite (s3_get_bucket _ _ _ Hb).
  by rewrite s3_get_put_ne.
Qed.

(** C6, as the code has it: when the owner approves a pending change
    whose bytes do not decode to the empty string, the current content of
    the file becomes the pending bytes decoded and encoded again, and a new
    history entry holds them; the commit metadata of that entry names the
    approving owner as author; the pending-metadata record gets the owner
    in [processedBy] and status [approved], and keeps the submitter in its
    [author] and [authorId] fields. *)
Theorem approved_commit_is_authored_by_the_approver
    (w : World) (repoId requestId fileName : string)
    (comment : option string) (u : User) (repo : Repository)
    (obj pending : S3Object) (metadata : jobj) :
  initialized w = true →
  currentUser w = Some u →
  repositories w !! repoId = Some repo →
  r_ownerId repo = uid u →
  s3_get (pendingMetaKeyOf repoId fileName requestId) w = Some obj →
  parse_body (Body obj) = Some metadata →
  s3_get (pendingKeyOf repoId fileName requestId) w = Some pending →
  TextDecoder_decode (body_bytes (Body pending)) ≠ "" →
  ∃ w' T current snapshot commit obj' metadata',
    processPendingCommit repoId requestId fileName true comment w
      = (Success (), w')
    ∧ s3_get (fileKeyOf repoId fileName) w' = Some current
    ∧ body_bytes (Body current)
      = TextEncoder_encode (TextDecoder_decode (body_bytes (Body pending)))
    ∧ s3_get (historyKeyOf repoId fileName T) w' = Some snapshot
    ∧ body_bytes (Body snapshot)
      = TextEncoder_encode (TextDecoder_decode (body_bytes (Body pending)))
    ∧ s3_get (commitKeyOf repoId fileName T) w' = Some commit
    ∧ Body commit = Json (uploadCommitData (approvalMessage metadata u) T u)
    ∧ prop (uploadCommitData (approvalMessage metadata u) T u) "author"
      = JStr (author_of u)
    ∧ s3_get (pendingMetaKeyOf repoId fileName requestId) w' = Some obj'
    ∧ parse_body (Body obj') = Some metadata'
    ∧ prop metadata' "processedBy" = JStr (author_of u)
    ∧ prop metadata' "status" = JStr "approved"
    ∧ prop metadata' "author" = prop metadata "author"
    ∧ prop metadata' "authorId" = prop metadata "authorId".
Proof.
  intros Hinit Hu Hrepo Ho Hmeta Hparse Hpending Hnonempty.
  destruct (processPendingCommit_approve_run repoId requestId fileName comment
              w u repo obj metadata pending)
    as (w' & obj' & Hrun & Hinit' & Hget & [t Hbody] & Hframe); try done.
  destruct (uploadFileWithCommit_success repoId fileName
              (CString (TextDecoder_decode (body_bytes (Body pending))))
              (approvalMessage metadata u) u u w)
    as (w1 & current & Hup & _ & _ & _ & _ & _ & Hfile & Hbytes
        & (h & Hh & Hhbody) & (c & Hc & Hcbody) & _); try done.
  { simpl. by apply negb_true_iff, String.eqb_neq. }
  rewrite Hup in Hframe. simpl in Hframe.
  exists w', (clock (ticks w)), current, h, c, obj',
    (updatedMetadata metadata "approved" u t comment).
  split; [done |].
  split.
  { rewrite Hframe; [done |]. symmetry. apply pendingMetaKey_ne_fileKey. }
  split; [done |].
  split.
  { rewrite Hframe; [done |]. symmetry. apply pendingMetaKey_ne_historyKey. }
  split; [by rewrite Hhbody |].
  split.
  { rewrite Hframe; [done |]. symmetry. apply pendingMetaKey_ne_commitKey. }
  split; [done |].
  split; [apply commitData_author |].
  split; [done |].
  split; [by rewrite Hbody |].
  split; [apply updatedMetadata_processedBy |].
  split; [apply updatedMetadata_status |].
  split; by apply updatedMetadata_other.
Qed.

(** ** Keys of different repositories *)

Lemma slash_free_prefix_inj (a b x y : string) :
  has_slash a = false → has_slash b = false →
  a ++ String slash x = b ++ String slash y → a = b.
Proof.
  revert b. induction a as [|c a IH]; intros [|c' b] Ha Hb Heq.
  - done.
  - change (String slash x = String c' (b ++ String slash y)) in Heq.
    injection Heq as <- _. by simpl in Hb.
  - change (String c (a ++ String slash x) = String slash y) in Heq.
    injection Heq as -> _. by simpl in Ha.
  - rewrite !append_cons in Heq. injection Heq as -> Heq.
    simpl in Ha, Hb. apply orb_false_iff in Ha as [_ Ha].
    apply orb_false_iff in Hb as [_ Hb]. f_equal. by eapply IH.
Qed.

(** A key of one repository is not a key of another one. *)
Lemma repo_keys_disjoint (S T x y : string) :
  has_slash S = false → has_slash T = false → S ≠ T →
  "repositories/" ++ S ++ String slash x ≠ "repositories/" ++ T ++ String slash y.
Proof.
  intros HS HT Hne Heq. apply Hne.
  apply (String.app_inj "repositories/") in Heq.
  by eapply slash_free_prefix_inj.
Qed.

Lemma fileKey_inj repoId f g :
  fileKeyOf repoId f = fileKeyOf repoId g → f = g.
Proof.
  unfold fileKeyOf. intros Heq.
  by repeat (apply String.app_inj in Heq).
Qed.

Lemma commitsPrefix_ne_fileKey repoId f k g :
  String.prefix (commitsPrefix repoId f) k = true → k ≠ fileKeyOf repoId g.
Proof.
  intros Hpfx ->. revert Hpfx. unfold commitsPrefix, fileKeyOf.
  rewrite (prefix_cancel "repositories/"), (prefix_cancel repoId).
  change ("/commits/" ++ f ++ "/") with ("/" ++ "commits/" ++ f ++ "/").
  change ("/files/" ++ g) with ("/" ++ "files/" ++ g).
  rewrite (prefix_cancel "/"). done.
Qed.

Lemma commitsPrefix_ne_historyKey repoId f k g t :
  String.prefix (commitsPrefix repoId f) k = true → k ≠ historyKeyOf repoId g t.
Proof.
  intros Hpfx ->. revert Hpfx.
  unfold commitsPrefix, historyKeyOf, versionKeyOf.
  rewrite (prefix_cancel "repositories/"), (prefix_cancel repoId).
  change ("/commits/" ++ f ++ "/") with ("/" ++ "commits/" ++ f ++ "/").
  rewrite (prefix_cancel "/"). done.
Qed.

(** ** The transfer loop of a merge *)

Lemma getFileContent_congr repoId f w w0 :
  initialized w = initialized w0 →
  s3_get (fileKeyOf repoId f) w = s3_get (fileKeyOf repoId f) w0 →
  getFileContent repoId f w = getFileContent repoId f w0.
Proof.
  intros Hi Hk. unfold getFileContent, downloadFileFromS3. by rewrite Hi, Hk.
Qed.

(** One turn: either nothing is written, or the file was transferable and
    went through [uploadFileWithCommit]. *)
Lemma mergeFile_cases id pr u f w :
  initialized w = true →
  currentUser w = Some u →
  (mergeFile id pr u f w = (false, w)
   ∧ ∀ content, ¬ transferable (pr_sourceRepoId pr) f content w)
  ∨ ∃ content w1,
      transferable (pr_sourceRepoId pr) f content w
      ∧ mergeFile id pr u f w = (true, w1)
      ∧ uploadFileWithCommit (pr_targetRepoId pr) f content
          (mergeMessage id pr) (Some u) w
        = (Success (clock (ticks w)), w1).
Proof.
  intros Hinit Hu. unfold mergeFile, transferable.
  destruct (getFileContent (pr_sourceRepoId pr) f w) as [[content md]|err] eqn:Hd.
  - destruct (content_truthy content) eqn:Ht; simpl.
    + right.
      destruct (uploadFileWithCommit_success (pr_targetRepoId pr) f content
                  (mergeMessage id pr) u u w Hinit Hu Ht)
        as (w1 & obj & Hup & _).
      exists content, w1. rewrite Hup. simpl.
      split; [by exists md |]. done.
    + left. split; [done |]. intros c (md' & [= <- <-] & Hc). congruence.
  - left. split; [done |]. intros c (md' & [=] & _).
Qed.

Section Merge.
Variables (id : string) (pr : PullRequest) (u : User) (w0 : World).
Hypothesis Hsrc : has_slash (pr_sourceRepoId pr) = false.
Hypothesis Htgt : has_slash (pr_targetRepoId pr) = false.
Hypothesis Hdistinct : pr_sourceRepoId pr ≠ pr_targetRepoId pr.
Hypothesis Hinit0 : initialized w0 = true.

Lemma source_key_ne_target_key g x :
  fileKeyOf (pr_sourceRepoId pr) g
  ≠ "repositories/" ++ pr_targetRepoId pr ++ String slash x.
Proof. by apply repo_keys_disjoint. Qed.

(** A turn keeps what the loop relies on, and what it has achieved. *)
Lemma mergeFile_step f w ok w1 :
  initialized w = true →
  currentUser w = Some u →
  source_intact pr w0 w →
  mergeFile id pr u f w = (ok, w1) →
  initialized w1 = true ∧ currentUser w1 = Some u
  ∧ pullRequests w1 = pullRequests w ∧ notifications w1 = notifications w
  ∧ source_intact pr w0 w1
  ∧ ∀ g c, transferable (pr_sourceRepoId pr) g c w0 →
      g = f ∨ transferred (pr_targetRepoId pr) g (content_bytes c)
                          (mergeMessage id pr) w →
      transferred (pr_targetRepoId pr) g (content_bytes c)
                  (mergeMessage id pr) w1.
Proof.
  intros Hinit Hu Hintact Hrun.
  destruct (mergeFile_cases id pr u f w Hinit Hu)
    as [[Hno Hnot] | (content & w2 & Htr & Hyes & Hup)].
  - rewrite Hno in Hrun. injection Hrun as <- <-.
    split_and!; try done.
    intros g c Hg [-> | Hdone]; [| done].
    exfalso. apply (Hnot c).
    destruct Hg as (md & Hget & Hc). exists md. split; [| done].
    rewrite <- Hget. apply getFileContent_congr; [congruence | apply Hintact].
  - rewrite Hyes in Hrun. injection Hrun as <- <-.
    destruct Htr as (md & Hget & Htruthy).
    destruct (uploadFileWithCommit_success (pr_targetRepoId pr) f content
                (mergeMessage id pr) u u w Hinit Hu Htruthy)
      as (w2' & obj & Hup' & Hi & Hcu & _ & Hprs & Hns & Hfile & Hbytes
          & (h & Hh & Hhb) & (cm & Hcm & Hcmb) & Hframe).
    rewrite Hup in Hup'. injection Hup' as <-.
    assert (Hintact' : source_intact pr w0 w2).
    { intros g. rewrite <- Hintact. apply Hframe.
      - apply source_key_ne_target_key.
      - apply source_key_ne_target_key.
      - apply source_key_ne_target_key. }
    split_and!; try done.
    intros g c (mdg & Hgetg & Hcg) Hor.
    destruct (decide (g = f)) as [-> | Hne].
    + (* the file just transferred *)
      assert (content = c) as ->.
      { rewrite (getFileContent_congr _ f w w0) in Hget;
          [congruence | congruence | apply Hintact]. }
      split.
      * exists obj. split; [done |]. rewrite Hbytes. by destruct c.
      * exists (commitKeyOf (pr_targetRepoId pr) f (clock (ticks w))), cm,
          (uploadCommitData (mergeMessage id pr) (clock (ticks w)) u).
        split; [done |]. split; [apply commitKey_has_prefix |].
        split; [by rewrite Hcmb |]. apply commitData_message.
    + (* a file transferred earlier *)
      destruct Hor as [-> | [(cur & Hcur & Hcb) (k & cm' & doc & Hk & Hpfx & Hdoc & Hmsg)]];
        [done |].
      split.
      * exists cur. split; [| done]. rewrite <- Hcur. apply Hframe.
        -- intros E. apply fileKey_inj in E. done.
        -- intros E; revert E. by eapply fileKey_ne_versionKey.
        -- intros E; revert E. by eapply fileKey_ne_versionKey.
      * destruct (decide (k = commitKeyOf (pr_targetRepoId pr) f (clock (ticks w))))
          as [-> | Hkne].
        -- exists (commitKeyOf (pr_targetRepoId pr) f (clock (ticks w))), cm,
             (uploadCommitData (mergeMessage id pr) (clock (ticks w)) u).
           split; [done |]. split; [done |].
           split; [by rewrite Hcmb |]. apply commitData_message.
        -- exists k, cm', doc. split; [| done]. rewrite <- Hk. apply Hframe.
           ++ by eapply commitsPrefix_ne_fileKey.
           ++ by eapply commitsPrefix_ne_historyKey.
           ++ done.
Qed.

Lemma mergeFiles_transfers files :
  ∀ n w,
    initialized w = true →
    currentUser w = Some u →
    source_intact pr w0 w →
    ∃ n' w',
      mergeFiles id pr u files n w = (n', w')
      ∧ initialized w' = true ∧ currentUser w' = Some u
      ∧ pullRequests w' = pullRequests w ∧ notifications w' = notifications w
      ∧ ∀ g c, transferable (pr_sourceRepoId pr) g c w0 →
          g ∈ files ∨ transferred (pr_targetRepoId pr) g (content_bytes c)
                                  (mergeMessage id pr) w →
          transferred (pr_targetRepoId pr) g (content_bytes c)
                      (mergeMessage id pr) w'.
Proof.
  induction files as [|f files IH]; intros n w Hinit Hu Hintact; simpl.
  - exists n, w. split_and!; try done.
    intros g c _ [Hin | Hdone]; [by apply elem_of_nil in Hin | done].
  - destruct (mergeFile id pr u f w) as [ok w1] eqn:Hstep.
    destruct (mergeFile_step f w ok w1 Hinit Hu Hintact Hstep)
      as (Hi1 & Hu1 & Hp1 & Hn1 & Hintact1 & Hkeep).
    destruct (IH (if ok then S n else n) w1 Hi1 Hu1 Hintact1)
      as (n' & w' & Hrun & Hi' & Hu' & Hp' & Hn' & Hall).
    exists n', w'. rewrite Hrun.
    split_and!; try congruence.
    intros g c Hg Hor. apply Hall; [done |].
    destruct Hor as [Hin | Hdone].
    + apply elem_of_cons in Hin as [-> | Hin]; [| by left].
      right. apply Hkeep; [done | by left].
    + right. apply Hkeep; [done | by right].
Qed.

End Merge.

(** What the transfer loop makes of a stored file: the download hands
    over the bytes of a file read as binary, and the decoded bytes of a
    file read as text, which the loop skips when they are empty. *)
Lemma transferable_of_source repoId f src w :
  initialized w = true →
  s3_get (fileKeyOf repoId f) w = Some src →
  (includes "text" (ContentType src) || isTextFile f = true →
   TextDecoder_decode (body_bytes (Body src)) ≠ "") →
  ∃ content,
    transferable repoId f content w
    ∧ content_bytes content
      = if includes "text" (ContentType src) || isTextFile f
        then TextEncoder_encode (TextDecoder_decode (body_bytes (Body src)))
        else body_bytes (Body src).
Proof.
  intros Hinit Hsrc Hnonempty.
  unfold transferable, getFileContent, downloadFileFromS3.
  rewrite Hinit, Hsrc. simpl.
  destruct (includes "text" (ContentType src) || isTextFile f) eqn:Htext.
  - eexists. split; [eexists; split; [reflexivity |] | reflexivity].
    simpl. apply negb_true_iff, String.eqb_neq. by apply Hnonempty.
  - eexists. split; [eexists; split; [reflexivity |] | reflexivity]. done.
Qed.

(** A commit-metadata record below the prefix of a file shows in its
    history, when the listing fits one page. *)
Lemma history_lists_record repoId f w k c doc :
  initialized w = true →
  fits_one_page (commitsPrefix repoId f) w →
  s3_get k w = Some c →
  String.prefix (commitsPrefix repoId f) k = true →
  parse_body (Body c) = Some doc →
  ∃ commits entry,
    getFileCommitHistory repoId f w = Success commits
    ∧ entry ∈ commits
    ∧ ∀ key, key ≠ "id" → prop entry key = prop doc key.
Proof.
  intros Hinit Hfits Hk Hpfx Hdoc.
  assert (Hin : (k, c) ∈ s3_list (commitsPrefix repoId f) w)
    by by apply elem_of_s3_list_fits.
  unfold getFileCommitHistory. rewrite Hinit. simpl.
  destruct (s3_list (commitsPrefix repoId f) w) as [|item items] eqn:Hl.
  { by apply elem_of_nil in Hin. }
  eexists _, _. split; [reflexivity |]. split.
  - apply elem_of_Array_sort, list_elem_of_omap. exists (k, c).
    split; [done |]. unfold commit_entry. simpl. by rewrite Hdoc.
  - intros key Hkey. unfold prop. by rewrite lookup_insert_ne.
Qed.


(** ** Changed files *)

Lemma fileMap_lookup_go files (m : gmap string FileInfo) n :
  is_Some (foldl (λ m f, <[fi_name f := f]> m) m files !! n)
  ↔ is_Some (m !! n) ∨ n ∈ map fi_name files.
Proof.
  revert m. induction files as [|f files IH]; intros m; simpl.
  - rewrite elem_of_nil. tauto.
  - rewrite IH, elem_of_cons, lookup_insert_is_Some.
    destruct (decide (fi_name f = n)) as [-> | Hne]; [tauto |].
    split.
    + intros [[? | [_ ?]] | ?]; [congruence | tauto | tauto].
    + intros [? | [? | ?]]; [tauto | congruence | tauto].
Qed.

Lemma fileMap_lookup files n :
  is_Some (fileMap files !! n) ↔ n ∈ map fi_name files.
Proof.
  unfold fileMap. rewrite fileMap_lookup_go, lookup_empty.
  split; [intros [[? [=]] | ?]; done | by right].
Qed.

(** What [getChangedFiles] computes: the names listed in the source that
    the listing of the target lacks.  The time stamps play no part. *)
Lemma getChangedFiles_reports_missing_names src dst w changed :
  getChangedFiles src dst w = Success changed →
  ∃ sourceFiles targetFiles,
    listRepositoryFiles src w = Success sourceFiles
    ∧ listRepositoryFiles dst w = Success targetFiles
    ∧ ∀ n, n ∈ changed
           ↔ n ∈ map fi_name sourceFiles ∧ n ∉ map fi_name targetFiles.
Proof.
  unfold getChangedFiles.
  destruct (currentUser w); [| discriminate].
  destruct (listRepositoryFiles src w) as [sf|]; [| discriminate].
  destruct (listRepositoryFiles dst w) as [tf|]; [| discriminate].
  intros [= <-]. exists sf, tf. split; [done |]. split; [done |].
  intros n. rewrite list_elem_of_omap, list_elem_of_fmap. split.
  - intros (f & Hf & Hn).
    destruct (fileMap tf !! fi_name f) as [t|] eqn:Hl; simpl in Hn.
    + done.
    + injection Hn as <-. split; [by exists f |].
      intros Hin. apply fileMap_lookup in Hin as [? Hin]. congruence.
  - intros [(f & -> & Hf) Hnot]. exists f. split; [done |].
    destruct (fileMap tf !! fi_name f) as [t|] eqn:Hl; [| done].
    exfalso. apply Hnot, fileMap_lookup. by rewrite Hl.
Qed.

End Properties.

(** * The scenarios, run *)

Section Runs.
#[local] Existing Instance demo_platform.

(** C1 at work: alice's first commit of [readme.txt]. *)
Lemma commit_then_history_and_version_witness :
  (∃ record doc,
      s3_get (commitKeyOf "repo1" "readme.txt" T_init) w_committed = Some record
      ∧ String.prefix (commitsPrefix "repo1" "readme.txt")
                      (commitKeyOf "repo1" "readme.txt" T_init) = true
      ∧ parse_body (Body record) = Some doc
      ∧ prop doc "timestamp" = JStr T_init
      ∧ prop doc "message" = JStr "init")
  ∧ (fits_one_page (commitsPrefix "repo1" "readme.txt") w_committed →
     ∃ commits entry,
       getFileCommitHistory "repo1" "readme.txt" w_committed = Success commits
       ∧ entry ∈ commits
       ∧ prop entry "timestamp" = JStr T_init
       ∧ prop entry "message" = JStr "init")
  ∧ getFileVersion "repo1" "readme.txt" T_init false w_committed
    = Success (TextDecoder_decode (TextEncoder_encode "hello"))
  ∧ (TextDecoder_decode (TextEncoder_encode "hello") = "hello" →
     getFileVersion "repo1" "readme.txt" T_init false w_committed
     = Success "hello").
Proof.
  apply (commit_then_history_and_version w_empty w_committed
           "repo1" "readme.txt" "hello" "init" T_init None).
  vm_compute. reflexivity.
Defined.

(** The commit of the scenario is listed and reads back as it was
    committed. *)
Example first_commit_is_listed_and_reads_back :
  fits_one_page (commitsPrefix "repo1" "readme.txt") w_committed
  ∧ lists_timestamp T_init
      (getFileCommitHistory "repo1" "readme.txt" w_committed) = true
  ∧ getFileVersion "repo1" "readme.txt" T_init false w_committed
    = Success "hello".
Proof. split_and!; vm_compute; reflexivity. Qed.

(** C1 as stated fails, twice.  A committed text that starts with a
    byte-order mark reads back without it, and one that holds a lone
    surrogate reads back with U+FFFD in its place.  And once [readme.txt]
    has a thousand commit records, all older than the new one, the commit
    that follows is stored but its entry is not in the history listing:
    the listing holds the thousand older entries. *)
Lemma commit_reads_back_changed_and_is_not_listed :
  ((commitFileVersion "repo1" "readme.txt" (BOM ++ "hello") "init" None
      w_empty).1 = Success T_init
   ∧ getFileVersion "repo1" "readme.txt" T_init false w_marked
     = Success "hello"
   ∧ "hello" ≠ BOM ++ "hello"
   ∧ (commitFileVersion "repo1" "readme.txt" ("a" ++ lone_surrogate ++ "b")
        "init" None w_empty).1 = Success T_init
   ∧ getFileVersion "repo1" "readme.txt" T_init false w_surrogate
     = Success ("a" ++ replacement ++ "b")
   ∧ "a" ++ replacement ++ "b" ≠ "a" ++ lone_surrogate ++ "b")
  ∧ ((commitFileVersion "repo1" "readme.txt" "hello" "latest" None
        w_crowded).1 = Success T_init
     ∧ record_prop (commitKeyOf "repo1" "readme.txt" T_init) "timestamp"
                   w_crowded_committed = Some (JStr T_init)
     ∧ entries_of (getFileCommitHistory "repo1" "readme.txt"
                     w_crowded_committed) = 1000
     ∧ ¬ ∃ commits entry,
           getFileCommitHistory "repo1" "readme.txt" w_crowded_committed
             = Success commits
           ∧ entry ∈ commits
           ∧ prop entry "timestamp" = JStr T_init).
Proof.
  split; [split_and!; first [discriminate | vm_compute; reflexivity] |].
  split_and!; [vm_compute; reflexivity .. |].
  intros (commits & entry & Hrun & Hin & Ht).
  assert (Hno : lists_timestamp T_init
                  (getFileCommitHistory "repo1" "readme.txt"
                     w_crowded_committed) = false)
    by (vm_compute; reflexivity).
  rewrite Hrun in Hno. simpl in Hno.
  apply not_true_iff_false in Hno. apply Hno.
  apply existsb_exists. exists entry.
  split; [by apply list_elem_of_In | by apply bool_decide_eq_true_2].
Qed.

(** C8 at work: alice restores her first commit. *)
Lemma restore_is_a_new_commit_witness :
  ∃ content,
    getFileVersion "repo1" "readme.txt" T_init false w_committed
      = Success content
    ∧ commitFileVersion "repo1" "readme.txt" content
        (default "Restored previous version" None ++ " (from " ++
         toLocaleString T_init ++ ")") None w_committed
      = (Success (clock (ticks w_committed)),
         (restoreFileVersion "repo1" "readme.txt" T_init None w_committed).2)
    ∧ getFileVersion "repo1" "readme.txt" (clock (ticks w_committed)) false
        (restoreFileVersion "repo1" "readme.txt" T_init None w_committed).2
      = Success (TextDecoder_decode (TextEncoder_encode content))
    ∧ (TextDecoder_decode (TextEncoder_encode content) = content →
       getFileVersion "repo1" "readme.txt" (clock (ticks w_committed)) false
         (restoreFileVersion "repo1" "readme.txt" T_init None w_committed).2
       = Success content)
    ∧ getFileVersion "repo1" "readme.txt" T_init false
        (restoreFileVersion "repo1" "readme.txt" T_init None w_committed).2
      = Success content
    ∧ s3_get (historyKeyOf "repo1" "readme.txt" T_init)
        (restoreFileVersion "repo1" "readme.txt" T_init None w_committed).2
      = s3_get (historyKeyOf "repo1" "readme.txt" T_init) w_committed
    ∧ s3_get (commitKeyOf "repo1" "readme.txt" T_init)
        (restoreFileVersion "repo1" "readme.txt" T_init None w_committed).2
      = s3_get (commitKeyOf "repo1" "readme.txt" T_init) w_committed
    ∧ (fits_one_page (commitsPrefix "repo1" "readme.txt")
         (restoreFileVersion "repo1" "readme.txt" T_init None w_committed).2 →
       ∃ commits entry,
         getFileCommitHistory "repo1" "readme.txt"
           (restoreFileVersion "repo1" "readme.txt" T_init None w_committed).2
         = Success commits
         ∧ entry ∈ commits
         ∧ prop entry "timestamp" = JStr (clock (ticks w_committed))).
Proof.
  apply (restore_is_a_new_commit w_committed _ "repo1" "readme.txt" T_init None).
  - vm_compute. reflexivity.
  - vm_compute. discriminate.
Defined.

(** C8 as stated fails: the version at [T_init] starts with two byte-order
    marks and reads as a text that starts with one; the restore succeeds,
    and the version at the new timestamp reads without any. *)
Lemma restored_version_reads_differently :
  bytes_at (historyKeyOf "repo1" "readme.txt" T_init) w_two_marks
    = Some (BOM ++ BOM ++ "x")
  ∧ getFileVersion "repo1" "readme.txt" T_init false w_two_marks
    = Success (BOM ++ "x")
  ∧ (restoreFileVersion "repo1" "readme.txt" T_init None w_two_marks).1
    = Success ()
  ∧ clock (ticks w_two_marks) ≠ T_init
  ∧ getFileVersion "repo1" "readme.txt" (clock (ticks w_two_marks)) false
      w_two_marks_restored
    = Success "x"
  ∧ getFileVersion "repo1" "readme.txt" T_init false w_two_marks_restored
    = Success (BOM ++ "x")
  ∧ "x" ≠ BOM ++ "x".
Proof.
  split_and!; [vm_compute; reflexivity .. | | | |].
  - vm_compute. discriminate.
  - vm_compute. reflexivity.
  - vm_compute. reflexivity.
  - discriminate.
Qed.

(** C9 at work: carol looks up alice's private repository. *)
Lemma getRepository_redacts_for_strangers_witness :
  getRepository "repo1" (w_pr carol open)
  = Success {| r_id := Some "repo1"; r_name := "demo";
               r_description := "a demo"; r_ownerId := "alice";
               r_createdAt := "2024-04-01T09:00:00.000Z";
               r_updatedAt := "2024-04-01T09:00:00.000Z";
               r_isPublic := false; r_collaborators := Some [];
               r_forkedFrom := None |}.
Proof.
  apply (getRepository_redacts_for_strangers (w_pr carol open) "repo1"
           demo_repo carol).
  - reflexivity.
  - vm_compute. reflexivity.
  - reflexivity.
  - vm_compute. discriminate.
  - intros l [= <-]. vm_compute. intros Hin.
    apply list_elem_of_singleton in Hin. discriminate.
Defined.

(** C2, the failing input: [a.txt] is listed in both repositories with
    different modification times, and is not reported as changed. *)
Lemma getChangedFiles_misses_modified_file :
  (LastModified <$> s3_get (fileKeyOf "fork1" "a.txt") w_diff)
    = Some "2024-04-05T09:00:00.000Z"
  ∧ (LastModified <$> s3_get (fileKeyOf "repo1" "a.txt") w_diff)
    = Some "2024-04-04T09:00:00.000Z"
  ∧ names_of (listRepositoryFiles "fork1" w_diff) = ["a.txt"]
  ∧ names_of (listRepositoryFiles "repo1" w_diff) = ["a.txt"]
  ∧ getChangedFiles "fork1" "repo1" w_diff = Success [].
Proof. vm_compute. done. Qed.

(** C4, the failing input: the target owner rejects a pull request that
    is already merged; the call succeeds and the status is [rejected]. *)
Lemma merged_pull_request_can_be_rejected :
  pr_status <$> pullRequests (w_pr alice merged) !! "pr1" = Some merged
  ∧ (updatePullRequestStatus "pr1" rejected None (w_pr alice merged)).1
    = Success ()
  ∧ pr_status <$>
      pullRequests (updatePullRequestStatus "pr1" rejected None
                      (w_pr alice merged)).2 !! "pr1"
    = Some rejected.
Proof. vm_compute. done. Qed.

(** C5 at work: carol, neither target owner nor creator, and the open
    pull request. *)
Lemma pull_request_authorization_witness :
  (uid carol ≠ pr_targetOwnerId (demo_pr open merge_files) →
     mergePullRequest "pr1" None (w_pr carol open)
     = (Failure "Only the repository owner can merge this pull request",
        w_pr carol open)
     ∧ ∀ status, status ≠ closed →
         updatePullRequestStatus "pr1" status None (w_pr carol open)
         = (Failure "Only the repository owner can update this pull request",
            w_pr carol open))
  ∧ (pr_status (demo_pr open merge_files) = open →
     ∃ w', updatePullRequestStatus "pr1" closed None (w_pr carol open)
           = (Success (), w')
           ∧ pr_status <$> pullRequests w' !! "pr1" = Some closed)
  ∧ (uid carol = pr_targetOwnerId (demo_pr open merge_files) →
     pr_status (demo_pr open merge_files) ≠ open →
     mergePullRequest "pr1" None (w_pr carol open)
     = (Failure ("This pull request is already " ++
                 status_name (pr_status (demo_pr open merge_files))),
        w_pr carol open)).
Proof.
  apply (pull_request_authorization (w_pr carol open) "pr1"
           (demo_pr open merge_files) carol None).
  - reflexivity.
  - vm_compute. reflexivity.
Defined.

(** C5 as stated fails: carol is neither the target owner nor the creator
    of the pull request, and her close goes through. *)
Lemma close_by_a_stranger_succeeds :
  uid carol ≠ pr_targetOwnerId (demo_pr open merge_files)
  ∧ uid carol ≠ cb_id (pr_createdBy (demo_pr open merge_files))
  ∧ (updatePullRequestStatus "pr1" closed None (w_pr carol open)).1
    = Success ()
  ∧ pr_status <$>
      pullRequests (updatePullRequestStatus "pr1" closed None
                      (w_pr carol open)).2 !! "pr1"
    = Some closed.
Proof.
  split_and!; [discriminate | discriminate | |]; vm_compute; reflexivity.
Qed.

(** C6 at work: alice approves bob's pending change. *)
Lemma approved_commit_is_authored_by_the_approver_witness :
  ∃ w' T current snapshot commit obj' metadata',
    processPendingCommit "repo1" T_pending "readme.txt" true None w_owner
      = (Success (), w')
    ∧ s3_get (fileKeyOf "repo1" "readme.txt") w' = Some current
    ∧ body_bytes (Body current)
      = TextEncoder_encode
          (TextDecoder_decode
             (body_bytes (Body (record_at
                (pendingKeyOf "repo1" "readme.txt" T_pending) w_owner))))
    ∧ s3_get (historyKeyOf "repo1" "readme.txt" T) w' = Some snapshot
    ∧ body_bytes (Body snapshot)
      = TextEncoder_encode
          (TextDecoder_decode
             (body_bytes (Body (record_at
                (pendingKeyOf "repo1" "readme.txt" T_pending) w_owner))))
    ∧ s3_get (commitKeyOf "repo1" "readme.txt" T) w' = Some commit
    ∧ Body commit
      = Json (uploadCommitData
                (approvalMessage
                   (doc_at (pendingMetaKeyOf "repo1" "readme.txt" T_pending)
                           w_owner) alice) T alice)
    ∧ prop (uploadCommitData
              (approvalMessage
                 (doc_at (pendingMetaKeyOf "repo1" "readme.txt" T_pending)
                         w_owner) alice) T alice) "author"
      = JStr (author_of alice)
    ∧ s3_get (pendingMetaKeyOf "repo1" "readme.txt" T_pending) w' = Some obj'
    ∧ parse_body (Body obj') = Some metadata'
    ∧ prop metadata' "processedBy" = JStr (author_of alice)
    ∧ prop metadata' "status" = JStr "approved"
    ∧ prop metadata' "author"
      = prop (doc_at (pendingMetaKeyOf "repo1" "readme.txt" T_pending) w_owner)
             "author"
    ∧ prop metadata' "authorId"
      = prop (doc_at (pendingMetaKeyOf "repo1" "readme.txt" T_pending) w_owner)
             "authorId".
Proof.
  apply (approved_commit_is_authored_by_the_approver w_owner "repo1" T_pending
           "readme.txt" None alice demo_repo
           (record_at (pendingMetaKeyOf "repo1" "readme.txt" T_pending) w_owner)
           (record_at (pendingKeyOf "repo1" "readme.txt" T_pending) w_owner)
           (doc_at (pendingMetaKeyOf "repo1" "readme.txt" T_pending) w_owner)).
  - reflexivity.
  - reflexivity.
  - vm_compute. reflexivity.
  - reflexivity.
  - vm_compute. reflexivity.
  - vm_compute. reflexivity.
  - vm_compute. reflexivity.
  - vm_compute. discriminate.
Defined.

(** C6 as stated fails, twice.  Bob submitted the change and alice
    approved it; the pending record names bob as author, the history of
    the file had no entry and now has one, and its author is alice.  And a
    pending text that starts with a byte-order mark becomes current
    content without it. *)
Lemma approved_commit_author_is_not_the_submitter :
  (record_prop (pendingMetaKeyOf "repo1" "readme.txt" T_pending) "author"
               w_owner
     = Some (JStr "bob@example.com")
   ∧ authors_of (getFileCommitHistory "repo1" "readme.txt" w_owner) = []
   ∧ (processPendingCommit "repo1" T_pending "readme.txt" true None w_owner).1
     = Success ()
   ∧ authors_of (getFileCommitHistory "repo1" "readme.txt" w_approved)
     = [JStr "alice@example.com"]
   ∧ JStr "alice@example.com" ≠ JStr (author_of bob))
  ∧ (bytes_at (pendingKeyOf "repo1" "readme.txt" T_pending) w_marked_pending
       = Some (BOM ++ "hi")
     ∧ (processPendingCommit "repo1" T_pending "readme.txt" true None
          w_marked_pending).1
       = Success ()
     ∧ bytes_at (fileKeyOf "repo1" "readme.txt") w_marked_approved = Some "hi"
     ∧ "hi" ≠ BOM ++ "hi").
Proof.
  split; split_and!;
    first [discriminate | vm_compute; reflexivity].
Qed.

(** C7 at work: alice approves the request she had rejected. *)
Lemma processPendingCommit_overwrites_any_status_witness :
  ∃ w' obj' metadata',
    processPendingCommit "repo1" T_pending "readme.txt" true None w_rejected
      = (Success (), w')
    ∧ s3_get (pendingMetaKeyOf "repo1" "readme.txt" T_pending) w' = Some obj'
    ∧ parse_body (Body obj') = Some metadata'
    ∧ prop metadata' "status" = JStr (decision true).
Proof.
  apply (processPendingCommit_overwrites_any_status w_rejected "repo1"
           T_pending "readme.txt" true None alice demo_repo
           (record_at (pendingMetaKeyOf "repo1" "readme.txt" T_pending) w_rejected)
           (doc_at (pendingMetaKeyOf "repo1" "readme.txt" T_pending) w_rejected)).
  - reflexivity.
  - reflexivity.
  - vm_compute. reflexivity.
  - reflexivity.
  - vm_compute. reflexivity.
  - vm_compute. reflexivity.
  - intros _. vm_compute. eexists. reflexivity.
Defined.

(** C7 as stated fails: the stored status is [rejected], the approval goes
    through all the same, the status becomes [approved] and bob's content,
    which the repository did not hold, becomes the current content. *)
Lemma rejected_request_can_be_approved :
  record_prop (pendingMetaKeyOf "repo1" "readme.txt" T_pending) "status"
              w_rejected
    = Some (JStr "rejected")
  ∧ content_of (getFileContent "repo1" "readme.txt" w_rejected) = None
  ∧ (processPendingCommit "repo1" T_pending "readme.txt" true None
       w_rejected).1
    = Success ()
  ∧ record_prop (pendingMetaKeyOf "repo1" "readme.txt" T_pending) "status"
                w_reapproved
    = Some (JStr "approved")
  ∧ content_of (getFileContent "repo1" "readme.txt" w_reapproved)
    = Some (CString "hello world").
Proof. split_and!; vm_compute; reflexivity. Qed.

(** The listing shows bob's request before and after alice's decision. *)
Example decided_request_is_still_listed :
  statuses_of (getPendingCommitRequests "repo1" w_owner) = [JStr "pending"]
  ∧ statuses_of (getPendingCommitRequests "repo1" w_rejected)
    = [JStr "rejected"]
  ∧ statuses_of (getPendingCommitRequests "repo1" w_approved)
    = [JStr "approved"].
Proof. split_and!; vm_compute; reflexivity. Qed.

(** The later request comes first, the rejected one is still there. *)
Example requests_are_listed_newest_first :
  requests_of (getPendingCommitRequests "repo1" w_two_requests)
  = [(JStr (demo_clock 7), JStr "pending");
     (JStr (demo_clock 0), JStr "rejected")].
Proof. vm_compute. reflexivity. Qed.

(** C10 at work: the listing of [demo] after alice rejected bob's
    request. *)
Lemma pending_requests_listed_whatever_their_status_witness :
  ∃ requests,
    getPendingCommitRequests "repo1" w_rejected = Success requests
    ∧ (∀ k obj doc,
         s3_get k w_rejected = Some obj →
         String.prefix (pendingMetaPrefix "repo1") k = true →
         parse_body (Body obj) = Some doc →
         ∃ e, e ∈ requests
              ∧ request_entry "repo1" (k, obj) = Some e
              ∧ prop e "status" = prop doc "status"
              ∧ prop e "timestamp" = prop doc "timestamp")
    ∧ (∀ requestId fileName approve comment w',
         processPendingCommit "repo1" requestId fileName approve comment
           w_rejected = (Success (), w') →
         ∃ requests' obj' e,
           getPendingCommitRequests "repo1" w' = Success requests'
           ∧ s3_get (pendingMetaKeyOf "repo1" fileName requestId) w' = Some obj'
           ∧ request_entry "repo1"
               (pendingMetaKeyOf "repo1" fileName requestId, obj') = Some e
           ∧ e ∈ requests'
           ∧ prop e "status" = JStr (decision approve))
    ∧ ((∀ e, e ∈ requests → is_Some (getTime (prop e "timestamp"))) →
       StronglySorted not_older requests).
Proof.
  apply (pending_requests_listed_whatever_their_status w_rejected "repo1").
  - reflexivity.
  - vm_compute. reflexivity.
Defined.

(** C10 as stated fails: [demo] has a thousand pending-metadata records
    of 2023 and the one of the request bob has just submitted, which is
    below the pending-meta prefix and carries the status [pending]; the
    owner's listing holds the thousand older requests and not bob's. *)
Lemma request_beyond_the_page_is_not_listed :
  record_prop (pendingMetaKeyOf "repo1" "readme.txt" T_pending) "status"
              w_many_requests
    = Some (JStr "pending")
  ∧ record_prop (pendingMetaKeyOf "repo1" "readme.txt" T_pending) "timestamp"
                w_many_requests
    = Some (JStr T_pending)
  ∧ String.prefix (pendingMetaPrefix "repo1")
                  (pendingMetaKeyOf "repo1" "readme.txt" T_pending) = true
  ∧ entries_of (getPendingCommitRequests "repo1" w_many_requests) = 1000
  ∧ ¬ ∃ requests e,
        getPendingCommitRequests "repo1" w_many_requests = Success requests
        ∧ e ∈ requests
        ∧ prop e "timestamp" = JStr T_pending.
Proof.
  split_and!; [vm_compute; reflexivity .. |].
  intros (requests & e & Hrun & Hin & Ht).
  assert (Hno : lists_timestamp T_pending
                  (getPendingCommitRequests "repo1" w_many_requests) = false)
    by (vm_compute; reflexivity).
  rewrite Hrun in Hno. simpl in Hno.
  apply not_true_iff_false in Hno. apply Hno.
  apply existsb_exists. exists e.
  split; [by apply list_elem_of_In | by apply bool_decide_eq_true_2].
Qed.


(** What the merge of the scenario leaves in [demo]. *)
Example merged_files_of_the_scenario :
  bytes_at (fileKeyOf "repo1" "readme.txt") (mergePullRequest "pr1" None w_merge).2
    = Some "hello from the fork"
  ∧ bytes_at (fileKeyOf "repo1" "logo.png") (mergePullRequest "pr1" None w_merge).2
    = Some "PNG"
  ∧ bytes_at (fileKeyOf "repo1" "missing.txt")
             (mergePullRequest "pr1" None w_merge).2
    = None.
Proof. split_and!; vm_compute; reflexivity. Qed.


End Runs.

(** * Further properties *)

Section MoreProperties.
Context `{!Platform}.

(** ** More on strings and keys *)

Lemma append_assoc (a b c : string) : (a ++ b) ++ c = a ++ b ++ c.
Proof.
  induction a as [|x a IH]; [done |].
  by rewrite !append_cons, IH.
Qed.

Lemma substring_whole (s : string) : String.substring 0 (String.length s) s = s.
Proof. induction s as [|x s IH]; simpl; [done | by rewrite IH]. Qed.

(** What is left of a key once the prefix is cut off. *)
Lemma substring_after_prefix (p s : string) :
  String.substring (String.length p)
                   (String.length (p ++ s) - String.length p) (p ++ s) = s.
Proof.
  rewrite length_append.
  replace (String.length p + String.length s - String.length p)
    with (String.length s) by lia.
  induction p as [|x p IH]; simpl; [apply substring_whole | exact IH].
Qed.

Lemma split_slash_go_not_nil acc s : split_slash_go acc s ≠ [].
Proof.
  revert acc. induction s as [|c s IH]; intros acc; simpl; [done |].
  destruct (Ascii.eqb c slash); [done | apply IH].
Qed.

Lemma split_slash_go_slash_free acc f :
  has_slash f = false →
  split_slash_go acc f = [String.rev_app acc f].
Proof.
  revert acc. induction f as [|c f IH]; intros acc Hf; simpl in *.
  - done.
  - apply orb_false_iff in Hf as [Hc Hf]. rewrite Hc.
    rewrite IH by done. done.
Qed.

Lemma last_cons_not_nil {A} (x : A) l d : l ≠ [] → List.last (x :: l) d = List.last l d.
Proof. by destruct l. Qed.

Lemma split_slash_go_last acc s f :
  has_slash f = false →
  List.last (split_slash_go acc (s ++ String slash f)) "" = f.
Proof.
  intros Hf. revert acc. induction s as [|c s IH]; intros acc.
  - change ("" ++ String slash f) with (String slash f). simpl.
    rewrite split_slash_go_slash_free by done. done.
  - rewrite append_cons. simpl. destruct (Ascii.eqb c slash).
    + rewrite last_cons_not_nil by apply split_slash_go_not_nil. apply IH.
    + apply IH.
Qed.

Lemma fileKey_filesPrefix repoId f : fileKeyOf repoId f = filesPrefix repoId ++ f.
Proof. unfold fileKeyOf, filesPrefix. by rewrite !append_assoc. Qed.

(** The listing name of a slash-free file is the file name. *)
Lemma last_segment_fileKey repoId f :
  has_slash f = false → last_segment (fileKeyOf repoId f) = f.
Proof.
  intros Hf. unfold last_segment, split_slash, fileKeyOf.
  change ("/files/" ++ f) with ("/files" ++ String slash f).
  rewrite <- !append_assoc. by apply split_slash_go_last.
Qed.

(** ** Upload, download and the file listing *)

(** What a successful upload leaves behind. *)
Lemma uploadFileToS3_success repoId fileName content contentType w url w' :
  uploadFileToS3 repoId fileName content contentType w = (Success url, w') →
  ∃ u, initialized w = true ∧ currentUser w = Some u
    ∧ content_truthy content = true
    ∧ initialized w' = true ∧ currentUser w' = Some u
    ∧ repositories w' = repositories w ∧ pullRequests w' = pullRequests w
    ∧ notifications w' = notifications w
    ∧ s3_get (fileKeyOf repoId fileName) w'
      = Some {| Body := Raw (content_bytes content);
                ContentType := finalContentType contentType fileName;
                Metadata := [("user-id", uid u);
                             ("uploaded-at", clock (ticks w));
                             ("original-filename", fileName)];
                LastModified := clock (S (ticks w)) |}
    ∧ ∀ k, k ≠ fileKeyOf repoId fileName → s3_get k w' = s3_get k w.
Proof.
  unfold uploadFileToS3, getFileSignedUrl.
  destruct (initialized w) eqn:Hinit; [| discriminate]. simpl.
  destruct (currentUser w) as [u|] eqn:Hu; [| discriminate].
  destruct (content_truthy content) eqn:Ht; [| discriminate]. simpl.
  rewrite Hinit. simpl. intros [= <- <-]. exists u.
  split_and!; try done.
  - rewrite s3_get_put_eq. by destruct content.
  - intros k Hk. by rewrite s3_get_put_ne.
Qed.

(** An upload goes through for a signed-in caller and non-empty content. *)
Lemma uploadFileToS3_run repoId fileName content contentType w u :
  initialized w = true → currentUser w = Some u →
  content_truthy content = true →
  ∃ url w', uploadFileToS3 repoId fileName content contentType w
            = (Success url, w').
Proof.
  intros Hinit Hu Ht. unfold uploadFileToS3, getFileSignedUrl.
  repeat (rewrite ?Hinit, ?Hu, ?Ht; simpl). by eexists _, _.
Qed.

Lemma or_str_empty_r (s : string) : or_str s "" = s.
Proof. unfold or_str. destruct (String.eqb s "") eqn:E; [| done].
  by apply String.eqb_eq in E. Qed.

(** X1: a successful upload reads back.  The bucket holds the uploaded
    bytes under the key of the file, and the download that follows returns
    the metadata the upload stored (caller, upload time, file name) and
    the content: the string the uploaded bytes decode to when the stored
    content type holds [text] or the file name has a text extension, the
    uploaded bytes otherwise.  So a file with a text extension comes back
    as the decoded string, and a file without one that was uploaded with
    no content type or with [text/plain] comes back as binary, even if a
    string was uploaded. *)
Theorem upload_then_download
    (w w' : World) (repoId fileName contentType : string)
    (content : FileContent) (url : option string) :
  uploadFileToS3 repoId fileName content contentType w = (Success url, w') →
  ∃ u content',
    currentUser w = Some u
    ∧ holds repoId fileName (content_bytes content) w'
    ∧ downloadFileFromS3 repoId fileName w'
      = Success (content', [("user-id", uid u);
                            ("uploaded-at", clock (ticks w));
                            ("original-filename", fileName)])
    ∧ content'
      = (if includes "text" (finalContentType contentType fileName)
            || isTextFile fileName
         then CString (TextDecoder_decode (content_bytes content))
         else CBytes (content_bytes content))
    ∧ (isTextFile fileName = true →
       content' = CString (TextDecoder_decode (content_bytes content)))
    ∧ (isTextFile fileName = false →
       contentType = "" ∨ contentType = "text/plain" →
       content' = CBytes (content_bytes content)).
Proof.
  intros Hup.
  destruct (uploadFileToS3_success _ _ _ _ _ _ _ Hup)
    as (u & _ & Hu & _ & Hinit' & _ & _ & _ & _ & Hget & _).
  unfold downloadFileFromS3. rewrite Hinit', Hget. simpl.
  eexists u, _. split; [done |].
  split; [eexists; split; [exact Hget | done] |].
  split; [reflexivity |].
  split; [done |]. split.
  - intros Htext. by rewrite Htext, orb_true_r.
  - intros Htext Hct. rewrite Htext, orb_false_r.
    unfold finalContentType. rewrite Htext.
    by destruct Hct as [-> | ->].
Qed.

(** X2: a file uploaded under a name without a slash shows in the file
    listing of the repository, when the keys below the file folder fit
    the one page a listing returns: under that name, with its key as
    path, the length of the uploaded bytes as size and the bucket's time
    stamp of the write. *)
Theorem uploaded_file_is_listed
    (w w' : World) (repoId fileName contentType : string)
    (content : FileContent) (url : option string) :
  has_slash fileName = false →
  uploadFileToS3 repoId fileName content contentType w = (Success url, w') →
  fits_one_page (filesPrefix repoId) w' →
  ∃ files file,
    listRepositoryFiles repoId w' = Success files
    ∧ file ∈ files
    ∧ fi_name file = fileName
    ∧ fi_path file = fileKeyOf repoId fileName
    ∧ fi_size file = String.length (content_bytes content)
    ∧ fi_createdAt file = clock (S (ticks w)).
Proof.
  intros Hf Hup Hfits.
  destruct (uploadFileToS3_success _ _ _ _ _ _ _ Hup)
    as (u & _ & Hu & _ & Hinit' & _ & _ & _ & _ & Hget & _).
  set (obj := {| Body := _ |}) in Hget.
  assert (Hin : (fileKeyOf repoId fileName, obj)
                ∈ s3_list_delim (filesPrefix repoId) w').
  { apply elem_of_s3_list_delim_fits; [done | exact Hget | |].
    - rewrite fileKey_filesPrefix. apply prefix_app.
    - unfold rest_of_key.
      by rewrite fileKey_filesPrefix, substring_after_prefix. }
  unfold listRepositoryFiles. rewrite Hinit'. simpl.
  destruct (s3_list_delim (filesPrefix repoId) w') as [|item items] eqn:Hl.
  { by apply elem_of_nil in Hin. }
  eexists _, _. split; [reflexivity |]. split.
  { apply list_elem_of_fmap. exists (fileKeyOf repoId fileName, obj).
    split; [reflexivity | exact Hin]. }
  simpl. rewrite last_segment_fileKey by done.
  by rewrite or_str_empty_r.
Qed.

(** X3: a file uploaded under a name that holds a slash is stored, the
    bucket holding the uploaded bytes under its key, and downloads; yet no
    entry of the file listing of the repository carries its key: the
    listing reads one level of the file folder only. *)
Theorem file_with_a_slash_is_stored_but_never_listed
    (w w' : World) (repoId fileName contentType : string)
    (content : FileContent) (url : option string) :
  has_slash fileName = true →
  uploadFileToS3 repoId fileName content contentType w = (Success url, w') →
  holds repoId fileName (content_bytes content) w'
  ∧ (∃ metadata,
      downloadFileFromS3 repoId fileName w'
      = Success
          (if includes "text" (finalContentType contentType fileName)
              || isTextFile fileName
           then CString (TextDecoder_decode (content_bytes content))
           else CBytes (content_bytes content), metadata))
  ∧ ∃ files,
      listRepositoryFiles repoId w' = Success files
      ∧ ∀ file, file ∈ files → fi_path file ≠ fileKeyOf repoId fileName.
Proof.
  intros Hf Hup.
  destruct (uploadFileToS3_success _ _ _ _ _ _ _ Hup)
    as (u & _ & Hu & _ & Hinit' & _ & _ & _ & _ & Hget & _).
  split; [eexists; split; [exact Hget | done] |].
  split.
  { unfold downloadFileFromS3. rewrite Hinit', Hget. simpl.
    eexists. reflexivity. }
  assert (Hno : ∀ item, item ∈ s3_list_delim (filesPrefix repoId) w' →
                item.1 ≠ fileKeyOf repoId fileName).
  { intros [k o] Hin Hk. simpl in Hk. subst k.
    apply elem_of_s3_list_delim in Hin as (_ & _ & Hs).
    unfold rest_of_key in Hs.
    rewrite fileKey_filesPrefix, substring_after_prefix in Hs. congruence. }
  unfold listRepositoryFiles. rewrite Hinit'. simpl.
  destruct (s3_list_delim (filesPrefix repoId) w') as [|item items] eqn:Hl.
  { eexists. split; [reflexivity |]. intros file Hin.
    by apply elem_of_nil in Hin. }
  eexists. split; [reflexivity |]. intros file Hin.
  apply list_elem_of_fmap in Hin as (it & -> & Hit). simpl. by apply Hno.
Qed.

(** ** Deleting a file *)

Lemma s3_get_delete_ne k k' w : k ≠ k' → s3_get k' (s3_delete k w) = s3_get k' w.
Proof. intros Hne. unfold s3_get, s3_delete. simpl. by apply lookup_delete_ne. Qed.

Lemma prefix_app_inv (p k : string) :
  String.prefix p k = true → ∃ s, k = p ++ s.
Proof.
  revert k. induction p as [|a p IH]; intros k Hp.
  - by exists k.
  - destruct k as [|b k]; [done |]. simpl in Hp.
    destruct (ascii_dec a b) as [-> |]; [| done].
    destruct (IH _ Hp) as [s ->]. by exists s.
Qed.

Lemma versionsPrefix_ne_fileKey repoId folder c rest f k g :
  folder = String c rest → c ≠ "f"%char →
  String.prefix ("repositories/" ++ repoId ++ "/" ++ folder ++ "/" ++ f ++ "/") k
    = true →
  k ≠ fileKeyOf repoId g.
Proof.
  intros -> Hc Hp ->. apply prefix_app_inv in Hp as [s Hs].
  unfold fileKeyOf in Hs. rewrite !append_assoc in Hs.
  apply (String.app_inj "repositories/") in Hs.
  apply (String.app_inj repoId) in Hs.
  simpl in Hs. rewrite !append_cons in Hs. injection Hs as Hs _. congruence.
Qed.

(** X4: deleting a file needs a configured bucket and nothing else (no
    caller has to be signed in, the file need not exist).  Afterwards the
    download of the file fails with the bucket's missing-key message,
    every other blob is what it was, and so are all versions of the file
    and both of its history listings. *)
Theorem delete_removes_the_current_content_only
    (w : World) (repoId fileName : string) :
  initialized w = true →
  ∃ w',
    deleteFileFromS3 repoId fileName w = (Success (), w')
    ∧ downloadFileFromS3 repoId fileName w' = Failure NoSuchKey_message
    ∧ (∀ k, k ≠ fileKeyOf repoId fileName → s3_get k w' = s3_get k w)
    ∧ (∀ T fromPending,
         getFileVersion repoId fileName T fromPending w'
         = getFileVersion repoId fileName T fromPending w)
    ∧ getFileCommitHistory repoId fileName w'
      = getFileCommitHistory repoId fileName w
    ∧ listFileCommits repoId fileName w' = listFileCommits repoId fileName w.
Proof.
  intros Hinit. unfold deleteFileFromS3. rewrite Hinit. simpl.
  eexists. split; [reflexivity |].
  assert (Hframe : ∀ k, k ≠ fileKeyOf repoId fileName →
            s3_get k (s3_delete (fileKeyOf repoId fileName) w) = s3_get k w).
  { intros k Hk. by apply s3_get_delete_ne. }
  split_and!.
  - unfold downloadFileFromS3, s3_get, s3_delete. simpl. rewrite Hinit. simpl.
    by rewrite lookup_delete_eq.
  - exact Hframe.
  - intros T fromPending. unfold getFileVersion. simpl. rewrite Hinit. simpl.
    rewrite Hframe; [done |].
    intros E; symmetry in E; revert E.
    destruct fromPending; by eapply fileKey_ne_versionKey.
  - unfold getFileCommitHistory. simpl. rewrite Hinit. simpl.
    rewrite (s3_list_ext _ w (s3_delete (fileKeyOf repoId fileName) w)); [done |].
    intros k Hp. apply Hframe. by eapply commitsPrefix_ne_fileKey.
  - unfold listFileCommits. simpl. rewrite Hinit. simpl.
    rewrite (s3_list_delim_ext _ w (s3_delete (fileKeyOf repoId fileName) w));
      [done |].
    intros k Hp. apply Hframe.
    eapply (versionsPrefix_ne_fileKey repoId "history"); [done | done |].
    exact Hp.
Qed.


(** ** Copying the files of a repository *)

Lemma copyFiles_count src tgt files :
  ∀ n errs w n' errs' w',
    copyFiles src tgt files n errs w = (n', errs', w') →
    n' + length errs' = n + length errs + length files.
Proof.
  induction files as [|file rest IH]; intros n errs w n' errs' w' Hrun;
    simpl in Hrun.
  - injection Hrun as <- <- <-. simpl. lia.
  - destruct (copyFile src tgt file w) as [[entry|] w1].
    + apply IH in Hrun. rewrite length_app in Hrun. simpl in *. lia.
    + apply IH in Hrun. simpl in *. lia.
Qed.

Lemma copyError_None errs : copyError errs = None ↔ errs = [].
Proof. by destruct errs. Qed.

(** X5: for a signed-in caller and a configured bucket,
    [copyRepositoryFiles] always reports success; the number of files it
    reports copied is at most the number of files listed in the source,
    and it carries no error message exactly when every listed file was
    copied. *)
Theorem copyRepositoryFiles_counts_the_listed_files
    (w w' : World) (sourceRepoId targetRepoId : string) (r : CopyResult) :
  initialized w = true →
  is_Some (currentUser w) →
  copyRepositoryFiles sourceRepoId targetRepoId w = (r, w') →
  ∃ files copied,
    listRepositoryFiles sourceRepoId w = Success files
    ∧ cr_success r = true
    ∧ cr_filesCopied r = Some copied
    ∧ (copied ≤ length files)%nat
    ∧ (cr_error r = None ↔ copied = length files).
Proof.
  intros Hinit [u Hu]. unfold copyRepositoryFiles. rewrite Hinit, Hu. simpl.
  destruct (listRepositoryFiles sourceRepoId w) as [files|error] eqn:Hl.
  2:{ revert Hl. unfold listRepositoryFiles. rewrite Hinit. simpl.
      by destruct (s3_list_delim _ _). }
  destruct files as [|file rest].
  { intros [= <- <-]. by exists [], 0. }
  destruct (copyFiles _ _ _ _ _ _) as [[n errs] w1] eqn:Hrun.
  intros [= <- <-]. apply copyFiles_count in Hrun. simpl in Hrun.
  exists (file :: rest), n. simpl. split_and!; try done; [lia |].
  rewrite copyError_None. split.
  - intros ->. simpl in Hrun. lia.
  - intros Hn. destruct errs; [done | simpl in Hrun; lia].
Qed.

Section Copy.
Variables (src tgt : string) (u : User) (w0 : World).
Hypothesis Hsrc : has_slash src = false.
Hypothesis Htgt : has_slash tgt = false.
Hypothesis Hdistinct : src ≠ tgt.
Hypothesis Hinit0 : initialized w0 = true.

Lemma source_not_below_target g :
  String.prefix (filesPrefix tgt) (fileKeyOf src g) = false.
Proof.
  destruct (String.prefix _ _) eqn:Hp; [| done].
  apply prefix_app_inv in Hp as [s Hs]. exfalso.
  unfold fileKeyOf, filesPrefix in Hs. rewrite !append_assoc in Hs.
  revert Hs.
  change ("/files/" ++ g) with (String slash ("files/" ++ g)).
  change ("/files/" ++ s) with (String slash ("files/" ++ s)).
  by apply repo_keys_disjoint.
Qed.

Lemma copyFile_step file w failed w1 :
  copy_inv tgt u w0 w →
  copyFile src tgt file w = (failed, w1) →
  copy_inv tgt u w0 w1
  ∧ ∀ g c, transferable src g c w0 →
      g = fi_name file ∨ holds tgt g (content_bytes c) w →
      holds tgt g (content_bytes c) w1.
Proof.
  intros (Hinit & Hu & Hr & Hp & Hn & Hframe) Hstep.
  assert (Hsame : ∀ g, getFileContent src g w = getFileContent src g w0).
  { intros g. apply getFileContent_congr; [congruence |].
    apply Hframe, source_not_below_target. }
  unfold copyFile in Hstep. fold getFileContent in Hstep.
  destruct (getFileContent src (fi_name file) w) as [[content md]|err] eqn:Hdl.
  2:{ injection Hstep as <- <-. split; [done |].
      intros g c (md' & Hg & Ht) [-> | Hdone]; [| done].
      rewrite <- Hsame, Hdl in Hg. discriminate. }
  destruct (content_truthy content) eqn:Htruthy; simpl in Hstep.
  2:{ injection Hstep as <- <-. split; [done |].
      intros g c (md' & Hg & Ht) [-> | Hdone]; [| done].
      rewrite <- Hsame, Hdl in Hg. injection Hg as <- <-. congruence. }
  destruct (uploadFileToS3 tgt (fi_name file) content (fi_contentType file) w)
    as [[url|err] w2] eqn:Hup.
  2:{ exfalso.
      destruct (uploadFileToS3_run tgt (fi_name file) content
                  (fi_contentType file) w u Hinit Hu Htruthy) as (? & ? & E).
      congruence. }
  injection Hstep as <- <-.
  destruct (uploadFileToS3_success _ _ _ _ _ _ _ Hup)
    as (u' & _ & Hu' & _ & Hinit2 & Hu2 & Hr2 & Hp2 & Hn2 & Hget & Hframe2).
  split.
  { split_and!; try congruence.
    intros k Hk. rewrite Hframe2; [by apply Hframe |].
    intros ->. rewrite fileKey_filesPrefix, prefix_app in Hk. discriminate. }
  intros g c (md' & Hg & Ht) [-> | (o & Ho & Hb)].
  - rewrite <- Hsame, Hdl in Hg. injection Hg as <- <-.
    eexists. split; [exact Hget | done].
  - destruct (decide (g = fi_name file)) as [-> | Hne].
    + rewrite <- Hsame, Hdl in Hg. injection Hg as <- <-.
      eexists. split; [exact Hget | done].
    + exists o. split; [| done]. rewrite Hframe2; [done |].
      intros E. by apply fileKey_inj in E.
Qed.

Lemma copyFiles_copies files :
  ∀ n errs w n' errs' w',
    copy_inv tgt u w0 w →
    copyFiles src tgt files n errs w = (n', errs', w') →
    copy_inv tgt u w0 w'
    ∧ ∀ g c, transferable src g c w0 →
        g ∈ map fi_name files ∨ holds tgt g (content_bytes c) w →
        holds tgt g (content_bytes c) w'.
Proof.
  induction files as [|file rest IH]; intros n errs w n' errs' w' Hinv Hrun;
    simpl in Hrun.
  - injection Hrun as <- <- <-. split; [done |].
    intros g c _ [Hin | Hdone]; [by apply elem_of_nil in Hin | done].
  - destruct (copyFile src tgt file w) as [failed w1] eqn:Hstep.
    destruct (copyFile_step _ _ _ _ Hinv Hstep) as (Hinv1 & Hkeep).
    assert (Hrest : copyFiles src tgt rest
                      (if failed is Some _ then n else S n)
                      (if failed is Some entry then (errs ++ [entry])%list
                       else errs) w1 = (n', errs', w')).
    { by destruct failed. }
    destruct (IH _ _ _ _ _ _ Hinv1 Hrest) as (Hinv' & Hall).
    split; [done |].
    intros g c Htr Hg. apply Hall; [done |].
    simpl in Hg. rewrite elem_of_cons in Hg.
    destruct Hg as [[-> | Hin] | Hdone].
    + right. apply Hkeep; [done | by left].
    + by left.
    + right. apply Hkeep; [done | by right].
Qed.

End Copy.

(** X6: copying between two different repositories whose ids hold no
    slash.  Every listed file the source holds is downloaded: as its
    bytes when neither its content type holds [text] nor its name has a
    text extension, as the string its bytes decode to otherwise.  Unless
    that string is empty, the target afterwards holds the file: with the
    bytes of the source when it was read as binary, with the bytes of the
    source decoded and encoded again when it was read as text.  No blob
    outside the file folder of the target changes, so the copy has no
    history in the target and the source is listed as before; the
    documents and notifications are untouched. *)
Theorem copyRepositoryFiles_copies_into_the_file_folder_only
    (w w' : World) (sourceRepoId targetRepoId : string) (r : CopyResult)
    (u : User) :
  initialized w = true →
  currentUser w = Some u →
  has_slash sourceRepoId = false →
  has_slash targetRepoId = false →
  sourceRepoId ≠ targetRepoId →
  copyRepositoryFiles sourceRepoId targetRepoId w = (r, w') →
  ∃ files,
    listRepositoryFiles sourceRepoId w = Success files
    ∧ (∀ file src,
         file ∈ files →
         s3_get (fileKeyOf sourceRepoId (fi_name file)) w = Some src →
         (includes "text" (ContentType src) || isTextFile (fi_name file) = true →
          TextDecoder_decode (body_bytes (Body src)) ≠ "") →
         holds targetRepoId (fi_name file)
           (if includes "text" (ContentType src) || isTextFile (fi_name file)
            then TextEncoder_encode (TextDecoder_decode (body_bytes (Body src)))
            else body_bytes (Body src)) w')
    ∧ (∀ k, String.prefix (filesPrefix targetRepoId) k = false →
            s3_get k w' = s3_get k w)
    ∧ (∀ f, getFileCommitHistory targetRepoId f w'
            = getFileCommitHistory targetRepoId f w)
    ∧ listRepositoryFiles sourceRepoId w' = Success files
    ∧ repositories w' = repositories w
    ∧ notifications w' = notifications w.
Proof.
  intros Hinit Hu Hsrc Htgt Hne.
  assert (Hinv : copy_inv targetRepoId u w w) by done.
  assert (Hgoal : ∀ files w1,
            listRepositoryFiles sourceRepoId w = Success files →
            copy_inv targetRepoId u w w1 →
            (∀ g c, transferable sourceRepoId g c w →
               g ∈ map fi_name files →
               holds targetRepoId g (content_bytes c) w1) →
            (∀ file src,
                 file ∈ files →
                 s3_get (fileKeyOf sourceRepoId (fi_name file)) w = Some src →
                 (includes "text" (ContentType src)
                  || isTextFile (fi_name file) = true →
                  TextDecoder_decode (body_bytes (Body src)) ≠ "") →
                 holds targetRepoId (fi_name file)
                   (if includes "text" (ContentType src)
                       || isTextFile (fi_name file)
                    then TextEncoder_encode
                           (TextDecoder_decode (body_bytes (Body src)))
                    else body_bytes (Body src)) w1)
            ∧ (∀ k, String.prefix (filesPrefix targetRepoId) k = false →
                    s3_get k w1 = s3_get k w)
            ∧ (∀ f, getFileCommitHistory targetRepoId f w1
                    = getFileCommitHistory targetRepoId f w)
            ∧ listRepositoryFiles sourceRepoId w1 = Success files
            ∧ repositories w1 = repositories w
            ∧ notifications w1 = notifications w).
  { intros files w1 Hl (Hi1 & Hu1 & Hr1 & Hp1 & Hn1 & Hframe) Hall.
    split_and!; try done.
    - intros file src Hin Hsource Hnonempty.
      destruct (transferable_of_source sourceRepoId (fi_name file) src w
                  Hinit Hsource Hnonempty) as (content & Htr & <-).
      apply Hall; [done |].
      apply list_elem_of_fmap. by exists file.
    - intros f. unfold getFileCommitHistory. rewrite Hi1, Hinit. simpl.
      rewrite (s3_list_ext _ w w1); [done |].
      intros k Hk. apply Hframe.
      destruct (String.prefix (filesPrefix targetRepoId) k) eqn:Hp; [| done].
      apply prefix_app_inv in Hp as [s ->]. exfalso.
      rewrite <- fileKey_filesPrefix in Hk. revert Hk.
      intros Hk. by eapply commitsPrefix_ne_fileKey in Hk.
    - rewrite <- Hl. unfold listRepositoryFiles. rewrite Hi1, Hinit. simpl.
      rewrite (s3_list_delim_ext _ w w1); [done |].
      intros k Hk. apply Hframe.
      apply prefix_app_inv in Hk as [s ->].
      rewrite <- fileKey_filesPrefix.
      by apply source_not_below_target. }
  unfold copyRepositoryFiles. rewrite Hinit, Hu. simpl.
  destruct (listRepositoryFiles sourceRepoId w) as [files|error] eqn:Hl.
  2:{ revert Hl. unfold listRepositoryFiles. rewrite Hinit. simpl.
      by destruct (s3_list_delim _ _). }
  destruct files as [|file rest].
  { intros [= <- <-]. exists []. split; [done |].
    apply Hgoal; [done | done |].
    intros g c _ Hin. by apply elem_of_nil in Hin. }
  destruct (copyFiles _ _ _ _ _ _) as [[n errs] w1] eqn:Hrun.
  intros [= <- <-].
  edestruct (copyFiles_copies sourceRepoId targetRepoId u w) as (Hinv1 & Hall);
    [done | done | done | done | exact Hinv | exact Hrun |].
  exists (file :: rest). split; [done |].
  apply Hgoal; [done | done |].
  intros g c Htr Hin. apply Hall; [done | by left].
Qed.


(** ** The two history listings *)

Lemma has_slash_app (a b : string) :
  has_slash (a ++ b) = has_slash a || has_slash b.
Proof.
  induction a as [|x a IH]; [done |].
  rewrite append_cons. simpl. by rewrite IH, orb_assoc.
Qed.

Lemma historyKey_historyPrefix repoId f t :
  historyKeyOf repoId f t = historyPrefix repoId f ++ t ++ ".txt".
Proof.
  unfold historyKeyOf, versionKeyOf, historyPrefix.
  change ("/" ++ "history" ++ "/" ++ f ++ "/" ++ t ++ ".txt")
    with ("/history/" ++ f ++ "/" ++ t ++ ".txt").
  by rewrite !append_assoc.
Qed.

Lemma commitKey_commitsPrefix repoId f t :
  commitKeyOf repoId f t = commitsPrefix repoId f ++ t ++ ".json".
Proof.
  unfold commitKeyOf, versionKeyOf, commitsPrefix.
  change ("/" ++ "commits" ++ "/" ++ f ++ "/" ++ t ++ ".json")
    with ("/commits/" ++ f ++ "/" ++ t ++ ".json").
  by rewrite !append_assoc.
Qed.

Lemma historyKey_below_folder repoId folder name t :
  historyKeyOf repoId (folder ++ "/" ++ name) t
  = historyPrefix repoId folder ++ name ++ "/" ++ t ++ ".txt".
Proof.
  unfold historyKeyOf, versionKeyOf, historyPrefix.
  by rewrite !append_assoc.
Qed.

Lemma listFileCommits_run repoId f w :
  initialized w = true →
  listFileCommits repoId f w
  = Success (Array_sort by_commit_time_desc
               (map file_commit (s3_list_delim (historyPrefix repoId f) w))).
Proof.
  intros Hinit. unfold listFileCommits. rewrite Hinit. simpl.
  by destruct (s3_list_delim _ _).
Qed.

(** X7: after a successful commit whose timestamp holds no slash,
    [listFileCommits] lists the history snapshot of the commit when the
    keys below the history folder of the file fit the one page a listing
    returns: its key, the length of the encoded content, the commit
    message, the id and e-mail of the caller and the previous version
    passed to the commit. *)
Theorem commit_shows_in_listFileCommits
    (w w' : World) (repoId fileName fileContent commitMessage T : string)
    (previous : option string) :
  commitFileVersion repoId fileName fileContent commitMessage previous w
    = (Success T, w') →
  has_slash T = false →
  fits_one_page (historyPrefix repoId fileName) w' →
  ∃ u commits c,
    currentUser w = Some u
    ∧ listFileCommits repoId fileName w' = Success commits
    ∧ c ∈ commits
    ∧ fc_key c = historyKeyOf repoId fileName T
    ∧ fc_size c = String.length (TextEncoder_encode fileContent)
    ∧ fc_commitMessage c = commitMessage
    ∧ fc_userId c = uid u
    ∧ fc_userEmail c = or_opt (email u) ""
    ∧ fc_previousVersion c = or_opt previous "".
Proof.
  intros Hc HT Hfits.
  destruct (commitFileVersion_success _ _ _ _ _ _ _ _ Hc)
    as (u & _ & Hu & _ & Hinit' & Hhist & _).
  set (obj := {| Body := _ |}) in Hhist.
  exists u. rewrite (listFileCommits_run _ _ _ Hinit').
  eexists _, (file_commit (historyKeyOf repoId fileName T, obj)).
  split; [done |]. split; [reflexivity |]. split; [| done].
  apply elem_of_Array_sort, list_elem_of_fmap. eexists. split; [reflexivity |].
  apply elem_of_s3_list_delim_fits; [done | exact Hhist | |].
  - rewrite historyKey_historyPrefix. apply prefix_app.
  - unfold rest_of_key.
    rewrite historyKey_historyPrefix, substring_after_prefix, has_slash_app, HT.
    done.
Qed.

(** X8: the history of a name lists the commits of the files below it.
    After a commit of [folder/name], [getFileCommitHistory] of [folder]
    holds the entry of that commit when the keys below the commits folder
    of [folder] fit the one page a listing returns, while
    [listFileCommits] of [folder], which lists with a delimiter, holds no
    entry for its snapshot. *)
Theorem history_of_a_name_lists_the_commits_below_it
    (w w' : World) (repoId folder name fileContent commitMessage T : string)
    (previous : option string) :
  commitFileVersion repoId (folder ++ "/" ++ name) fileContent commitMessage
                    previous w = (Success T, w') →
  (fits_one_page (commitsPrefix repoId folder) w' →
   ∃ commits entry,
     getFileCommitHistory repoId folder w' = Success commits
     ∧ entry ∈ commits
     ∧ prop entry "timestamp" = JStr T
     ∧ prop entry "message" = JStr commitMessage)
  ∧ ∃ commits,
      listFileCommits repoId folder w' = Success commits
      ∧ ∀ c, c ∈ commits →
             fc_key c ≠ historyKeyOf repoId (folder ++ "/" ++ name) T.
Proof.
  intros Hc.
  destruct (commitFileVersion_success _ _ _ _ _ _ _ _ Hc)
    as (u & _ & Hu & _ & Hinit' & _ & Hcommit & _).
  split.
  - intros Hfits.
    destruct (history_lists_record repoId folder w' _ _
                (commitData commitMessage T u previous) Hinit' Hfits Hcommit)
      as (commits & entry & Hl & Hin & Hprop).
    + rewrite commitKey_commitsPrefix. unfold commitsPrefix.
      rewrite !append_assoc.
      rewrite (prefix_cancel "repositories/"), (prefix_cancel repoId),
        (prefix_cancel "/commits/"), (prefix_cancel folder).
      apply prefix_app.
    + done.
    + exists commits, entry. split; [done |]. split; [done |].
      rewrite !Hprop by done.
      split; [apply commitData_timestamp | apply commitData_message].
  - rewrite (listFileCommits_run _ _ _ Hinit'). eexists. split; [reflexivity |].
    intros c Hin Hk.
    apply elem_of_Array_sort, list_elem_of_fmap in Hin as ([k o] & -> & Hin).
    simpl in Hk. subst k.
    apply elem_of_s3_list_delim in Hin as (_ & _ & Hs).
    unfold rest_of_key in Hs. rewrite historyKey_below_folder in Hs.
    rewrite substring_after_prefix, !has_slash_app in Hs.
    simpl in Hs. by rewrite orb_true_r in Hs.
Qed.


(** ** Commits *)

Lemma getFileCommitHistory_run repoId f w :
  initialized w = true →
  getFileCommitHistory repoId f w
  = Success (Array_sort by_date_desc
               (omap commit_entry (s3_list (commitsPrefix repoId f) w))).
Proof.
  intros Hinit. unfold getFileCommitHistory. rewrite Hinit. simpl.
  by destruct (s3_list _ _).
Qed.

(** X9: a commit sets the current content.  After a successful commit the
    download of the file returns the committed string encoded and decoded,
    as a string whatever the file name, together with the metadata of the
    commit. *)
Theorem committed_content_downloads_as_text
    (w w' : World) (repoId fileName fileContent commitMessage T : string)
    (previous : option string) :
  commitFileVersion repoId fileName fileContent commitMessage previous w
    = (Success T, w') →
  ∃ u,
    currentUser w = Some u
    ∧ downloadFileFromS3 repoId fileName w'
      = Success (CString (TextDecoder_decode (TextEncoder_encode fileContent)),
                 [("user-id", uid u);
                  ("user-email", or_opt (email u) "");
                  ("uploaded-at", T);
                  ("original-filename", fileName)]).
Proof.
  intros Hc.
  destruct (commitFileVersion_success _ _ _ _ _ _ _ _ Hc)
    as (u & _ & Hu & _ & Hinit' & _ & _ & Hfile & _).
  exists u. split; [done |].
  unfold downloadFileFromS3. by rewrite Hinit', Hfile.
Qed.

(** X10: a commit under a timestamp that has no commit record yet keeps
    the earlier history: every entry listed before is listed afterwards
    when the commit records of the file still fit the one page a listing
    returns, every version at another timestamp reads as before, and so
    does every pending version. *)
Theorem commit_keeps_the_earlier_history
    (w w' : World) (repoId fileName fileContent commitMessage T : string)
    (previous : option string) :
  commitFileVersion repoId fileName fileContent commitMessage previous w
    = (Success T, w') →
  s3_get (commitKeyOf repoId fileName T) w = None →
  (∃ before after,
      getFileCommitHistory repoId fileName w = Success before
      ∧ getFileCommitHistory repoId fileName w' = Success after
      ∧ (fits_one_page (commitsPrefix repoId fileName) w' →
         ∀ entry, entry ∈ before → entry ∈ after))
  ∧ (∀ T', T' ≠ T →
       getFileVersion repoId fileName T' false w'
       = getFileVersion repoId fileName T' false w)
  ∧ (∀ T', getFileVersion repoId fileName T' true w'
           = getFileVersion repoId fileName T' true w).
Proof.
  intros Hc Hnew.
  destruct (commitFileVersion_success _ _ _ _ _ _ _ _ Hc)
    as (u & Hinit & _ & _ & Hinit' & _ & _ & _ & Hframe).
  split_and!.
  - rewrite (getFileCommitHistory_run _ _ _ Hinit),
      (getFileCommitHistory_run _ _ _ Hinit').
    eexists _, _. split; [reflexivity |]. split; [reflexivity |].
    intros Hfits entry. rewrite !elem_of_Array_sort, !list_elem_of_omap.
    intros ([k o] & Hin & He). exists (k, o). split; [| done].
    apply elem_of_s3_list in Hin as [Hk Hp].
    apply elem_of_s3_list_fits; [done | | done].
    fold (s3_get k w'). rewrite Hframe; [done | | |].
    + by eapply commitsPrefix_ne_fileKey.
    + by eapply commitsPrefix_ne_historyKey.
    + intros ->. unfold s3_get in Hnew. congruence.
  - intros T' HT. unfold getFileVersion. rewrite Hinit, Hinit'. simpl.
    rewrite Hframe; [done | | |].
    + intros E; symmetry in E; revert E. by eapply fileKey_ne_versionKey.
    + intros E. by apply versionKey_inj_timestamp in E.
    + apply historyKey_ne_commitKey.
  - intros T'. unfold getFileVersion. rewrite Hinit, Hinit'. simpl.
    rewrite Hframe; [done | | |].
    + intros E; symmetry in E; revert E. by eapply fileKey_ne_versionKey.
    + apply repo_key_ne. simpl. intros [=].
    + apply repo_key_ne. simpl. intros [=].
Qed.


(** ** Submitting a pending commit *)

(** A key below the version folder of one kind is not a version key of
    another kind. *)
Lemma versionsPrefix_ne_versionKey repoId folder folder' f k g t ext :
  (∀ x y, "/" ++ folder ++ "/" ++ x ≠ "/" ++ folder' ++ "/" ++ y) →
  String.prefix ("repositories/" ++ repoId ++ "/" ++ folder ++ "/" ++ f ++ "/") k
    = true →
  k ≠ versionKeyOf folder' repoId g t ext.
Proof.
  intros Hdiff Hp ->. apply prefix_app_inv in Hp as [s Hs].
  unfold versionKeyOf in Hs. rewrite !append_assoc in Hs.
  apply (String.app_inj "repositories/") in Hs.
  apply (String.app_inj repoId) in Hs.
  symmetry in Hs. by apply Hdiff in Hs.
Qed.

Lemma pendingKey_ne_pendingMetaKey repoId f t f' t' :
  pendingKeyOf repoId f t ≠ pendingMetaKeyOf repoId f' t'.
Proof. apply repo_key_ne. simpl. intros [=]. Qed.

Lemma pendingKey_ne_fileKey repoId f t f' :
  pendingKeyOf repoId f t ≠ fileKeyOf repoId f'.
Proof. apply repo_key_ne. simpl. intros [=]. Qed.

(** The notification step of [createPendingCommit] touches the
    notifications only. *)
Lemma createPendingCommit_run repoId fileName fileContent msg w u :
  initialized w = true →
  currentUser w = Some u →
  ∃ w',
    createPendingCommit repoId fileName fileContent msg w
      = (Success (clock (ticks w)), w')
    ∧ initialized w' = true ∧ currentUser w' = Some u
    ∧ repositories w' = repositories w ∧ pullRequests w' = pullRequests w
    ∧ bucket w'
      = bucket (s3_put (pendingMetaKeyOf repoId fileName (clock (ticks w)))
                  (Json (pendingCommitData msg (clock (ticks w)) fileName u))
                  "application/json" []
                  (s3_put (pendingKeyOf repoId fileName (clock (ticks w)))
                     (Raw (TextEncoder_encode fileContent)) "text/plain"
                     [("user-id", uid u);
                      ("user-email", or_opt (email u) "");
                      ("commit-message", msg);
                      ("timestamp", clock (ticks w))]
                     (set_ticks (S (ticks w)) w))).
Proof.
  intros Hinit Hu. unfold createPendingCommit. rewrite Hinit, Hu. simpl.
  eexists. split; [reflexivity |].
  match goal with
  | |- context [match getRepository ?r ?x with _ => _ end] =>
      destruct (getRepository r x) as [repository|]; [| done]
  end.
  destruct (negb (String.eqb (r_ownerId repository) (uid u))); [| done].
  match goal with
  | |- context [createNotification ?a ?b ?c ?d ?x] =>
      destruct (createNotification_frame a b c d x) as (Hb & Hi & Hcu & Hr & Hp)
  end.
  cbv zeta in *. by rewrite Hb, Hi, Hcu, Hr, Hp.
Qed.

(** X11: a pending commit changes neither the current content nor the
    history.  After a successful [createPendingCommit] the pending blob at
    the returned timestamp holds the encoded content, and the pending
    version reads as the submitted content encoded and decoded; every
    download, history listing and version of the repository is what it
    was; and the pending requests of the repository list the request with
    status [pending], its timestamp and the submitter as author, when the
    records below the pending-meta prefix fit the one page a listing
    returns. *)
Theorem pending_commit_leaves_the_file_as_it_is
    (w w' : World) (repoId fileName fileContent commitMessage T : string) :
  createPendingCommit repoId fileName fileContent commitMessage w
    = (Success T, w') →
  (∃ pending, s3_get (pendingKeyOf repoId fileName T) w' = Some pending
              ∧ Body pending = Raw (TextEncoder_encode fileContent))
  ∧ getFileVersion repoId fileName T true w'
    = Success (TextDecoder_decode (TextEncoder_encode fileContent))
  ∧ (∀ g, downloadFileFromS3 repoId g w' = downloadFileFromS3 repoId g w)
  ∧ (∀ g, getFileCommitHistory repoId g w' = getFileCommitHistory repoId g w)
  ∧ (∀ g T', getFileVersion repoId g T' false w'
             = getFileVersion repoId g T' false w)
  ∧ ∃ u requests,
      currentUser w = Some u
      ∧ getPendingCommitRequests repoId w' = Success requests
      ∧ (fits_one_page (pendingMetaPrefix repoId) w' →
         ∃ request,
           request ∈ requests
           ∧ prop request "status" = JStr "pending"
           ∧ prop request "timestamp" = JStr T
           ∧ prop request "author" = JStr (author_of u)).
Proof.
  intros Hrun.
  assert (Hinit : initialized w = true).
  { revert Hrun. unfold createPendingCommit.
    by destruct (initialized w). }
  assert (∃ u, currentUser w = Some u) as [u Hu].
  { revert Hrun. unfold createPendingCommit. rewrite Hinit. simpl.
    destruct (currentUser w) as [u|]; [by exists u | done]. }
  destruct (createPendingCommit_run repoId fileName fileContent commitMessage
              w u Hinit Hu) as (w1 & Hrun1 & Hinit' & _ & _ & _ & Hb).
  rewrite Hrun1 in Hrun. injection Hrun as <- <-.
  set (T := clock (ticks w)) in *.
  assert (Hpend : s3_get (pendingKeyOf repoId fileName T) w1
                  = Some {| Body := Raw (TextEncoder_encode fileContent);
                            ContentType := "text/plain";
                            Metadata := [("user-id", uid u);
                                         ("user-email", or_opt (email u) "");
                                         ("commit-message", commitMessage);
                                         ("timestamp", T)];
                            LastModified := clock (S (ticks w)) |}).
  { rewrite (s3_get_bucket _ _ _ Hb).
    rewrite s3_get_put_ne by (symmetry; apply pendingKey_ne_pendingMetaKey).
    by rewrite s3_get_put_eq. }
  assert (Hmeta : s3_get (pendingMetaKeyOf repoId fileName T) w1
                  = Some {| Body := Json (pendingCommitData commitMessage T
                                            fileName u);
                            ContentType := "application/json"; Metadata := [];
                            LastModified := clock (S (S (ticks w))) |}).
  { rewrite (s3_get_bucket _ _ _ Hb). by rewrite s3_get_put_eq. }
  assert (Hframe : ∀ k, k ≠ pendingKeyOf repoId fileName T →
                        k ≠ pendingMetaKeyOf repoId fileName T →
                        s3_get k w1 = s3_get k w).
  { intros k H1 H2. rewrite (s3_get_bucket _ _ _ Hb).
    by rewrite !s3_get_put_ne. }
  split_and!.
  - eexists. split; [exact Hpend | done].
  - unfold getFileVersion. rewrite Hinit'. simpl.
    fold (pendingKeyOf repoId fileName T). by rewrite Hpend.
  - intros g. unfold downloadFileFromS3. rewrite Hinit, Hinit'. simpl.
    rewrite Hframe; [done | |]; intros E; symmetry in E; revert E.
    + apply pendingKey_ne_fileKey.
    + apply pendingMetaKey_ne_fileKey.
  - intros g. rewrite (getFileCommitHistory_run _ _ _ Hinit),
      (getFileCommitHistory_run _ _ _ Hinit').
    rewrite (s3_list_ext _ w w1); [done |].
    intros k Hp. apply Hframe.
    + eapply (versionsPrefix_ne_versionKey repoId "commits" "pending");
        [done | exact Hp].
    + eapply (versionsPrefix_ne_versionKey repoId "commits" "pending-meta");
        [done | exact Hp].
  - intros g T'. unfold getFileVersion. rewrite Hinit, Hinit'. simpl.
    rewrite Hframe; [done | |]; apply repo_key_ne; simpl; intros [=].
  - exists u. rewrite (getPendingCommitRequests_run _ _ Hinit').
    destruct (request_entry_Some repoId (pendingMetaKeyOf repoId fileName T)
                _ _ (eq_refl : parse_body (Body {| Body := Json
                       (pendingCommitData commitMessage T fileName u);
                       ContentType := "application/json"; Metadata := [];
                       LastModified := clock (S (S (ticks w))) |}) = Some _))
      as (e & He & Hs & Ht & Ha & _).
    eexists. split; [done |]. split; [reflexivity |].
    intros Hfits. exists e. split.
    { eapply elem_of_getPendingCommitRequests;
        [done | exact Hmeta | apply pendingMetaKey_has_prefix | done]. }
    rewrite Hs, Ht, Ha. unfold prop, pendingCommitData.
    by simplify_map_eq.
Qed.


Lemma getRepository_ownerId repoId repo u w :
  currentUser w = Some u →
  repositories w !! repoId = Some repo →
  ∃ r, getRepository repoId w = Success r
       ∧ r_ownerId r = r_ownerId repo ∧ r_name r = r_name repo.
Proof.
  intros Hu Hr. unfold getRepository. rewrite Hu, Hr.
  destruct (_ && _); by eexists.
Qed.

Lemma unread_count_app u l n :
  length (filter (λ n, unread_for u n = true) (l ++ [n])%list)
  = length (filter (λ n, unread_for u n = true) l)
    + (if unread_for u n then 1 else 0).
Proof.
  rewrite filter_app, length_app. f_equal.
  rewrite filter_cons, filter_nil.
  destruct (decide (unread_for u n = true)) as [-> | Hn]; [done |].
  by apply not_true_is_false in Hn as ->.
Qed.

(** X12: who is notified of a pending commit.  When the repository exists
    and its owner id is not empty: the owner submitting to their own
    repository creates no notification; anybody else creates exactly one,
    unread, addressed to the owner, of type [commit_request], created by
    the submitter, and the unread count of the owner grows by one. *)
Theorem pending_commit_notifies_the_owner_unless_the_owner_submits
    (w w' : World) (repoId fileName fileContent commitMessage T : string)
    (u : User) (repo : Repository) :
  createPendingCommit repoId fileName fileContent commitMessage w
    = (Success T, w') →
  currentUser w = Some u →
  repositories w !! repoId = Some repo →
  r_ownerId repo ≠ "" →
  (r_ownerId repo = uid u → notifications w' = notifications w)
  ∧ (r_ownerId repo ≠ uid u →
     (∃ n, notifications w' = (notifications w ++ [n])%list
           ∧ n_userId n = JStr (r_ownerId repo)
           ∧ n_type n = "commit_request"
           ∧ n_read n = false
           ∧ n_createdBy n = Some (uid u)
           ∧ prop (n_details n) "commitTimestamp" = JStr T
           ∧ prop (n_details n) "requesterId" = JStr (uid u))
     ∧ ∀ owner count,
         uid owner = r_ownerId repo →
         getUnreadNotificationsCount (sign_in owner w) = Success count →
         getUnreadNotificationsCount (sign_in owner w') = Success (S count)).
Proof.
  intros Hrun Hu Hrepo Howner.
  assert (Hinit : initialized w = true).
  { revert Hrun. unfold createPendingCommit. by destruct (initialized w). }
  revert Hrun. unfold createPendingCommit. rewrite Hinit, Hu. simpl.
  match goal with
  | |- context [getRepository repoId ?x] =>
      destruct (getRepository_ownerId repoId repo u x Hu Hrepo)
        as (r & -> & Ho & Hn)
  end.
  rewrite Ho.
  destruct (String.eqb (r_ownerId repo) (uid u)) eqn:Heq; simpl.
  - apply String.eqb_eq in Heq. intros [= <- <-]. split; [done |].
    intros Hne. done.
  - apply String.eqb_neq in Heq.
    unfold createNotification. simpl.
    apply String.eqb_neq in Howner. rewrite Howner. simpl. rewrite Hu. simpl.
    intros [= <- <-]. split; [done |]. intros _. split.
    + eexists. split; [reflexivity |]. simpl.
      split_and!; try done; unfold prop; by simplify_map_eq.
    + intros owner count Huid. unfold getUnreadNotificationsCount. simpl.
      intros [= <-]. f_equal.
      rewrite unread_count_app. unfold unread_for at 3. simpl.
      rewrite Huid, bool_decide_eq_true_2 by done. simpl. lia.
Qed.

(** ** Deciding a pending commit *)

(** X14: a rejection rewrites the metadata record of the request and
    nothing else in the bucket: every other blob, the current content, the
    history and the pending version itself are what they were, and the
    record is the old one with the decision fields written over. *)
Theorem rejection_rewrites_the_metadata_record_only
    (w w' : World) (repoId requestId fileName : string)
    (comment : option string) :
  processPendingCommit repoId requestId fileName false comment w
    = (Success (), w') →
  (∀ k, k ≠ pendingMetaKeyOf repoId fileName requestId →
        s3_get k w' = s3_get k w)
  ∧ (∀ g, downloadFileFromS3 repoId g w' = downloadFileFromS3 repoId g w)
  ∧ (∀ g, getFileCommitHistory repoId g w' = getFileCommitHistory repoId g w)
  ∧ getFileVersion repoId fileName requestId true w'
    = getFileVersion repoId fileName requestId true w
  ∧ ∃ u metadata,
      currentUser w = Some u
      ∧ record_of (pendingMetaKeyOf repoId fileName requestId) w = Some metadata
      ∧ record_of (pendingMetaKeyOf repoId fileName requestId) w'
        = Some (updatedMetadata metadata "rejected" u (clock (ticks w)) comment).
Proof.
  intros Hrun.
  destruct (processPendingCommit_success_inv _ _ _ _ _ _ _ Hrun)
    as (u & repo & obj & metadata & Hinit & Hu & Hrepo & Ho & Hmeta & Hparse & _).
  revert Hrun. unfold processPendingCommit. rewrite Hinit, Hu. simpl.
  rewrite (getRepository_owner _ _ _ _ Hu Hrepo Ho). simpl.
  rewrite Ho, String.eqb_refl. simpl. rewrite Hmeta, Hparse.
  match goal with
  | |- context [createNotification ?a ?b ?c ?d ?x] =>
      destruct (createNotification_frame a b c d x) as (Hb & Hi & _)
  end.
  cbv zeta in Hb, Hi. intros [= <-].
  assert (Hframe : ∀ k, k ≠ pendingMetaKeyOf repoId fileName requestId →
            s3_get k
              (createNotification (prop metadata "authorId")
                 "commit_request_rejected"
                 ("Your changes to " ++ fileName ++ " have been rejected")
                 (<["repositoryId" := JStr repoId]>
                   (<["repositoryName" :=
                        JStr (r_name (repository_of_doc repoId repo))]>
                     (<["fileName" := JStr fileName]>
                       (<["commitTimestamp" := JStr requestId]>
                         (<["comment" := JStr (or_opt comment "")]> ∅)))))
                 (s3_put (pendingMetaKeyOf repoId fileName requestId)
                    (Json (updatedMetadata metadata "rejected" u
                             (clock (ticks w)) comment))
                    "application/json" [] (set_ticks (S (ticks w)) w))).2
            = s3_get k w).
  { intros k Hk. rewrite (s3_get_bucket _ _ _ Hb). by rewrite s3_get_put_ne. }
  split_and!.
  - exact Hframe.
  - intros g. unfold downloadFileFromS3. rewrite Hi. simpl. rewrite Hinit.
    simpl. rewrite Hframe; [done |].
    intros E; symmetry in E; revert E. apply pendingMetaKey_ne_fileKey.
  - intros g. unfold getFileCommitHistory at 1. rewrite Hi. simpl.
    unfold getFileCommitHistory. rewrite Hinit. simpl.
    match goal with
    | |- context [s3_list ?p ?x] =>
        rewrite (s3_list_ext p w x)
    end; [done |].
    intros k Hp. apply Hframe.
    eapply (versionsPrefix_ne_versionKey repoId "commits" "pending-meta");
      [done | exact Hp].
  - unfold getFileVersion. rewrite Hi. simpl. rewrite Hinit. simpl.
    rewrite Hframe; [done |]. apply pendingKey_ne_pendingMetaKey.
  - exists u, metadata. split; [done |]. unfold record_of.
    rewrite Hmeta. simpl. split; [done |].
    rewrite (s3_get_bucket _ _ _ Hb), s3_get_put_eq. done.
Qed.

(** X15: a signed-in caller who is not the owner of the repository,
    collaborator or not, is refused by [processPendingCommit], approval
    and rejection alike, and the world is left as it was. *)
Theorem only_the_owner_decides_a_pending_commit
    (w : World) (repoId requestId fileName : string) (approve : bool)
    (comment : option string) (u : User) (repo : Repository) :
  initialized w = true →
  currentUser w = Some u →
  repositories w !! repoId = Some repo →
  r_ownerId repo ≠ uid u →
  processPendingCommit repoId requestId fileName approve comment w
  = (Failure "Only the repository owner can approve commit requests", w).
Proof.
  intros Hinit Hu Hrepo Ho.
  unfold processPendingCommit. rewrite Hinit, Hu. simpl.
  destruct (getRepository_ownerId repoId repo u w Hu Hrepo) as (r & -> & Hr & _).
  rewrite Hr. apply String.eqb_neq in Ho. by rewrite Ho.
Qed.

(** X16: approving a pending change whose content is empty succeeds and
    marks the request approved, but applies nothing: the current content
    and the history of the file are what they were, as is every blob but
    the metadata record. *)
Theorem approving_an_empty_change_applies_nothing
    (w : World) (repoId requestId fileName : string)
    (comment : option string) (u : User) (repo : Repository)
    (obj pending : S3Object) (metadata : jobj) :
  initialized w = true →
  currentUser w = Some u →
  repositories w !! repoId = Some repo →
  r_ownerId repo = uid u →
  s3_get (pendingMetaKeyOf repoId fileName requestId) w = Some obj →
  parse_body (Body obj) = Some metadata →
  s3_get (pendingKeyOf repoId fileName requestId) w = Some pending →
  body_bytes (Body pending) = "" →
  ∃ w' metadata',
    processPendingCommit repoId requestId fileName true comment w
      = (Success (), w')
    ∧ record_of (pendingMetaKeyOf repoId fileName requestId) w' = Some metadata'
    ∧ prop metadata' "status" = JStr "approved"
    ∧ (∀ k, k ≠ pendingMetaKeyOf repoId fileName requestId →
            s3_get k w' = s3_get k w)
    ∧ downloadFileFromS3 repoId fileName w' = downloadFileFromS3 repoId fileName w
    ∧ getFileCommitHistory repoId fileName w'
      = getFileCommitHistory repoId fileName w.
Proof.
  intros Hinit Hu Hrepo Ho Hmeta Hparse Hpend Hempty.
  destruct (processPendingCommit_approve_run repoId requestId fileName comment
              w u repo obj metadata pending)
    as (w' & obj' & Hrun & Hinit' & Hget & (t & Hbody) & Hrest); try done.
  rewrite Hempty, TextDecoder_decode_empty in Hrest.
  destruct (uploadFileWithCommit_empty repoId fileName
              (approvalMessage metadata u) u u w Hinit Hu) as (err & Hup).
  rewrite Hup in Hrest. simpl in Hrest.
  assert (Hframe : ∀ k, k ≠ pendingMetaKeyOf repoId fileName requestId →
                        s3_get k w' = s3_get k w).
  { intros k Hk. by rewrite Hrest. }
  exists w', (updatedMetadata metadata "approved" u t comment).
  split_and!; try done.
  - unfold record_of. rewrite Hget. simpl. by rewrite Hbody.
  - apply updatedMetadata_status.
  - unfold downloadFileFromS3. rewrite Hinit, Hinit'. simpl.
    rewrite Hframe; [done |].
    intros E; symmetry in E; revert E. apply pendingMetaKey_ne_fileKey.
  - rewrite (getFileCommitHistory_run _ _ _ Hinit),
      (getFileCommitHistory_run _ _ _ Hinit').
    rewrite (s3_list_ext _ w w'); [done |].
    intros k Hp. apply Hframe.
    eapply (versionsPrefix_ne_versionKey repoId "commits" "pending-meta");
      [done | exact Hp].
Qed.


(** ** Restoring a version *)

(** X17: a successful restore makes the restored version the current
    content.  The version was not empty; the bucket holds it, encoded, as
    the current content of the file, and the download that follows returns
    it encoded and decoded, as a string; the bucket holds a commit record
    at the clock reading of the restore whose message is the given one (or
    the default) followed by the date of the restored version, with no
    previous version; and the history lists that record when the commit
    records of the file fit the one page a listing returns. *)
Theorem restore_makes_the_version_current
    (w w' : World) (repoId fileName T : string) (commitMessage : option string) :
  restoreFileVersion repoId fileName T commitMessage w = (Success (), w') →
  ∃ content metadata doc,
    getFileVersion repoId fileName T false w = Success content
    ∧ content ≠ ""
    ∧ holds repoId fileName (TextEncoder_encode content) w'
    ∧ downloadFileFromS3 repoId fileName w'
      = Success (CString (TextDecoder_decode (TextEncoder_encode content)),
                 metadata)
    ∧ record_of (commitKeyOf repoId fileName (clock (ticks w))) w' = Some doc
    ∧ prop doc "timestamp" = JStr (clock (ticks w))
    ∧ prop doc "message"
      = JStr (default "Restored previous version" commitMessage ++
              " (from " ++ toLocaleString T ++ ")")
    ∧ prop doc "previousVersion" = JUndefined
    ∧ (fits_one_page (commitsPrefix repoId fileName) w' →
       ∃ commits entry,
         getFileCommitHistory repoId fileName w' = Success commits
         ∧ entry ∈ commits
         ∧ ∀ key, key ≠ "id" → prop entry key = prop doc key).
Proof.
  intros Hr.
  destruct (restoreFileVersion_success _ _ _ _ _ _ Hr) as (content & Hv & Hc).
  assert (Hne : content ≠ "").
  { revert Hr. unfold restoreFileVersion.
    destruct (initialized w); [| done]. simpl.
    destruct (currentUser w); [| done]. rewrite Hv.
    destruct (String.eqb content "") eqn:E; [done |].
    by apply String.eqb_neq in E. }
  destruct (commitFileVersion_success _ _ _ _ _ _ _ _ Hc)
    as (u & _ & Hu & _ & Hinit' & _ & Hcommit & Hfile & _).
  eexists content, _,
    (commitData (default "Restored previous version" commitMessage ++
                 " (from " ++ toLocaleString T ++ ")")
                (clock (ticks w)) u None).
  split; [done |]. split; [done |].
  split; [eexists; split; [exact Hfile | done] |].
  split; [unfold downloadFileFromS3; by rewrite Hinit', Hfile |].
  split; [unfold record_of; by rewrite Hcommit |].
  split; [apply commitData_timestamp |].
  split; [apply commitData_message |].
  split; [unfold prop, commitData; by simplify_map_eq |].
  - intros Hfits.
    destruct (history_lists_record repoId fileName w' _ _
                (commitData (default "Restored previous version" commitMessage ++
                             " (from " ++ toLocaleString T ++ ")")
                            (clock (ticks w)) u None) Hinit' Hfits Hcommit)
      as (commits & entry & Hl & Hin & Hprop);
      [apply commitKey_has_prefix | done |].
    by exists commits, entry.
Qed.

(** X18: for a signed-in caller and a configured bucket, restoring a
    timestamp that has no history snapshot fails with [Version not found],
    and restoring a snapshot whose content is empty fails with [Failed to
    retrieve file version]; the world is left as it was in both cases. *)
Theorem restore_refuses_a_missing_or_empty_version
    (w : World) (repoId fileName T : string) (commitMessage : option string) :
  initialized w = true →
  is_Some (currentUser w) →
  (s3_get (historyKeyOf repoId fileName T) w = None →
     restoreFileVersion repoId fileName T commitMessage w
     = (Failure "Version not found", w))
  ∧ (∀ version,
       s3_get (historyKeyOf repoId fileName T) w = Some version →
       body_bytes (Body version) = "" →
       restoreFileVersion repoId fileName T commitMessage w
       = (Failure "Failed to retrieve file version", w)).
Proof.
  intros Hinit [u Hu]. split.
  - intros Hnone. unfold restoreFileVersion, getFileVersion.
    rewrite Hinit, Hu. simpl. fold (historyKeyOf repoId fileName T).
    by rewrite Hnone.
  - intros version Hsome Hempty. unfold restoreFileVersion, getFileVersion.
    rewrite Hinit, Hu. simpl. fold (historyKeyOf repoId fileName T).
    by rewrite Hsome, Hempty, TextDecoder_decode_empty.
Qed.

(** ** A merge that transfers nothing *)

Lemma mergeFile_not_transferable id pr u f w :
  transfers (pr_sourceRepoId pr) f w = false →
  mergeFile id pr u f w = (false, w).
Proof.
  unfold transfers, mergeFile.
  destruct (getFileContent (pr_sourceRepoId pr) f w) as [[content md]|];
    [| done].
  by intros ->.
Qed.

Lemma mergeFiles_nothing_transferable id pr u files n w :
  Forall (λ f, transfers (pr_sourceRepoId pr) f w = false) files →
  mergeFiles id pr u files n w = (n, w).
Proof.
  revert n. induction files as [|f rest IH]; intros n Hnot; simpl; [done |].
  apply Forall_cons in Hnot as [Hf Hrest].
  rewrite mergeFile_not_transferable by done. by apply IH.
Qed.

(** X19: a merge that transfers nothing still marks the pull request
    merged.  When the target owner merges an open pull request none of
    whose stored files downloads from the source with non-empty content,
    the merge succeeds, the status becomes [merged], the creator is
    notified, and the bucket is what it was. *)
Theorem merge_that_transfers_nothing_still_marks_merged
    (w : World) (id : string) (d : PullRequest) (u : User)
    (comment : option string) (files : list string) :
  currentUser w = Some u →
  pullRequests w !! id = Some d →
  pr_targetOwnerId d = uid u →
  pr_status d = open →
  pr_changedFiles d = Some files →
  files ≠ [] →
  Forall (λ f, transfers (pr_sourceRepoId d) f w = false) files →
  ∃ w',
    mergePullRequest id comment w = (Success (), w')
    ∧ pr_status <$> pullRequests w' !! id = Some merged
    ∧ bucket w' = bucket w
    ∧ ∃ n, n ∈ notifications w'
           ∧ n_userId n = JStr (cb_id (pr_createdBy d))
           ∧ n_type n = "pull_request_merged".
Proof.
  intros Hu Hd Howner Hopen Hfiles Hne Hnot.
  unfold mergePullRequest. rewrite Hu, (getPullRequest_Some _ _ _ Hd). simpl.
  rewrite Howner, String.eqb_refl, Hopen. simpl. rewrite Hfiles. simpl.
  destruct files as [|f rest]; [done |].
  rewrite mergeFiles_nothing_transferable by done.
  destruct (updatePullRequestStatus_allowed id merged comment w u d Hu Hd)
    as (w' & Hrun & Hl & _ & Hb & Hn & _); [by left |].
  rewrite Hrun. exists w'. split; [done |]. split; [by rewrite Hl |].
  split; [done |].
  eexists. split.
  { rewrite Hn. apply elem_of_app. right. by apply list_elem_of_singleton. }
  done.
Qed.

(** ** Queries *)

Lemma elem_of_getDocs {A} (matches : A → bool) (coll : gmap string A) k d :
  (k, d) ∈ getDocs matches coll ↔ coll !! k = Some d ∧ matches d = true.
Proof.
  unfold getDocs. rewrite merge_sort_Permutation.
  rewrite list_elem_of_filter, elem_of_map_to_list. simpl. tauto.
Qed.

Lemma getDocs_nil {A} (matches : A → bool) (coll : gmap string A) :
  getDocs matches coll = [] ↔ ∀ k d, coll !! k = Some d → matches d = false.
Proof.
  split.
  - intros Hnil k d Hk. destruct (matches d) eqn:Hm; [| done].
    assert (Hin : (k, d) ∈ getDocs matches coll) by by apply elem_of_getDocs.
    rewrite Hnil in Hin. by apply elem_of_nil in Hin.
  - intros Hnone. destruct (getDocs matches coll) as [|[k d] l] eqn:Hl; [done |].
    assert (Hin : (k, d) ∈ getDocs matches coll) by (rewrite Hl; left).
    apply elem_of_getDocs in Hin as [Hk Hm].
    rewrite (Hnone _ _ Hk) in Hm. discriminate.
Qed.

Lemma owned_and_named_true owner name d :
  owned_and_named owner name d = true ↔ r_ownerId d = owner ∧ r_name d = name.
Proof.
  unfold owned_and_named. rewrite andb_true_iff, !String.eqb_eq. tauto.
Qed.

Lemma getDocs_owned_and_named_nil owner name coll :
  getDocs (owned_and_named owner name) coll = []
  ↔ ∀ k d, coll !! k = Some d → r_ownerId d = owner → r_name d ≠ name.
Proof.
  rewrite getDocs_nil. split; intros Hn k d Hk.
  - intros Ho Hname. specialize (Hn k d Hk).
    assert (owned_and_named owner name d = true) by by apply owned_and_named_true.
    congruence.
  - destruct (owned_and_named owner name d) eqn:E; [| done].
    apply owned_and_named_true in E as [Ho Hname]. by destruct (Hn k d Hk Ho).
Qed.

(** ** Creating a repository *)

Lemma createRepository_conflict name description isPublic docId w u k d :
  currentUser w = Some u →
  repositories w !! k = Some d → r_ownerId d = uid u → r_name d = name →
  createRepository name description isPublic docId w
  = (Failure "A repository with this name already exists", w).
Proof.
  intros Hu Hk Ho Hn. unfold createRepository. rewrite Hu.
  destruct (getDocs _ _) as [|x l] eqn:Hl; [| done].
  exfalso. rewrite getDocs_owned_and_named_nil in Hl. by eapply Hl.
Qed.

(** X20: repository names are unique per owner.  Creating a repository
    under a name the caller already owns a repository of fails and changes
    nothing; otherwise it succeeds with a repository owned by the caller,
    private unless asked otherwise, without collaborators, stamped with
    the clock reading, which [getRepository] returns under the new id, and
    a further creation under the same name by the same caller fails. *)
Theorem repository_names_are_unique_per_owner
    (w : World) (name description : string) (isPublic : option bool)
    (docId : string) (u : User) :
  currentUser w = Some u →
  ((∃ k d, repositories w !! k = Some d ∧ r_ownerId d = uid u
           ∧ r_name d = name) →
   createRepository name description isPublic docId w
   = (Failure "A repository with this name already exists", w))
  ∧ ((∀ k d, repositories w !! k = Some d → r_ownerId d = uid u →
             r_name d ≠ name) →
     ∃ r w',
       createRepository name description isPublic docId w = (Success r, w')
       ∧ r = {| r_id := Some docId; r_name := name;
                r_description := description; r_ownerId := uid u;
                r_createdAt := clock (ticks w);
                r_updatedAt := clock (ticks w);
                r_isPublic := default false isPublic;
                r_collaborators := Some []; r_forkedFrom := None |}
       ∧ getRepository docId w' = Success r
       ∧ (∀ k, k ≠ docId → repositories w' !! k = repositories w !! k)
       ∧ bucket w' = bucket w
       ∧ ∀ description' isPublic' docId',
           createRepository name description' isPublic' docId' w'
           = (Failure "A repository with this name already exists", w')).
Proof.
  intros Hu. split.
  - intros (k & d & Hk & Ho & Hn). by eapply createRepository_conflict.
  - intros Hfree. apply getDocs_owned_and_named_nil in Hfree.
    unfold createRepository at 1. rewrite Hu, Hfree. simpl.
    eexists _, _. split; [reflexivity |]. split; [done |].
    split_and!.
    + unfold getRepository. simpl. rewrite Hu, lookup_insert_eq. simpl.
      rewrite String.eqb_refl. simpl. by rewrite andb_false_r.
    + intros k Hk. simpl. by rewrite lookup_insert_ne.
    + done.
    + intros description' isPublic' docId'.
      eapply createRepository_conflict; [done | apply lookup_insert_eq | done..].
Qed.

(** ** Updating and deleting a repository *)

(** X21: only the owner updates a repository.  Another signed-in caller
    is refused and the world is left as it was; for the owner the stored
    document takes the fields the update names and the clock reading as
    [updatedAt], whatever the update says of [updatedAt], no other
    document and no blob changes; and an update that names another owner
    hands the repository over: the former owner is refused from then
    on. *)
Theorem only_the_owner_updates_a_repository
    (w : World) (id : string) (updates : RepositoryUpdates) (u : User)
    (d : Repository) :
  currentUser w = Some u →
  repositories w !! id = Some d →
  (r_ownerId d ≠ uid u →
     updateRepository id updates w
     = (Failure "Only the owner can update this repository", w))
  ∧ (r_ownerId d = uid u →
     ∃ w',
       updateRepository id updates w = (Success (), w')
       ∧ repositories w' !! id
         = Some (apply_updates updates (clock (ticks w)) d)
       ∧ (r_updatedAt <$> repositories w' !! id) = Some (clock (ticks w))
       ∧ (∀ k, k ≠ id → repositories w' !! k = repositories w !! k)
       ∧ bucket w' = bucket w
       ∧ ∀ owner updates',
           up_ownerId updates = Some owner → owner ≠ uid u →
           updateRepository id updates' w'
           = (Failure "Only the owner can update this repository", w')).
Proof.
  intros Hu Hd. split.
  - intros Ho. unfold updateRepository. rewrite Hu.
    destruct (getRepository_ownerId id d u w Hu Hd) as (r & -> & Hr & _).
    rewrite Hr. apply String.eqb_neq in Ho. by rewrite Ho.
  - intros Ho. unfold updateRepository at 1. rewrite Hu.
    destruct (getRepository_ownerId id d u w Hu Hd) as (r & -> & Hr & _).
    rewrite Hr, Ho, String.eqb_refl. simpl.
    eexists. split; [reflexivity |]. simpl.
    split_and!.
    + by rewrite lookup_alter_eq, Hd.
    + by rewrite lookup_alter_eq, Hd.
    + intros k Hk. by rewrite lookup_alter_ne.
    + done.
    + intros owner updates' Hup Hne.
      match goal with
      | |- updateRepository id updates' ?x = _ =>
          assert (Hu' : currentUser x = Some u) by done;
          assert (Hd' : repositories x !! id
                        = Some (apply_updates updates (clock (ticks w)) d))
            by (simpl; by rewrite lookup_alter_eq, Hd);
          destruct (getRepository_ownerId id _ u x Hu' Hd') as (r' & Hg & Hr' & _)
      end.
      unfold updateRepository. rewrite Hu', Hg, Hr'. simpl. rewrite Hup. simpl.
      apply String.eqb_neq in Hne. by rewrite Hne.
Qed.

(** X22: only the owner deletes a repository, and the deletion removes
    the document only.  Afterwards [getRepository] fails with [Repository
    not found], while the bucket and the pull requests are what they were:
    the files of the repository are listed, download and show their
    history as before. *)
Theorem deleting_a_repository_leaves_its_files
    (w : World) (id : string) (u : User) (d : Repository) :
  currentUser w = Some u →
  repositories w !! id = Some d →
  (r_ownerId d ≠ uid u →
     deleteRepository id w
     = (Failure "Only the owner can delete this repository", w))
  ∧ (r_ownerId d = uid u →
     ∃ w',
       deleteRepository id w = (Success (), w')
       ∧ getRepository id w' = Failure "Repository not found"
       ∧ (∀ k, k ≠ id → repositories w' !! k = repositories w !! k)
       ∧ bucket w' = bucket w
       ∧ pullRequests w' = pullRequests w
       ∧ listRepositoryFiles id w' = listRepositoryFiles id w
       ∧ (∀ f, downloadFileFromS3 id f w' = downloadFileFromS3 id f w)
       ∧ (∀ f, getFileCommitHistory id f w' = getFileCommitHistory id f w)).
Proof.
  intros Hu Hd. split.
  - intros Ho. unfold deleteRepository. rewrite Hu.
    destruct (getRepository_ownerId id d u w Hu Hd) as (r & -> & Hr & _).
    rewrite Hr. apply String.eqb_neq in Ho. by rewrite Ho.
  - intros Ho. unfold deleteRepository. rewrite Hu.
    destruct (getRepository_ownerId id d u w Hu Hd) as (r & -> & Hr & _).
    rewrite Hr, Ho, String.eqb_refl. simpl.
    eexists. split; [reflexivity |].
    split_and!; try done.
    + unfold getRepository. simpl. by rewrite Hu, lookup_delete_eq.
    + intros k Hk. simpl. by rewrite lookup_delete_ne.
Qed.

(** ** Forking a repository *)

Lemma access_gate (p c : bool) (o u : string) :
  p = true ∨ o = u ∨ c = true →
  negb p && negb (String.eqb o u) && negb c = false.
Proof.
  intros [-> | [-> | ->]]; [done | | apply andb_false_r].
  rewrite String.eqb_refl. by destruct p.
Qed.

(** The owner, a collaborator and, for a public repository, everybody
    reads the whole document. *)
Lemma getRepository_member id d u w :
  currentUser w = Some u →
  repositories w !! id = Some d →
  r_isPublic d = true ∨ r_ownerId d = uid u ∨ is_collaborator d (uid u) = true →
  getRepository id w = Success (repository_of_doc id d).
Proof.
  intros Hu Hd Hall. unfold getRepository. rewrite Hu, Hd. cbv zeta.
  match goal with
  | |- (if ?b then _ else _) = _ =>
      replace b with false; [done |]
  end.
  symmetry. exact (access_gate _ _ _ _ Hall).
Qed.

(** X23: who may fork, and what a fork is.  A caller who is neither owner
    nor collaborator of a private repository is refused and the world is
    left as it was.  For a public repository, its owner or one of its
    collaborators, and a name the caller does not own yet, the fork
    succeeds with a private repository of the caller, named as asked or
    after the source, without collaborators, pointing at the source;
    [getRepository] returns it under the new id, and no blob is copied. *)
Theorem fork_is_a_private_repository_of_the_caller
    (w : World) (sourceRepoId docId : string) (newName : option string)
    (u : User) (d : Repository) :
  currentUser w = Some u →
  repositories w !! sourceRepoId = Some d →
  (r_isPublic d = false → r_ownerId d ≠ uid u →
   is_collaborator d (uid u) = false →
     forkRepository sourceRepoId newName docId w
     = (Failure "You do not have permission to fork this repository", w))
  ∧ (r_isPublic d = true ∨ r_ownerId d = uid u
     ∨ is_collaborator d (uid u) = true →
     (∀ k d', repositories w !! k = Some d' → r_ownerId d' = uid u →
              r_name d' ≠ or_opt newName (r_name d ++ "-fork")) →
     ∃ r w',
       forkRepository sourceRepoId newName docId w = (Success r, w')
       ∧ r_id r = Some docId
       ∧ r_name r = or_opt newName (r_name d ++ "-fork")
       ∧ r_ownerId r = uid u
       ∧ r_isPublic r = false
       ∧ r_collaborators r = Some []
       ∧ r_forkedFrom r = Some sourceRepoId
       ∧ getRepository docId w' = Success r
       ∧ bucket w' = bucket w
       ∧ ∀ k, k ≠ docId → repositories w' !! k = repositories w !! k).
Proof.
  intros Hu Hd. split.
  - intros Hpriv Ho Hc. unfold forkRepository. rewrite Hu.
    assert (Hg : ∃ r, getRepository sourceRepoId w = Success r
                      ∧ r_isPublic r = false ∧ r_ownerId r = r_ownerId d
                      ∧ is_collaborator r (uid u) = false).
    { unfold getRepository. rewrite Hu, Hd. simpl. rewrite Hpriv. simpl.
      apply String.eqb_neq in Ho. rewrite Ho. simpl.
      unfold is_collaborator in *. simpl. rewrite Hc. simpl.
      eexists. split; [reflexivity |]. done. }
    destruct Hg as (r & -> & Hp & Hr & Hcr).
    rewrite Hp, Hr, Hcr. apply String.eqb_neq in Ho. by rewrite Ho.
  - intros Hallowed Hfree. apply getDocs_owned_and_named_nil in Hfree.
    unfold forkRepository.
    rewrite Hu, (getRepository_member _ _ _ _ Hu Hd Hallowed).
    assert (Hgate : negb (r_isPublic (repository_of_doc sourceRepoId d))
                    && negb (String.eqb
                               (r_ownerId (repository_of_doc sourceRepoId d))
                               (uid u))
                    && negb (is_collaborator (repository_of_doc sourceRepoId d)
                                             (uid u)) = false).
    { exact (access_gate _ _ _ _ Hallowed). }
    rewrite Hgate. simpl. rewrite Hfree. simpl.
    eexists _, _. split; [reflexivity |]. simpl.
    split_and!; try done.
    + eapply eq_trans;
        [eapply getRepository_owner; [done | apply lookup_insert_eq | done]
        | reflexivity].
    + intros k Hk. by rewrite lookup_insert_ne.
Qed.

(** ** Access requests *)

(** What every signed-in caller sees of a repository: its owner, its name
    and whether the caller is one of its collaborators. *)
Lemma getRepository_view id d u w :
  currentUser w = Some u →
  repositories w !! id = Some d →
  ∃ r, getRepository id w = Success r
       ∧ r_ownerId r = r_ownerId d ∧ r_name r = r_name d
       ∧ is_collaborator r (uid u) = is_collaborator d (uid u).
Proof.
  intros Hu Hd. unfold getRepository. rewrite Hu, Hd. cbv zeta.
  destruct (negb (r_isPublic (repository_of_doc id d)))  eqn:Hp; simpl;
    [| by eexists].
  destruct (negb (String.eqb (r_ownerId d) (uid u))) eqn:Ho; simpl;
    [| by eexists].
  change (is_collaborator (repository_of_doc id d) (uid u))
    with (is_collaborator d (uid u)).
  destruct (is_collaborator d (uid u)) eqn:Hc; simpl; by eexists.
Qed.

Lemma createNotification_run userId type message details w u :
  js_truthy userId = true →
  currentUser w = Some u →
  createNotification userId type message details w
  = (Success (),
     add_notification
       {| n_userId := userId; n_type := type; n_message := message;
          n_details := details; n_read := false;
          n_createdAt := clock (ticks w); n_createdBy := Some (uid u) |}
       (set_ticks (S (ticks w)) w)).
Proof.
  intros Ht Hu. unfold createNotification. by rewrite Ht, Hu.
Qed.

Lemma requestRepositoryAccess_conflict repositoryId docId s u repo k r :
  currentUser (world s) = Some u →
  repositories (world s) !! repositoryId = Some repo →
  r_ownerId repo ≠ uid u →
  is_collaborator repo (uid u) = false →
  accessRequests s !! k = Some r →
  pending_request_of repositoryId (uid u) r = true →
  requestRepositoryAccess repositoryId docId s
  = (Failure "You already have a pending access request for this repository",
     s).
Proof.
  intros Hu Hrepo Ho Hc Hk Hp.
  destruct (getRepository_view repositoryId repo u (world s) Hu Hrepo)
    as (r' & Hg & Hr & Hn & Hcr).
  unfold requestRepositoryAccess. cbv zeta. rewrite Hu, Hg, Hcr, Hc, Hr.
  apply String.eqb_neq in Ho. rewrite Ho.
  destruct (getDocs _ _) as [|x l] eqn:Hl; [| done].
  exfalso. rewrite getDocs_nil in Hl. rewrite (Hl _ _ Hk) in Hp. discriminate.
Qed.

(** X26: one pending access request per requester and repository.  A
    signed-in caller who is neither owner nor collaborator and has no
    pending request for the repository obtains one: the request document
    records the repository, its owner and the requester with status
    [pending], the owner is notified, no repository changes; and a second
    request by the same caller is refused, the store left as it was. *)
Theorem one_pending_access_request_per_requester
    (s : Store) (repositoryId docId : string) (u : User) (repo : Repository) :
  currentUser (world s) = Some u →
  repositories (world s) !! repositoryId = Some repo →
  r_ownerId repo ≠ uid u →
  r_ownerId repo ≠ "" →
  is_collaborator repo (uid u) = false →
  (∀ k r, accessRequests s !! k = Some r →
          pending_request_of repositoryId (uid u) r = false) →
  ∃ s' n,
    requestRepositoryAccess repositoryId docId s = (Success None, s')
    ∧ accessRequests s' !! docId
      = Some {| ar_repositoryId := repositoryId;
                ar_repositoryName := r_name repo;
                ar_ownerId := r_ownerId repo;
                ar_requesterId := uid u;
                ar_requesterEmail := email u;
                ar_requesterName := requesterName u;
                ar_status := ACCESS_REQUEST_PENDING;
                ar_createdAt := clock (ticks (world s));
                ar_updatedAt := clock (ticks (world s)) |}
    ∧ notifications (world s') = (notifications (world s) ++ [n])%list
    ∧ n_userId n = JStr (r_ownerId repo)
    ∧ n_type n = "access_request"
    ∧ prop (n_details n) "requestId" = JStr docId
    ∧ repositories (world s') = repositories (world s)
    ∧ ∀ docId',
        requestRepositoryAccess repositoryId docId' s'
        = (Failure "You already have a pending access request for this repository",
           s').
Proof.
  intros Hu Hrepo Ho Hne Hc Hnone.
  destruct (getRepository_view repositoryId repo u (world s) Hu Hrepo)
    as (r & Hg & Hr & Hn & Hcr).
  apply getDocs_nil in Hnone.
  unfold requestRepositoryAccess at 1. cbv zeta. rewrite Hu, Hg, Hcr, Hc, Hr.
  pose proof Ho as Ho'. apply String.eqb_neq in Ho'. rewrite Ho', Hnone.
  simpl. rewrite Hn.
  rewrite (createNotification_run _ _ _ _ _ u);
    [| simpl; apply negb_true_iff; by apply String.eqb_neq | done].
  eexists _, _. split; [reflexivity |]. simpl.
  split; [apply lookup_insert_eq |]. split; [reflexivity |].
  split; [done |]. split; [done |].
  split; [unfold prop; by simplify_map_eq |]. split; [done |].
  intros docId'.
  eapply (requestRepositoryAccess_conflict _ _ _ u repo docId);
    [done | done | done | done | apply lookup_insert_eq |].
  unfold pending_request_of. simpl. by rewrite !String.eqb_refl.
Qed.

(** The collaborators after an approval. *)
Lemma updateAccessRequest_owner requestId approve s u req :
  currentUser (world s) = Some u →
  accessRequests s !! requestId = Some req →
  ar_ownerId req = uid u →
  (approve = true → is_Some (repositories (world s) !! ar_repositoryId req)) →
  ∃ s',
    updateAccessRequest requestId approve s = (Success (), s')
    ∧ accessRequests s' !! requestId
      = Some (with_request_status
                (if approve then ACCESS_REQUEST_APPROVED
                 else ACCESS_REQUEST_DENIED)
                (clock (ticks (world s))) req)
    ∧ (∀ k, k ≠ requestId → accessRequests s' !! k = accessRequests s !! k)
    ∧ bucket (world s') = bucket (world s)
    ∧ currentUser (world s') = Some u
    ∧ repositories (world s')
      = (if approve then
           match repositories (world s) !! ar_repositoryId req with
           | Some repoData =>
               if bool_decide (ar_requesterId req
                               ∈ default [] (r_collaborators repoData))
               then repositories (world s)
               else alter (with_collaborators
                             (default [] (r_collaborators repoData) ++
                              [ar_requesterId req])%list)
                          (ar_repositoryId req) (repositories (world s))
           | None => repositories (world s)
           end
         else repositories (world s)).
Proof.
  intros Hu Hreq Ho Hrepo.
  unfold updateAccessRequest. cbv zeta. rewrite Hu, Hreq, Ho, String.eqb_refl.
  simpl.
  destruct approve.
  - destruct (Hrepo eq_refl) as [repoData Hr]. rewrite Hr.
    destruct (bool_decide (ar_requesterId req
                           ∈ default [] (r_collaborators repoData))); simpl.
    + match goal with
      | |- context [createNotification ?a ?b ?c ?d ?x] =>
          destruct (createNotification_frame a b c d x)
            as (Hb & Hi & Hcu & Hrs & Hp)
      end.
      cbv zeta in *. eexists. split; [reflexivity |]. simpl.
      rewrite Hb, Hcu, Hrs. split_and!; try done.
      * by rewrite lookup_alter_eq, Hreq.
      * intros k Hk. by rewrite lookup_alter_ne.
    + match goal with
      | |- context [createNotification ?a ?b ?c ?d ?x] =>
          destruct (createNotification_frame a b c d x)
            as (Hb & Hi & Hcu & Hrs & Hp)
      end.
      cbv zeta in *. eexists. split; [reflexivity |]. simpl.
      rewrite Hb, Hcu, Hrs. split_and!; try done.
      * by rewrite lookup_alter_eq, Hreq.
      * intros k Hk. by rewrite lookup_alter_ne.
  - match goal with
    | |- context [createNotification ?a ?b ?c ?d ?x] =>
        destruct (createNotification_frame a b c d x)
          as (Hb & Hi & Hcu & Hrs & Hp)
    end.
    cbv zeta in *. eexists. split; [reflexivity |]. simpl.
    rewrite Hb, Hcu, Hrs. split_and!; try done.
    + by rewrite lookup_alter_eq, Hreq.
    + intros k Hk. by rewrite lookup_alter_ne.
Qed.

(** X24: approving an access request, whatever its stored status, makes
    the requester a collaborator.  The request is marked approved, every
    former collaborator remains one, the owner is unchanged, and the
    requester signed in afterwards reads the whole stored document from
    [getRepository]. *)
Theorem approved_requester_reads_the_whole_repository
    (s : Store) (requestId : string) (req : AccessRequest) (repo : Repository)
    (owner requester : User) :
  currentUser (world s) = Some owner →
  accessRequests s !! requestId = Some req →
  ar_ownerId req = uid owner →
  repositories (world s) !! ar_repositoryId req = Some repo →
  uid requester = ar_requesterId req →
  ∃ s' repo',
    updateAccessRequest requestId true s = (Success (), s')
    ∧ (ar_status <$> accessRequests s' !! requestId)
      = Some ACCESS_REQUEST_APPROVED
    ∧ repositories (world s') !! ar_repositoryId req = Some repo'
    ∧ is_collaborator repo' (uid requester) = true
    ∧ (∀ x, is_collaborator repo x = true → is_collaborator repo' x = true)
    ∧ r_ownerId repo' = r_ownerId repo
    ∧ getRepository (ar_repositoryId req) (sign_in requester (world s'))
      = Success (repository_of_doc (ar_repositoryId req) repo')
    ∧ bucket (world s') = bucket (world s).
Proof.
  intros Hu Hreq Ho Hrepo Hq.
  destruct (updateAccessRequest_owner requestId true s owner req Hu Hreq Ho)
    as (s' & Hrun & Hst & _ & Hb & _ & Hrs); [by rewrite Hrepo |].
  rewrite Hrepo in Hrs.
  set (collaborators := default [] (r_collaborators repo)) in *.
  assert (∃ repo', repositories (world s') !! ar_repositoryId req = Some repo'
                   ∧ is_collaborator repo' (uid requester) = true
                   ∧ (∀ x, is_collaborator repo x = true →
                           is_collaborator repo' x = true)
                   ∧ r_ownerId repo' = r_ownerId repo)
    as (repo' & Hr' & Hc' & Hmono & Ho').
  { rewrite Hrs. destruct (bool_decide _) eqn:Hin.
    - exists repo. split; [done |]. split; [| done].
      apply bool_decide_eq_true in Hin. unfold is_collaborator.
      subst collaborators. rewrite Hq.
      destruct (r_collaborators repo) as [l|]; simpl in *.
      + by apply bool_decide_eq_true.
      + by apply elem_of_nil in Hin.
    - exists (with_collaborators (collaborators ++ [ar_requesterId req])%list
                                 repo).
      split; [by rewrite lookup_alter_eq, Hrepo |].
      unfold is_collaborator. simpl. split_and!; [| | done].
      + apply bool_decide_eq_true, elem_of_app. right. rewrite Hq.
        by apply list_elem_of_singleton.
      + intros x. subst collaborators.
        destruct (r_collaborators repo) as [l|]; simpl; [| done].
        rewrite !bool_decide_eq_true, elem_of_app. by left. }
  exists s', repo'. split_and!; try done.
  - by rewrite Hst.
  - apply (getRepository_member _ _ requester); [done | done |].
    by right; right.
Qed.

(** X25: only the owner named in an access request decides it.  Any
    other signed-in caller is refused, approval and denial alike, and the
    store is left as it was; a denial by that owner marks the request
    denied, stamps it with the clock reading and changes no repository
    and no blob. *)
Theorem only_the_owner_named_in_the_request_decides_it
    (s : Store) (requestId : string) (req : AccessRequest) (u : User) :
  currentUser (world s) = Some u →
  accessRequests s !! requestId = Some req →
  (ar_ownerId req ≠ uid u →
     ∀ approve,
       updateAccessRequest requestId approve s
       = (Failure "You do not have permission to update this access request",
          s))
  ∧ (ar_ownerId req = uid u →
     ∃ s',
       updateAccessRequest requestId false s = (Success (), s')
       ∧ accessRequests s' !! requestId
         = Some (with_request_status ACCESS_REQUEST_DENIED
                   (clock (ticks (world s))) req)
       ∧ repositories (world s') = repositories (world s)
       ∧ bucket (world s') = bucket (world s)).
Proof.
  intros Hu Hreq. split.
  - intros Ho approve. unfold updateAccessRequest. cbv zeta.
    rewrite Hu, Hreq. apply String.eqb_neq in Ho. by rewrite Ho.
  - intros Ho.
    destruct (updateAccessRequest_owner requestId false s u req Hu Hreq Ho)
      as (s' & Hrun & Hst & _ & Hb & _ & Hrs); [done |].
    by exists s'.
Qed.

(** X27: approving an access request for a repository that is gone fails
    with [Repository not found], but only after the request has been
    marked approved; no notification is created. *)
Theorem approval_for_a_deleted_repository_fails_after_marking_it
    (s : Store) (requestId : string) (req : AccessRequest) (u : User) :
  currentUser (world s) = Some u →
  accessRequests s !! requestId = Some req →
  ar_ownerId req = uid u →
  repositories (world s) !! ar_repositoryId req = None →
  ∃ s',
    updateAccessRequest requestId true s = (Failure "Repository not found", s')
    ∧ (ar_status <$> accessRequests s' !! requestId)
      = Some ACCESS_REQUEST_APPROVED
    ∧ notifications (world s') = notifications (world s)
    ∧ repositories (world s') = repositories (world s).
Proof.
  intros Hu Hreq Ho Hnone.
  unfold updateAccessRequest. cbv zeta. rewrite Hu, Hreq, Ho, String.eqb_refl.
  simpl. rewrite Hnone. eexists. split; [reflexivity |]. simpl.
  by rewrite lookup_alter_eq, Hreq.
Qed.

(** ** Listing repositories *)

(** X28: the public listing needs no session and holds exactly the
    public repositories, each under its document id. *)
Theorem public_listing_holds_the_public_repositories
    (w : World) :
  ∃ listed,
    getAllPublicRepositories w = Success listed
    ∧ ∀ r, r ∈ listed
           ↔ ∃ k d, repositories w !! k = Some d ∧ r_isPublic d = true
                    ∧ r = repository_of_doc k d.
Proof.
  unfold getAllPublicRepositories. eexists. split; [reflexivity |].
  intros r. rewrite elem_of_Array_sort, list_elem_of_fmap. split.
  - intros ([k d] & -> & Hin). apply elem_of_getDocs in Hin as [Hk Hp].
    by exists k, d.
  - intros (k & d & Hk & Hp & ->). exists (k, d). split; [done |].
    by apply elem_of_getDocs.
Qed.

Lemma push_unless_listed_elem acc doc r :
  r ∈ push_unless_listed acc doc →
  r ∈ acc ∨ r = repository_of_doc doc.1 doc.2.
Proof.
  unfold push_unless_listed. destruct (negb _); [| by left].
  rewrite elem_of_app, list_elem_of_singleton. tauto.
Qed.

Lemma foldl_push_elem docs acc r :
  r ∈ foldl push_unless_listed acc docs →
  r ∈ acc ∨ ∃ doc, doc ∈ docs ∧ r = repository_of_doc doc.1 doc.2.
Proof.
  revert acc. induction docs as [|doc docs IH]; intros acc Hin; simpl in Hin.
  - by left.
  - apply IH in Hin as [Hin | (doc' & Hd & ->)].
    + apply push_unless_listed_elem in Hin as [Hin | ->]; [by left |].
      right. exists doc. split; [left | done].
    + right. exists doc'. split; [by right | done].
Qed.

Lemma foldl_push_acc docs acc r :
  r ∈ acc → r ∈ foldl push_unless_listed acc docs.
Proof.
  revert acc. induction docs as [|doc docs IH]; intros acc Hin; simpl; [done |].
  apply IH. unfold push_unless_listed. destruct (negb _); [| done].
  apply elem_of_app. by left.
Qed.

Lemma existsb_id_true (acc : list Repository) k :
  existsb (λ repo, bool_decide (r_id repo = Some k)) acc = true
  ↔ ∃ r, r ∈ acc ∧ r_id r = Some k.
Proof.
  rewrite existsb_exists. split.
  - intros (r & Hin & Hb). exists r. split; [by apply list_elem_of_In |].
    by apply bool_decide_eq_true in Hb.
  - intros (r & Hin & Hid). exists r. split; [by apply list_elem_of_In |].
    by apply bool_decide_eq_true.
Qed.

Lemma foldl_push_listed docs acc doc :
  doc ∈ docs →
  ∃ r, r ∈ foldl push_unless_listed acc docs
       ∧ (r = repository_of_doc doc.1 doc.2 ∨ r_id r = Some doc.1).
Proof.
  revert acc. induction docs as [|doc' docs IH]; intros acc Hin.
  - by apply elem_of_nil in Hin.
  - simpl. apply elem_of_cons in Hin as [-> | Hin]; [| by apply IH].
    unfold push_unless_listed at 2.
    destruct (existsb _ acc) eqn:He; simpl.
    + apply existsb_id_true in He as (r & Hr & Hid).
      exists r. split; [by apply foldl_push_acc | by right].
    + exists (repository_of_doc doc'.1 doc'.2). split; [| by left].
      apply foldl_push_acc, elem_of_app. right. by apply list_elem_of_singleton.
Qed.

Lemma getDocs_NoDup {A} (matches : A → bool) (coll : gmap string A) :
  NoDup (getDocs matches coll).
Proof.
  unfold getDocs. rewrite merge_sort_Permutation.
  apply NoDup_filter, NoDup_map_to_list.
Qed.

(** Pushing documents whose id is that of their key keeps the list free
    of duplicates. *)
Lemma foldl_push_NoDup docs acc :
  NoDup acc →
  (∀ doc, doc ∈ docs → r_id (repository_of_doc doc.1 doc.2) = Some doc.1) →
  NoDup (foldl push_unless_listed acc docs).
Proof.
  revert acc. induction docs as [|doc docs IH]; intros acc Hnd Hid; simpl;
    [done |].
  apply IH; [| intros doc' Hin; apply Hid; by right].
  unfold push_unless_listed.
  destruct (existsb _ acc) eqn:He; simpl; [done |].
  apply NoDup_app. split; [done |]. split; [| apply NoDup_singleton].
  intros r Hr Hnew. apply list_elem_of_singleton in Hnew as ->.
  assert (existsb (λ repo, bool_decide (r_id repo = Some doc.1)) acc = true)
    as Ht; [| congruence].
  apply existsb_id_true. eexists. split; [exact Hr |]. apply Hid. by left.
Qed.

(** X29: the caller's own listing.  Every listed repository is a stored
    one the caller owns or collaborates on; every repository the caller
    owns is listed; and, when no stored document carries an id of its own,
    so is every repository the caller collaborates on, and no repository is
    listed twice. *)
Theorem own_listing_holds_the_owned_and_the_shared_repositories
    (w : World) (u : User) :
  currentUser w = Some u →
  ∃ listed,
    getUserRepositories w = Success listed
    ∧ (∀ r, r ∈ listed →
            ∃ k d, repositories w !! k = Some d ∧ r = repository_of_doc k d
                   ∧ (r_ownerId d = uid u ∨ is_collaborator d (uid u) = true))
    ∧ (∀ k d, repositories w !! k = Some d → r_ownerId d = uid u →
              repository_of_doc k d ∈ listed)
    ∧ ((∀ k d, repositories w !! k = Some d → r_id d = None) →
       (∀ k d, repositories w !! k = Some d →
               is_collaborator d (uid u) = true →
               repository_of_doc k d ∈ listed)
       ∧ NoDup listed).
Proof.
  intros Hu. unfold getUserRepositories. rewrite Hu. cbv zeta.
  eexists. split; [reflexivity |]. split_and!; [| | intros Hnoid; split].
  - intros r. rewrite elem_of_Array_sort. intros Hin.
    apply foldl_push_elem in Hin as [Hin | ([k d] & Hin & ->)].
    + apply list_elem_of_fmap in Hin as ([k d] & -> & Hin).
      apply elem_of_getDocs in Hin as [Hk Ho]. apply String.eqb_eq in Ho.
      exists k, d. split; [done |]. split; [done | by left].
    + apply elem_of_getDocs in Hin as [Hk Hc].
      exists k, d. split; [done |]. split; [done | by right].
  - intros k d Hk Ho. apply elem_of_Array_sort, foldl_push_acc.
    apply list_elem_of_fmap. exists (k, d). split; [done |].
    apply elem_of_getDocs. split; [done |]. by apply String.eqb_eq.
  - intros k d Hk Hc. apply elem_of_Array_sort.
    assert (Hdoc : (k, d) ∈ getDocs (λ d, is_collaborator d (uid u))
                                    (repositories w))
      by by apply elem_of_getDocs.
    match goal with
    | |- _ ∈ foldl push_unless_listed ?acc ?docs =>
        destruct (foldl_push_listed docs acc (k, d) Hdoc)
          as (r & Hr & [-> | Hid]); [done |];
        pose proof Hr as Hr'; apply foldl_push_elem in Hr'
    end.
    assert (∃ k' d', repositories w !! k' = Some d'
                     ∧ r = repository_of_doc k' d') as (k' & d' & Hk' & ->).
    { destruct Hr' as [Hin | ([k' d'] & Hin & ->)].
      - apply list_elem_of_fmap in Hin as ([k' d'] & -> & Hin).
        apply elem_of_getDocs in Hin as [Hk' _]. by exists k', d'.
      - apply elem_of_getDocs in Hin as [Hk' _]. by exists k', d'. }
    simpl in Hid. rewrite (Hnoid _ _ Hk') in Hid. simpl in Hid.
    injection Hid as ->. rewrite Hk in Hk'. by injection Hk' as <-.
  - rewrite Array_sort_Permutation.
    apply foldl_push_NoDup.
    + apply NoDup_fmap_2_strong; [| apply getDocs_NoDup].
      intros [k d] [k' d'] Hin Hin' Heq.
      apply elem_of_getDocs in Hin as [Hk _].
      apply elem_of_getDocs in Hin' as [Hk' _].
      apply (f_equal r_id) in Heq. simpl in Heq.
      rewrite (Hnoid _ _ Hk), (Hnoid _ _ Hk') in Heq. simpl in Heq.
      injection Heq as ->. rewrite Hk in Hk'. by injection Hk' as <-.
    + intros [k d] Hin. apply elem_of_getDocs in Hin as [Hk _]. simpl.
      by rewrite (Hnoid _ _ Hk).
Qed.

(** ** Opening a pull request *)

Lemma uploadFileToS3_frame repoId f content ct w :
  let w' := (uploadFileToS3 repoId f content ct w).2 in
  initialized w' = initialized w ∧ currentUser w' = currentUser w
  ∧ repositories w' = repositories w ∧ pullRequests w' = pullRequests w
  ∧ notifications w' = notifications w.
Proof.
  unfold uploadFileToS3, getFileSignedUrl. cbv zeta.
  destruct (initialized w) eqn:Hinit; simpl; [| done].
  destruct (currentUser w) eqn:Hu; [| done].
  destruct (content_truthy content); simpl; [| done].
  rewrite Hinit. simpl. done.
Qed.

Lemma uploadFileWithCommit_frame repoId f content msg user w :
  let w' := (uploadFileWithCommit repoId f content msg user w).2 in
  initialized w' = initialized w ∧ currentUser w' = currentUser w
  ∧ repositories w' = repositories w ∧ pullRequests w' = pullRequests w
  ∧ notifications w' = notifications w.
Proof.
  unfold uploadFileWithCommit. cbv zeta.
  destruct (initialized w) eqn:Hinit; simpl; [| done].
  destruct (match user with Some u => Some u | None => currentUser w end);
    [| done].
  simpl.
  destruct (uploadFileToS3_frame repoId f content "text/plain"
              (set_ticks (S (ticks w)) w)) as (Hi & Hu & Hr & Hp & Hn).
  cbv zeta in *.
  destruct (uploadFileToS3 repoId f content "text/plain" _) as [[url|err] w1];
    simpl in *; split_and!; congruence.
Qed.

Lemma mergeFiles_frame id pr u files n w :
  let w' := (mergeFiles id pr u files n w).2 in
  initialized w' = initialized w ∧ currentUser w' = currentUser w
  ∧ repositories w' = repositories w ∧ pullRequests w' = pullRequests w
  ∧ notifications w' = notifications w.
Proof.
  cbv zeta. revert n w. induction files as [|f rest IH]; intros n w; simpl;
    [done |].
  destruct (mergeFile id pr u f w) as [ok w1] eqn:Hstep.
  assert (Hw1 : initialized w1 = initialized w ∧ currentUser w1 = currentUser w
                ∧ repositories w1 = repositories w
                ∧ pullRequests w1 = pullRequests w
                ∧ notifications w1 = notifications w).
  { revert Hstep. unfold mergeFile.
    destruct (getFileContent _ _ _) as [[content md]|]; [| by intros [= <- <-]].
    destruct (negb (content_truthy content)); [by intros [= <- <-] |].
    pose proof (uploadFileWithCommit_frame (pr_targetRepoId pr) f content
                  (mergeMessage id pr) (Some u) w) as Hf.
    cbv zeta in Hf.
    destruct (uploadFileWithCommit _ _ _ _ _ _) as [r w2].
    by intros [= <- <-]. }
  destruct Hw1 as (Hi & Hu & Hr & Hp & Hn).
  destruct (IH (if ok then S n else n) w1) as (Hi' & Hu' & Hr' & Hp' & Hn').
  split_and!; congruence.
Qed.

Lemma updatePullRequestStatus_repositories id status comment w :
  repositories (updatePullRequestStatus id status comment w).2 = repositories w.
Proof.
  unfold updatePullRequestStatus.
  destruct (currentUser w); [| done].
  destruct (getPullRequest id w); [| done].
  by destruct (_ && _).
Qed.

(** X30: the creator of a pull request names who may merge it.  A signed-in
    caller opens a pull request with any target and any target-owner id:
    it is stored as [open] with the caller as creator, the named owner is
    notified, and no repository or blob changes.  The caller bearing the
    named id then merges it with success, whatever the [repositories]
    collection says of the target: the status becomes [merged] and, for
    two different repositories whose ids hold no slash, every given file
    the source holds is transferred unless it is read as text and decodes
    to the empty string: the target then holds the bytes of the source
    when the file was read as binary (neither its content type holds
    [text] nor its name has a text extension), and the bytes of the
    source decoded and encoded again when it was read as text. *)
Theorem the_creator_of_a_pull_request_names_who_may_merge_it
    (w : World) (title description sourceRepoId sourceRepoName targetRepoId
     targetRepoName targetOwnerId docId : string) (changedFiles : list string)
    (comment : option string) (u merger : User) :
  initialized w = true →
  currentUser w = Some u →
  uid merger = targetOwnerId →
  ∃ pr w1 w2,
    createPullRequest title description sourceRepoId sourceRepoName
      targetRepoId targetRepoName targetOwnerId changedFiles docId w
      = (Success pr, w1)
    ∧ getPullRequest docId w1 = Success pr
    ∧ pr_status pr = open
    ∧ pr_targetOwnerId pr = targetOwnerId
    ∧ cb_id (pr_createdBy pr) = uid u
    ∧ repositories w1 = repositories w
    ∧ bucket w1 = bucket w
    ∧ (∃ n, notifications w1 = (notifications w ++ [n])%list
            ∧ n_userId n = JStr targetOwnerId
            ∧ n_type n = "pull_request_created")
    ∧ mergePullRequest docId comment (sign_in merger w1) = (Success (), w2)
    ∧ (pr_status <$> pullRequests w2 !! docId) = Some merged
    ∧ repositories w2 = repositories w
    ∧ (changedFiles ≠ [] →
       has_slash sourceRepoId = false → has_slash targetRepoId = false →
       sourceRepoId ≠ targetRepoId →
       ∀ f src,
         f ∈ changedFiles →
         s3_get (fileKeyOf sourceRepoId f) w = Some src →
         (includes "text" (ContentType src) || isTextFile f = true →
          TextDecoder_decode (body_bytes (Body src)) ≠ "") →
         holds targetRepoId f
           (if includes "text" (ContentType src) || isTextFile f
            then TextEncoder_encode (TextDecoder_decode (body_bytes (Body src)))
            else body_bytes (Body src)) w2).
Proof.
  intros Hinit Hu Hm.
  unfold createPullRequest. rewrite Hu. simpl.
  set (files := match changedFiles with
                | [] => match getChangedFiles sourceRepoId targetRepoId w with
                        | Success files => files
                        | Failure _ => changedFiles
                        end
                | _ :: _ => changedFiles
                end).
  set (d := {| pr_id := None; pr_title := title;
               pr_description := description;
               pr_sourceRepoId := sourceRepoId;
               pr_sourceRepoName := sourceRepoName;
               pr_targetRepoId := targetRepoId;
               pr_targetRepoName := targetRepoName;
               pr_targetOwnerId := targetOwnerId; pr_status := open;
               pr_createdAt := clock (ticks w);
               pr_updatedAt := clock (ticks w);
               pr_createdBy :=
                 {| cb_id := uid u;
                    cb_name := or_opt (displayName u) "Anonymous";
                    cb_email := or_opt (email u) "unknown" |};
               pr_changedFiles := Some files |}).
  set (w1 := add_notification _ _).
  set (w1' := sign_in merger w1).
  assert (Hd1 : pullRequests w1' !! docId = Some d).
  { simpl. apply lookup_insert_eq. }
  assert (Hu1 : currentUser w1' = Some merger) by done.
  assert (Hi1 : initialized w1' = true) by done.
  assert (∃ w2, mergePullRequest docId comment w1' = (Success (), w2)
                ∧ (pr_status <$> pullRequests w2 !! docId) = Some merged
                ∧ repositories w2 = repositories w
                ∧ (changedFiles ≠ [] →
                   has_slash sourceRepoId = false →
                   has_slash targetRepoId = false →
                   sourceRepoId ≠ targetRepoId →
                   ∀ f src,
                     f ∈ changedFiles →
                     s3_get (fileKeyOf sourceRepoId f) w = Some src →
                     (includes "text" (ContentType src) || isTextFile f = true →
                      TextDecoder_decode (body_bytes (Body src)) ≠ "") →
                     holds targetRepoId f
                       (if includes "text" (ContentType src) || isTextFile f
                        then TextEncoder_encode
                               (TextDecoder_decode (body_bytes (Body src)))
                        else body_bytes (Body src)) w2))
    as (w2 & Hmerge & Hstatus & Hrepos & Htransfer).
  { unfold mergePullRequest.
    rewrite Hu1, (getPullRequest_Some _ _ _ Hd1). simpl.
    rewrite <- Hm, String.eqb_refl. simpl.
    set (resolved := match files with
                     | [] => getChangedFiles sourceRepoId targetRepoId w1'
                     | _ :: _ => Success files
                     end).
    assert (∃ l, resolved = Success l ∧ (changedFiles ≠ [] → l = changedFiles))
      as (l & -> & Hl).
    { subst resolved files. destruct changedFiles as [|f0 rest].
      - assert (∃ l, getChangedFiles sourceRepoId targetRepoId w1' = Success l)
          as [l Hl].
        { unfold getChangedFiles, listRepositoryFiles. simpl. rewrite Hinit.
          simpl.
          destruct (s3_list_delim _ _); destruct (s3_list_delim _ _);
            by eexists. }
        destruct (getChangedFiles sourceRepoId targetRepoId w) as [[|g gs]|];
          rewrite ?Hl; by eexists.
      - by eexists. }
    pose proof (mergeFiles_frame docId (pullRequest_of_doc docId d) merger l 0
                  w1') as Hf.
    cbv zeta in Hf.
    destruct (mergeFiles _ _ _ _ _ _) as [n w3] eqn:Hmf. simpl in Hf.
    destruct Hf as (_ & Hu3 & Hr3 & Hp3 & _).
    destruct (updatePullRequestStatus_allowed docId merged comment w3 merger d)
      as (w4 & Hrun & Hlook & _ & Hb & _); [done | | by left |].
    { rewrite Hp3. apply lookup_insert_eq. }
    rewrite Hrun. exists w4. split; [done |]. split; [by rewrite Hlook |].
    split.
    { pose proof (updatePullRequestStatus_repositories docId merged comment w3)
        as Hr4.
      rewrite Hrun in Hr4. simpl in Hr4. congruence. }
    intros Hne Hs Ht Hdist f src Hin Hsource Hnonempty.
    destruct (transferable_of_source sourceRepoId f src w Hinit Hsource
                Hnonempty) as (content & Htr & <-).
    destruct (mergeFiles_transfers docId (pullRequest_of_doc docId d) merger w1'
                Hs Ht Hdist Hi1 l 0 w1' Hi1 Hu1)
      as (n' & w' & Hloop & _ & _ & _ & _ & Hall); [done |].
    rewrite Hmf in Hloop. injection Hloop as <- <-.
    rewrite (Hl Hne) in Hall.
    destruct (Hall f content) as [(cur & Hcur & Hbytes) _].
    - destruct Htr as (md & Hg & Htruthy). exists md. split; [| done].
      rewrite <- Hg. by apply getFileContent_congr.
    - by left.
    - exists cur. split; [| done]. simpl in Hcur.
      unfold s3_get in *. by rewrite Hb. }
  exists (pullRequest_of_doc docId d), w1, w2.
  split; [done |]. split.
  { unfold getPullRequest. simpl. by rewrite lookup_insert_eq. }
  split_and!; try done.
  eexists. split; [reflexivity |]. done.
Qed.

End MoreProperties.

(** * The further scenarios, run *)

Section MoreRuns.
#[local] Existing Instance demo_platform.

(** X1 at work: alice uploads [notes.md] with no content type. *)
Lemma upload_then_download_witness :
  ∃ u content',
    currentUser w_empty = Some u
    ∧ holds "repo1" "notes.md" (content_bytes (CString "todo")) w_uploaded
    ∧ downloadFileFromS3 "repo1" "notes.md" w_uploaded
      = Success (content', [("user-id", uid u);
                            ("uploaded-at", clock (ticks w_empty));
                            ("original-filename", "notes.md")])
    ∧ content'
      = (if includes "text" (finalContentType "" "notes.md")
            || isTextFile "notes.md"
         then CString (TextDecoder_decode (content_bytes (CString "todo")))
         else CBytes (content_bytes (CString "todo")))
    ∧ (isTextFile "notes.md" = true →
       content' = CString (TextDecoder_decode (content_bytes (CString "todo"))))
    ∧ (isTextFile "notes.md" = false →
       "" = "" ∨ "" = "text/plain" →
       content' = CBytes (content_bytes (CString "todo"))).
Proof.
  apply (upload_then_download w_empty w_uploaded "repo1" "notes.md" ""
           (CString "todo")
           (Some "https://bucket.s3.amazonaws.com/repositories/repo1/files/notes.md")).
  vm_compute. reflexivity.
Defined.

(** Bytes uploaded under a name with a text extension come back decoded:
    a Latin-1 [notes.txt] with its last byte replaced by U+FFFD. *)
Example uploaded_bytes_come_back_decoded :
  bytes_at (fileKeyOf "repo1" "notes.txt")
    (uploadFileToS3 "repo1" "notes.txt" (CBytes latin1_cafe) "" w_empty).2
    = Some latin1_cafe
  ∧ content_of
      (downloadFileFromS3 "repo1" "notes.txt"
         (uploadFileToS3 "repo1" "notes.txt" (CBytes latin1_cafe) "" w_empty).2)
    = Some (CString ("caf" ++ replacement)).
Proof. split; vm_compute; reflexivity. Qed.

(** X2 at work. *)
Lemma uploaded_file_is_listed_witness :
  ∃ files file,
    listRepositoryFiles "repo1" w_uploaded = Success files
    ∧ file ∈ files
    ∧ fi_name file = "notes.md"
    ∧ fi_path file = fileKeyOf "repo1" "notes.md"
    ∧ fi_size file = String.length (content_bytes (CString "todo"))
    ∧ fi_createdAt file = clock (S (ticks w_empty)).
Proof.
  apply (uploaded_file_is_listed w_empty w_uploaded "repo1" "notes.md" ""
           (CString "todo")
           (Some "https://bucket.s3.amazonaws.com/repositories/repo1/files/notes.md")).
  - reflexivity.
  - vm_compute. reflexivity.
  - vm_compute. reflexivity.
Defined.

(** X3 at work: alice uploads [docs/guide.md]. *)
Lemma file_with_a_slash_is_stored_but_never_listed_witness :
  holds "repo1" "docs/guide.md" (content_bytes (CString "read me")) w_nested
  ∧ (∃ metadata,
      downloadFileFromS3 "repo1" "docs/guide.md" w_nested
      = Success
          (if includes "text" (finalContentType "" "docs/guide.md")
              || isTextFile "docs/guide.md"
           then CString (TextDecoder_decode (content_bytes (CString "read me")))
           else CBytes (content_bytes (CString "read me")), metadata))
  ∧ ∃ files,
      listRepositoryFiles "repo1" w_nested = Success files
      ∧ ∀ file, file ∈ files → fi_path file ≠ fileKeyOf "repo1" "docs/guide.md".
Proof.
  apply (file_with_a_slash_is_stored_but_never_listed w_empty w_nested "repo1"
           "docs/guide.md" "" (CString "read me")
           (Some "https://bucket.s3.amazonaws.com/repositories/repo1/files/docs/guide.md")).
  - reflexivity.
  - vm_compute. reflexivity.
Defined.

(** X4 at work: nobody is signed in, and [readme.txt] is deleted. *)
Lemma delete_removes_the_current_content_only_witness :
  ∃ w',
    deleteFileFromS3 "repo1" "readme.txt" (sign_out w_committed)
      = (Success (), w')
    ∧ downloadFileFromS3 "repo1" "readme.txt" w' = Failure NoSuchKey_message
    ∧ (∀ k, k ≠ fileKeyOf "repo1" "readme.txt" →
            s3_get k w' = s3_get k (sign_out w_committed))
    ∧ (∀ T fromPending,
         getFileVersion "repo1" "readme.txt" T fromPending w'
         = getFileVersion "repo1" "readme.txt" T fromPending
             (sign_out w_committed))
    ∧ getFileCommitHistory "repo1" "readme.txt" w'
      = getFileCommitHistory "repo1" "readme.txt" (sign_out w_committed)
    ∧ listFileCommits "repo1" "readme.txt" w'
      = listFileCommits "repo1" "readme.txt" (sign_out w_committed).
Proof.
  apply (delete_removes_the_current_content_only (sign_out w_committed)
           "repo1" "readme.txt").
  reflexivity.
Defined.

(** X5 at work: the fork holds [logo.png] and [readme.txt]. *)
Lemma copyRepositoryFiles_counts_the_listed_files_witness :
  ∃ files copied,
    listRepositoryFiles "fork1" w_merge = Success files
    ∧ cr_success (copyRepositoryFiles "fork1" "copy1" w_merge).1 = true
    ∧ cr_filesCopied (copyRepositoryFiles "fork1" "copy1" w_merge).1
      = Some copied
    ∧ (copied ≤ length files)%nat
    ∧ (cr_error (copyRepositoryFiles "fork1" "copy1" w_merge).1 = None
       ↔ copied = length files).
Proof.
  apply (copyRepositoryFiles_counts_the_listed_files w_merge w_copied
           "fork1" "copy1").
  - reflexivity.
  - exists alice. reflexivity.
  - vm_compute. reflexivity.
Defined.

(** X6 at work: the same copy. *)
Lemma copyRepositoryFiles_copies_into_the_file_folder_only_witness :
  ∃ files,
    listRepositoryFiles "fork1" w_merge = Success files
    ∧ (∀ file src,
         file ∈ files →
         s3_get (fileKeyOf "fork1" (fi_name file)) w_merge = Some src →
         (includes "text" (ContentType src) || isTextFile (fi_name file) = true →
          TextDecoder_decode (body_bytes (Body src)) ≠ "") →
         holds "copy1" (fi_name file)
           (if includes "text" (ContentType src) || isTextFile (fi_name file)
            then TextEncoder_encode (TextDecoder_decode (body_bytes (Body src)))
            else body_bytes (Body src)) w_copied)
    ∧ (∀ k, String.prefix (filesPrefix "copy1") k = false →
            s3_get k w_copied = s3_get k w_merge)
    ∧ (∀ f, getFileCommitHistory "copy1" f w_copied
            = getFileCommitHistory "copy1" f w_merge)
    ∧ listRepositoryFiles "fork1" w_copied = Success files
    ∧ repositories w_copied = repositories w_merge
    ∧ notifications w_copied = notifications w_merge.
Proof.
  apply (copyRepositoryFiles_copies_into_the_file_folder_only w_merge w_copied
           "fork1" "copy1" (copyRepositoryFiles "fork1" "copy1" w_merge).1
           alice).
  - reflexivity.
  - reflexivity.
  - reflexivity.
  - reflexivity.
  - discriminate.
  - vm_compute. reflexivity.
Defined.

(** The copy of the two text files of the fork: neither is byte-identical
    in the copy. *)
Example copied_text_files_are_not_byte_identical :
  bytes_at (fileKeyOf "fork1" "notes.txt") w_text_merge = Some latin1_cafe
  ∧ bytes_at (fileKeyOf "copy1" "notes.txt")
             (copyRepositoryFiles "fork1" "copy1" w_text_merge).2
    = Some ("caf" ++ replacement)
  ∧ bytes_at (fileKeyOf "fork1" "marked.txt") w_text_merge = Some (BOM ++ "hi")
  ∧ bytes_at (fileKeyOf "copy1" "marked.txt")
             (copyRepositoryFiles "fork1" "copy1" w_text_merge).2
    = Some "hi".
Proof. split_and!; vm_compute; reflexivity. Qed.

(** X7 at work: alice's first commit of [readme.txt]. *)
Lemma commit_shows_in_listFileCommits_witness :
  ∃ u commits c,
    currentUser w_empty = Some u
    ∧ listFileCommits "repo1" "readme.txt" w_committed = Success commits
    ∧ c ∈ commits
    ∧ fc_key c = historyKeyOf "repo1" "readme.txt" T_init
    ∧ fc_size c = String.length (TextEncoder_encode "hello")
    ∧ fc_commitMessage c = "init"
    ∧ fc_userId c = uid u
    ∧ fc_userEmail c = or_opt (email u) ""
    ∧ fc_previousVersion c = or_opt None "".
Proof.
  apply (commit_shows_in_listFileCommits w_empty w_committed "repo1"
           "readme.txt" "hello" "init" T_init None).
  - vm_compute. reflexivity.
  - reflexivity.
  - vm_compute. reflexivity.
Defined.

(** X8 at work: alice commits [docs/guide.md]; the history of [docs] lists
    it. *)
Lemma history_of_a_name_lists_the_commits_below_it_witness :
  (fits_one_page (commitsPrefix "repo1" "docs") w_nested_commit →
   ∃ commits entry,
     getFileCommitHistory "repo1" "docs" w_nested_commit = Success commits
     ∧ entry ∈ commits
     ∧ prop entry "timestamp" = JStr T_init
     ∧ prop entry "message" = JStr "guide")
  ∧ ∃ commits,
      listFileCommits "repo1" "docs" w_nested_commit = Success commits
      ∧ ∀ c, c ∈ commits →
             fc_key c ≠ historyKeyOf "repo1" ("docs" ++ "/" ++ "guide.md") T_init.
Proof.
  apply (history_of_a_name_lists_the_commits_below_it w_empty w_nested_commit
           "repo1" "docs" "guide.md" "read me" "guide" T_init None).
  vm_compute. reflexivity.
Defined.

(** The history of [docs] in the scenario. *)
Example history_of_docs_lists_the_commit_of_the_guide :
  fits_one_page (commitsPrefix "repo1" "docs") w_nested_commit
  ∧ lists_timestamp T_init (getFileCommitHistory "repo1" "docs" w_nested_commit)
    = true.
Proof. split; vm_compute; reflexivity. Qed.

(** X9 at work. *)
Lemma committed_content_downloads_as_text_witness :
  ∃ u,
    currentUser w_empty = Some u
    ∧ downloadFileFromS3 "repo1" "readme.txt" w_committed
      = Success (CString (TextDecoder_decode (TextEncoder_encode "hello")),
                 [("user-id", uid u);
                  ("user-email", or_opt (email u) "");
                  ("uploaded-at", T_init);
                  ("original-filename", "readme.txt")]).
Proof.
  apply (committed_content_downloads_as_text w_empty w_committed "repo1"
           "readme.txt" "hello" "init" T_init None).
  vm_compute. reflexivity.
Defined.

(** A committed text that starts with a byte-order mark downloads without
    it. *)
Example committed_mark_is_not_downloaded :
  content_of (downloadFileFromS3 "repo1" "readme.txt" w_marked)
  = Some (CString "hello").
Proof. vm_compute. reflexivity. Qed.

(** X10 at work: alice's second commit of [readme.txt]. *)
Lemma commit_keeps_the_earlier_history_witness :
  (∃ before after,
      getFileCommitHistory "repo1" "readme.txt" w_committed = Success before
      ∧ getFileCommitHistory "repo1" "readme.txt" w_recommitted = Success after
      ∧ (fits_one_page (commitsPrefix "repo1" "readme.txt") w_recommitted →
         ∀ entry, entry ∈ before → entry ∈ after))
  ∧ (∀ T', T' ≠ T_second →
       getFileVersion "repo1" "readme.txt" T' false w_recommitted
       = getFileVersion "repo1" "readme.txt" T' false w_committed)
  ∧ (∀ T', getFileVersion "repo1" "readme.txt" T' true w_recommitted
           = getFileVersion "repo1" "readme.txt" T' true w_committed).
Proof.
  apply (commit_keeps_the_earlier_history w_committed w_recommitted "repo1"
           "readme.txt" "hello again" "more" T_second None).
  - vm_compute. reflexivity.
  - vm_compute. reflexivity.
Defined.

(** X11 at work: bob's pending change of [readme.txt]. *)
Lemma pending_commit_leaves_the_file_as_it_is_witness :
  (∃ pending,
      s3_get (pendingKeyOf "repo1" "readme.txt" T_pending) w_pending
        = Some pending
      ∧ Body pending = Raw (TextEncoder_encode "hello world"))
  ∧ getFileVersion "repo1" "readme.txt" T_pending true w_pending
    = Success (TextDecoder_decode (TextEncoder_encode "hello world"))
  ∧ (∀ g, downloadFileFromS3 "repo1" g w_pending
          = downloadFileFromS3 "repo1" g (demo_world bob ∅ ∅))
  ∧ (∀ g, getFileCommitHistory "repo1" g w_pending
          = getFileCommitHistory "repo1" g (demo_world bob ∅ ∅))
  ∧ (∀ g T', getFileVersion "repo1" g T' false w_pending
             = getFileVersion "repo1" g T' false (demo_world bob ∅ ∅))
  ∧ ∃ u requests,
      currentUser (demo_world bob ∅ ∅) = Some u
      ∧ getPendingCommitRequests "repo1" w_pending = Success requests
      ∧ (fits_one_page (pendingMetaPrefix "repo1") w_pending →
         ∃ request,
           request ∈ requests
           ∧ prop request "status" = JStr "pending"
           ∧ prop request "timestamp" = JStr T_pending
           ∧ prop request "author" = JStr (author_of u)).
Proof.
  apply (pending_commit_leaves_the_file_as_it_is (demo_world bob ∅ ∅) w_pending
           "repo1" "readme.txt" "hello world" "update" T_pending).
  vm_compute. reflexivity.
Defined.

(** X12 at work: bob is not the owner of [demo]; alice is notified. *)
Lemma pending_commit_notifies_the_owner_unless_the_owner_submits_witness :
  (r_ownerId demo_repo = uid bob →
   notifications w_pending = notifications (demo_world bob ∅ ∅))
  ∧ (r_ownerId demo_repo ≠ uid bob →
     (∃ n, notifications w_pending
           = (notifications (demo_world bob ∅ ∅) ++ [n])%list
           ∧ n_userId n = JStr (r_ownerId demo_repo)
           ∧ n_type n = "commit_request"
           ∧ n_read n = false
           ∧ n_createdBy n = Some (uid bob)
           ∧ prop (n_details n) "commitTimestamp" = JStr T_pending
           ∧ prop (n_details n) "requesterId" = JStr (uid bob))
     ∧ ∀ owner count,
         uid owner = r_ownerId demo_repo →
         getUnreadNotificationsCount (sign_in owner (demo_world bob ∅ ∅))
           = Success count →
         getUnreadNotificationsCount (sign_in owner w_pending)
           = Success (S count)).
Proof.
  apply (pending_commit_notifies_the_owner_unless_the_owner_submits
           (demo_world bob ∅ ∅) w_pending "repo1" "readme.txt" "hello world"
           "update" T_pending bob demo_repo).
  - vm_compute. reflexivity.
  - reflexivity.
  - reflexivity.
  - discriminate.
Defined.

(** X14 at work: alice rejects bob's change. *)
Lemma rejection_rewrites_the_metadata_record_only_witness :
  (∀ k, k ≠ pendingMetaKeyOf "repo1" "readme.txt" T_pending →
        s3_get k w_rejected = s3_get k w_owner)
  ∧ (∀ g, downloadFileFromS3 "repo1" g w_rejected
          = downloadFileFromS3 "repo1" g w_owner)
  ∧ (∀ g, getFileCommitHistory "repo1" g w_rejected
          = getFileCommitHistory "repo1" g w_owner)
  ∧ getFileVersion "repo1" "readme.txt" T_pending true w_rejected
    = getFileVersion "repo1" "readme.txt" T_pending true w_owner
  ∧ ∃ u metadata,
      currentUser w_owner = Some u
      ∧ record_of (pendingMetaKeyOf "repo1" "readme.txt" T_pending) w_owner
        = Some metadata
      ∧ record_of (pendingMetaKeyOf "repo1" "readme.txt" T_pending) w_rejected
        = Some (updatedMetadata metadata "rejected" u (clock (ticks w_owner))
                                None).
Proof.
  apply (rejection_rewrites_the_metadata_record_only w_owner w_rejected "repo1"
           T_pending "readme.txt" None).
  vm_compute. reflexivity.
Defined.

(** X15 at work: bob, a collaborator, tries to approve his own change. *)
Lemma only_the_owner_decides_a_pending_commit_witness :
  processPendingCommit "repo1" T_pending "readme.txt" true None w_pending
  = (Failure "Only the repository owner can approve commit requests", w_pending).
Proof.
  apply (only_the_owner_decides_a_pending_commit w_pending "repo1" T_pending
           "readme.txt" true None bob demo_repo).
  - reflexivity.
  - reflexivity.
  - reflexivity.
  - discriminate.
Defined.

(** X16 at work: alice approves bob's empty change. *)
Lemma approving_an_empty_change_applies_nothing_witness :
  ∃ w' metadata',
    processPendingCommit "repo1" T_pending "readme.txt" true None
      w_empty_pending = (Success (), w')
    ∧ record_of (pendingMetaKeyOf "repo1" "readme.txt" T_pending) w'
      = Some metadata'
    ∧ prop metadata' "status" = JStr "approved"
    ∧ (∀ k, k ≠ pendingMetaKeyOf "repo1" "readme.txt" T_pending →
            s3_get k w' = s3_get k w_empty_pending)
    ∧ downloadFileFromS3 "repo1" "readme.txt" w'
      = downloadFileFromS3 "repo1" "readme.txt" w_empty_pending
    ∧ getFileCommitHistory "repo1" "readme.txt" w'
      = getFileCommitHistory "repo1" "readme.txt" w_empty_pending.
Proof.
  apply (approving_an_empty_change_applies_nothing w_empty_pending "repo1"
           T_pending "readme.txt" None alice demo_repo
           (record_at (pendingMetaKeyOf "repo1" "readme.txt" T_pending)
                      w_empty_pending)
           (record_at (pendingKeyOf "repo1" "readme.txt" T_pending)
                      w_empty_pending)
           (doc_at (pendingMetaKeyOf "repo1" "readme.txt" T_pending)
                   w_empty_pending)).
  - reflexivity.
  - reflexivity.
  - reflexivity.
  - reflexivity.
  - vm_compute. reflexivity.
  - vm_compute. reflexivity.
  - vm_compute. reflexivity.
  - vm_compute. reflexivity.
Defined.

(** X17 at work: alice restores her first commit. *)
Lemma restore_makes_the_version_current_witness :
  ∃ content metadata doc,
    getFileVersion "repo1" "readme.txt" T_init false w_recommitted
      = Success content
    ∧ content ≠ ""
    ∧ holds "repo1" "readme.txt" (TextEncoder_encode content)
        (restoreFileVersion "repo1" "readme.txt" T_init None w_recommitted).2
    ∧ downloadFileFromS3 "repo1" "readme.txt"
        (restoreFileVersion "repo1" "readme.txt" T_init None w_recommitted).2
      = Success (CString (TextDecoder_decode (TextEncoder_encode content)),
                 metadata)
    ∧ record_of (commitKeyOf "repo1" "readme.txt" (clock (ticks w_recommitted)))
        (restoreFileVersion "repo1" "readme.txt" T_init None w_recommitted).2
      = Some doc
    ∧ prop doc "timestamp" = JStr (clock (ticks w_recommitted))
    ∧ prop doc "message"
      = JStr (default "Restored previous version" None ++
              " (from " ++ toLocaleString T_init ++ ")")
    ∧ prop doc "previousVersion" = JUndefined
    ∧ (fits_one_page (commitsPrefix "repo1" "readme.txt")
         (restoreFileVersion "repo1" "readme.txt" T_init None w_recommitted).2 →
       ∃ commits entry,
         getFileCommitHistory "repo1" "readme.txt"
           (restoreFileVersion "repo1" "readme.txt" T_init None
              w_recommitted).2
         = Success commits
         ∧ entry ∈ commits
         ∧ ∀ key, key ≠ "id" → prop entry key = prop doc key).
Proof.
  apply (restore_makes_the_version_current w_recommitted
           (restoreFileVersion "repo1" "readme.txt" T_init None w_recommitted).2
           "repo1" "readme.txt" T_init None).
  vm_compute. reflexivity.
Defined.

(** The restore of the scenario: the first commit is current again, and
    the restore of a version that starts with two byte-order marks
    downloads without any. *)
Example restored_content_of_the_scenarios :
  content_of
    (downloadFileFromS3 "repo1" "readme.txt"
       (restoreFileVersion "repo1" "readme.txt" T_init None w_recommitted).2)
    = Some (CString "hello")
  ∧ content_of (downloadFileFromS3 "repo1" "readme.txt" w_two_marks_restored)
    = Some (CString "x").
Proof. split; vm_compute; reflexivity. Qed.

(** X18 at work: no version of [readme.txt] carries the timestamp. *)
Lemma restore_refuses_a_missing_or_empty_version_witness :
  (s3_get (historyKeyOf "repo1" "readme.txt" T_second) w_committed = None →
     restoreFileVersion "repo1" "readme.txt" T_second None w_committed
     = (Failure "Version not found", w_committed))
  ∧ (∀ version,
       s3_get (historyKeyOf "repo1" "readme.txt" T_second) w_committed
         = Some version →
       body_bytes (Body version) = "" →
       restoreFileVersion "repo1" "readme.txt" T_second None w_committed
       = (Failure "Failed to retrieve file version", w_committed)).
Proof.
  apply (restore_refuses_a_missing_or_empty_version w_committed "repo1"
           "readme.txt" T_second None).
  - reflexivity.
  - exists alice. reflexivity.
Defined.

(** X19 at work: the fork holds none of the files of the pull request. *)
Lemma merge_that_transfers_nothing_still_marks_merged_witness :
  ∃ w',
    mergePullRequest "pr1" None (w_pr alice open) = (Success (), w')
    ∧ pr_status <$> pullRequests w' !! "pr1" = Some merged
    ∧ bucket w' = bucket (w_pr alice open)
    ∧ ∃ n, n ∈ notifications w'
           ∧ n_userId n = JStr (cb_id (pr_createdBy (demo_pr open merge_files)))
           ∧ n_type n = "pull_request_merged".
Proof.
  apply (merge_that_transfers_nothing_still_marks_merged (w_pr alice open)
           "pr1" (demo_pr open merge_files) alice None merge_files).
  - reflexivity.
  - vm_compute. reflexivity.
  - reflexivity.
  - reflexivity.
  - reflexivity.
  - discriminate.
  - repeat constructor.
Defined.

(** X20 at work: alice already owns [demo]. *)
Lemma repository_names_are_unique_per_owner_witness :
  ((∃ k d, repositories w_empty !! k = Some d ∧ r_ownerId d = uid alice
           ∧ r_name d = "demo") →
   createRepository "demo" "another" None "repo2" w_empty
   = (Failure "A repository with this name already exists", w_empty))
  ∧ ((∀ k d, repositories w_empty !! k = Some d → r_ownerId d = uid alice →
             r_name d ≠ "demo") →
     ∃ r w',
       createRepository "demo" "another" None "repo2" w_empty = (Success r, w')
       ∧ r = {| r_id := Some "repo2"; r_name := "demo";
                r_description := "another"; r_ownerId := uid alice;
                r_createdAt := clock (ticks w_empty);
                r_updatedAt := clock (ticks w_empty);
                r_isPublic := default false None;
                r_collaborators := Some []; r_forkedFrom := None |}
       ∧ getRepository "repo2" w' = Success r
       ∧ (∀ k, k ≠ "repo2" → repositories w' !! k = repositories w_empty !! k)
       ∧ bucket w' = bucket w_empty
       ∧ ∀ description' isPublic' docId',
           createRepository "demo" description' isPublic' docId' w'
           = (Failure "A repository with this name already exists", w')).
Proof.
  apply (repository_names_are_unique_per_owner w_empty "demo" "another" None
           "repo2" alice).
  reflexivity.
Defined.

(** X21 at work: alice renames [demo]. *)
Lemma only_the_owner_updates_a_repository_witness :
  (r_ownerId demo_repo ≠ uid alice →
     updateRepository "repo1" rename_demo w_empty
     = (Failure "Only the owner can update this repository", w_empty))
  ∧ (r_ownerId demo_repo = uid alice →
     ∃ w',
       updateRepository "repo1" rename_demo w_empty = (Success (), w')
       ∧ repositories w' !! "repo1"
         = Some (apply_updates rename_demo (clock (ticks w_empty)) demo_repo)
       ∧ (r_updatedAt <$> repositories w' !! "repo1")
         = Some (clock (ticks w_empty))
       ∧ (∀ k, k ≠ "repo1" → repositories w' !! k = repositories w_empty !! k)
       ∧ bucket w' = bucket w_empty
       ∧ ∀ owner updates',
           up_ownerId rename_demo = Some owner → owner ≠ uid alice →
           updateRepository "repo1" updates' w'
           = (Failure "Only the owner can update this repository", w')).
Proof.
  apply (only_the_owner_updates_a_repository w_empty "repo1" rename_demo alice
           demo_repo).
  - reflexivity.
  - vm_compute. reflexivity.
Defined.

(** X22 at work: alice deletes [demo] after her first commit. *)
Lemma deleting_a_repository_leaves_its_files_witness :
  (r_ownerId demo_repo ≠ uid alice →
     deleteRepository "repo1" w_committed
     = (Failure "Only the owner can delete this repository", w_committed))
  ∧ (r_ownerId demo_repo = uid alice →
     ∃ w',
       deleteRepository "repo1" w_committed = (Success (), w')
       ∧ getRepository "repo1" w' = Failure "Repository not found"
       ∧ (∀ k, k ≠ "repo1" →
               repositories w' !! k = repositories w_committed !! k)
       ∧ bucket w' = bucket w_committed
       ∧ pullRequests w' = pullRequests w_committed
       ∧ listRepositoryFiles "repo1" w' = listRepositoryFiles "repo1" w_committed
       ∧ (∀ f, downloadFileFromS3 "repo1" f w'
               = downloadFileFromS3 "repo1" f w_committed)
       ∧ (∀ f, getFileCommitHistory "repo1" f w'
               = getFileCommitHistory "repo1" f w_committed)).
Proof.
  apply (deleting_a_repository_leaves_its_files w_committed "repo1" alice
           demo_repo).
  - reflexivity.
  - vm_compute. reflexivity.
Defined.

(** X23 at work: bob, a collaborator of [demo], forks it. *)
Lemma fork_is_a_private_repository_of_the_caller_witness :
  (r_isPublic demo_repo = false → r_ownerId demo_repo ≠ uid bob →
   is_collaborator demo_repo (uid bob) = false →
     forkRepository "repo1" (Some "mine") "fork2" (demo_world bob ∅ ∅)
     = (Failure "You do not have permission to fork this repository",
        demo_world bob ∅ ∅))
  ∧ (r_isPublic demo_repo = true ∨ r_ownerId demo_repo = uid bob
     ∨ is_collaborator demo_repo (uid bob) = true →
     (∀ k d', repositories (demo_world bob ∅ ∅) !! k = Some d' →
              r_ownerId d' = uid bob →
              r_name d' ≠ or_opt (Some "mine") (r_name demo_repo ++ "-fork")) →
     ∃ r w',
       forkRepository "repo1" (Some "mine") "fork2" (demo_world bob ∅ ∅)
         = (Success r, w')
       ∧ r_id r = Some "fork2"
       ∧ r_name r = or_opt (Some "mine") (r_name demo_repo ++ "-fork")
       ∧ r_ownerId r = uid bob
       ∧ r_isPublic r = false
       ∧ r_collaborators r = Some []
       ∧ r_forkedFrom r = Some "repo1"
       ∧ getRepository "fork2" w' = Success r
       ∧ bucket w' = bucket (demo_world bob ∅ ∅)
       ∧ ∀ k, k ≠ "fork2" →
              repositories w' !! k = repositories (demo_world bob ∅ ∅) !! k).
Proof.
  apply (fork_is_a_private_repository_of_the_caller (demo_world bob ∅ ∅)
           "repo1" "fork2" (Some "mine") bob demo_repo).
  - reflexivity.
  - vm_compute. reflexivity.
Defined.

(** X24 at work: alice approves carol's request. *)
Lemma approved_requester_reads_the_whole_repository_witness :
  ∃ s' repo',
    updateAccessRequest "req1" true s_owner = (Success (), s')
    ∧ (ar_status <$> accessRequests s' !! "req1")
      = Some ACCESS_REQUEST_APPROVED
    ∧ repositories (world s') !! ar_repositoryId demo_request = Some repo'
    ∧ is_collaborator repo' (uid carol) = true
    ∧ (∀ x, is_collaborator demo_repo x = true →
            is_collaborator repo' x = true)
    ∧ r_ownerId repo' = r_ownerId demo_repo
    ∧ getRepository (ar_repositoryId demo_request) (sign_in carol (world s'))
      = Success (repository_of_doc (ar_repositoryId demo_request) repo')
    ∧ bucket (world s') = bucket (world s_owner).
Proof.
  apply (approved_requester_reads_the_whole_repository s_owner "req1"
           demo_request demo_repo alice carol).
  - reflexivity.
  - vm_compute. reflexivity.
  - reflexivity.
  - vm_compute. reflexivity.
  - reflexivity.
Defined.

(** X25 at work: alice denies carol's request. *)
Lemma only_the_owner_named_in_the_request_decides_it_witness :
  (ar_ownerId demo_request ≠ uid alice →
     ∀ approve,
       updateAccessRequest "req1" approve s_owner
       = (Failure "You do not have permission to update this access request",
          s_owner))
  ∧ (ar_ownerId demo_request = uid alice →
     ∃ s',
       updateAccessRequest "req1" false s_owner = (Success (), s')
       ∧ accessRequests s' !! "req1"
         = Some (with_request_status ACCESS_REQUEST_DENIED
                   (clock (ticks (world s_owner))) demo_request)
       ∧ repositories (world s') = repositories (world s_owner)
       ∧ bucket (world s') = bucket (world s_owner)).
Proof.
  apply (only_the_owner_named_in_the_request_decides_it s_owner "req1"
           demo_request alice).
  - reflexivity.
  - vm_compute. reflexivity.
Defined.

(** X26 at work: carol asks for access to [demo]. *)
Lemma one_pending_access_request_per_requester_witness :
  ∃ s' n,
    requestRepositoryAccess "repo1" "req1" s_empty = (Success None, s')
    ∧ accessRequests s' !! "req1"
      = Some {| ar_repositoryId := "repo1";
                ar_repositoryName := r_name demo_repo;
                ar_ownerId := r_ownerId demo_repo;
                ar_requesterId := uid carol;
                ar_requesterEmail := email carol;
                ar_requesterName := requesterName carol;
                ar_status := ACCESS_REQUEST_PENDING;
                ar_createdAt := clock (ticks (world s_empty));
                ar_updatedAt := clock (ticks (world s_empty)) |}
    ∧ notifications (world s') = (notifications (world s_empty) ++ [n])%list
    ∧ n_userId n = JStr (r_ownerId demo_repo)
    ∧ n_type n = "access_request"
    ∧ prop (n_details n) "requestId" = JStr "req1"
    ∧ repositories (world s') = repositories (world s_empty)
    ∧ ∀ docId',
        requestRepositoryAccess "repo1" docId' s'
        = (Failure "You already have a pending access request for this repository",
           s').
Proof.
  apply (one_pending_access_request_per_requester s_empty "repo1" "req1" carol
           demo_repo).
  - reflexivity.
  - vm_compute. reflexivity.
  - discriminate.
  - discriminate.
  - reflexivity.
  - intros k r Hk. vm_compute in Hk. discriminate.
Defined.

(** X27 at work: [demo] is gone when alice approves carol's request. *)
Lemma approval_for_a_deleted_repository_fails_after_marking_it_witness :
  ∃ s',
    updateAccessRequest "req1" true s_orphan
      = (Failure "Repository not found", s')
    ∧ (ar_status <$> accessRequests s' !! "req1")
      = Some ACCESS_REQUEST_APPROVED
    ∧ notifications (world s') = notifications (world s_orphan)
    ∧ repositories (world s') = repositories (world s_orphan).
Proof.
  apply (approval_for_a_deleted_repository_fails_after_marking_it s_orphan
           "req1" demo_request alice).
  - reflexivity.
  - vm_compute. reflexivity.
  - reflexivity.
  - vm_compute. reflexivity.
Defined.

(** X29 at work: bob owns the fork and collaborates on [demo]. *)
Lemma own_listing_holds_the_owned_and_the_shared_repositories_witness :
  ∃ listed,
    getUserRepositories (demo_world bob ∅ ∅) = Success listed
    ∧ (∀ r, r ∈ listed →
            ∃ k d, repositories (demo_world bob ∅ ∅) !! k = Some d
                   ∧ r = repository_of_doc k d
                   ∧ (r_ownerId d = uid bob
                      ∨ is_collaborator d (uid bob) = true))
    ∧ (∀ k d, repositories (demo_world bob ∅ ∅) !! k = Some d →
              r_ownerId d = uid bob →
              repository_of_doc k d ∈ listed)
    ∧ ((∀ k d, repositories (demo_world bob ∅ ∅) !! k = Some d →
               r_id d = None) →
       (∀ k d, repositories (demo_world bob ∅ ∅) !! k = Some d →
               is_collaborator d (uid bob) = true →
               repository_of_doc k d ∈ listed)
       ∧ NoDup listed).
Proof.
  apply (own_listing_holds_the_owned_and_the_shared_repositories
           (demo_world bob ∅ ∅) bob).
  reflexivity.
Defined.

(** X30 at work: carol opens a pull request into [demo] naming herself as
    the owner of the target, and merges it. *)
Lemma the_creator_of_a_pull_request_names_who_may_merge_it_witness :
  ∃ pr w1 w2,
    createPullRequest "Take over" "" "fork1" "demo-fork" "repo1" "demo"
      "carol" ["readme.txt"] "pr2" (sign_in carol w_merge) = (Success pr, w1)
    ∧ getPullRequest "pr2" w1 = Success pr
    ∧ pr_status pr = open
    ∧ pr_targetOwnerId pr = "carol"
    ∧ cb_id (pr_createdBy pr) = uid carol
    ∧ repositories w1 = repositories (sign_in carol w_merge)
    ∧ bucket w1 = bucket (sign_in carol w_merge)
    ∧ (∃ n, notifications w1
            = (notifications (sign_in carol w_merge) ++ [n])%list
            ∧ n_userId n = JStr "carol"
            ∧ n_type n = "pull_request_created")
    ∧ mergePullRequest "pr2" None (sign_in carol w1) = (Success (), w2)
    ∧ (pr_status <$> pullRequests w2 !! "pr2") = Some merged
    ∧ repositories w2 = repositories (sign_in carol w_merge)
    ∧ (["readme.txt"] ≠ [] →
       has_slash "fork1" = false → has_slash "repo1" = false →
       "fork1" ≠ "repo1" →
       ∀ f src,
         f ∈ ["readme.txt"] →
         s3_get (fileKeyOf "fork1" f) (sign_in carol w_merge) = Some src →
         (includes "text" (ContentType src) || isTextFile f = true →
          TextDecoder_decode (body_bytes (Body src)) ≠ "") →
         holds "repo1" f
           (if includes "text" (ContentType src) || isTextFile f
            then TextEncoder_encode (TextDecoder_decode (body_bytes (Body src)))
            else body_bytes (Body src)) w2).
Proof.
  apply (the_creator_of_a_pull_request_names_who_may_merge_it
           (sign_in carol w_merge) "Take over" "" "fork1" "demo-fork" "repo1"
           "demo" "carol" "pr2" ["readme.txt"] None carol carol).
  - reflexivity.
  - reflexivity.
  - reflexivity.
Defined.

(** Carol is no collaborator of [demo], which alice owns; after carol's own
    pull request and merge, [readme.txt] of [demo] is the one of the fork. *)
Example a_stranger_merges_into_the_repository_of_another :
  (r_ownerId <$> repositories w_merge !! "repo1") = Some "alice"
  ∧ ((λ d, is_collaborator d "carol") <$> repositories w_merge !! "repo1")
    = Some false
  ∧ content_of (getFileContent "repo1" "readme.txt" w_merge)
    = Some (CString "hello")
  ∧ (mergePullRequest "pr2" None (sign_in carol w_taken)).1 = Success ()
  ∧ content_of (getFileContent "repo1" "readme.txt"
                  (mergePullRequest "pr2" None (sign_in carol w_taken)).2)
    = Some (CString "hello from the fork").
Proof. vm_compute. done. Qed.

End MoreRuns.
